(** * Contact-form worker: a shallow embedding of [middleware/src/index.js]

    The worker exports one handler, [fetch (request, env)], and a handful of
    helpers ([buildCorsHeaders], [buildSecurityHeaders], [json],
    [isValidEmail], [validateTurnstileToken], [escapeHtml]).  This file
    embeds them as Rocq functions and proves the properties the
    specification states about them, and further properties that the
    code itself shows: of the exits of the handler, of the rate-limit
    counter over a sequence of requests, of the size guard in bytes, of
    the addresses [isValidEmail] accepts and of what [escapeHtml]
    writes.

    Conventions of the embedding.
    - A JavaScript string is the list of its UTF-16 code units ([list N]);
      [lit] turns an ASCII literal of the source into such a list.
    - The handler's effects (KV reads and writes, the siteverify call, the
      SES send, reading and parsing the body) go through a small monad [M]
      that threads the KV namespace and an event log, and that has the two
      ways the JavaScript leaves the [try] block early: [return] and
      [throw].
    - What the outside world answers (the JSON parser of the runtime, the
      clock, the verifier's reply, whether SES or KV reject) is a record
      [World]; the theorems quantify over it. *)

From Stdlib Require Import ZArith NArith String Ascii List Lia Bool.
From Stdlib Require Import Floats.SpecFloat.
From Stdlib Require Strings.Byte.
From stdpp Require Import base option list gmap sets.
Import ListNotations.

Set Default Proof Using "Type".

(* ===================================================================== *)
(** * JavaScript strings *)
(* ===================================================================== *)

Module JsString.

Local Open Scope N_scope.

(** The code units of an ASCII literal of the source. *)
Definition lit (s : string) : list N :=
  List.map N_of_ascii (list_ascii_of_string s).

(** A literal that holds double quotes (an HTML attribute, a JSON text):
    it is written with single quotes, each standing for a double quote. *)
Definition litq (s : string) : list N :=
  List.map (λ c, if c =? 39 then 34 else c) (lit s).

(** [s.length], as an integer. *)
Definition str_length (s : list N) : Z := Z.of_nat (length s).

(** ECMAScript [WhiteSpace] and [LineTerminator] code units: what
    [String.prototype.trim] and [parseInt] strip. *)
Definition is_white_space (c : N) : bool :=
  (c =? 0x09) || (c =? 0x0A) || (c =? 0x0B) || (c =? 0x0C) || (c =? 0x0D)
  || (c =? 0x20) || (c =? 0xA0) || (c =? 0x1680)
  || ((0x2000 <=? c) && (c <=? 0x200A))
  || (c =? 0x2028) || (c =? 0x2029) || (c =? 0x202F) || (c =? 0x205F)
  || (c =? 0x3000) || (c =? 0xFEFF).

Fixpoint trimStart (s : list N) : list N :=
  match s with
  | c :: s' => if is_white_space c then trimStart s' else s
  | [] => []
  end.

Definition trimEnd (s : list N) : list N := rev (trimStart (rev s)).

(** [s.trim()] *)
Definition trim (s : list N) : list N := trimEnd (trimStart s).

(** [a || b] where [a] is a string or [null] (the result of
    [headers.get]): the empty string and [null] are both falsy. *)
Definition or_else (a : option (list N)) (b : list N) : list N :=
  match a with
  | Some (c :: s) => c :: s
  | Some [] | None => b
  end.

(** Truthiness of a string. *)
Definition nonempty (s : list N) : bool :=
  match s with [] => false | _ :: _ => true end.

(** Occurrence of [needle] as a contiguous run of [hay]. *)
Fixpoint starts_with (needle hay : list N) : bool :=
  match needle, hay with
  | [], _ => true
  | a :: needle', b :: hay' => (a =? b) && starts_with needle' hay'
  | _ :: _, [] => false
  end.

Fixpoint includes (hay needle : list N) : bool :=
  starts_with needle hay
  || match hay with
     | [] => false
     | _ :: hay' => includes hay' needle
     end.

End JsString.
Export JsString.

(* ===================================================================== *)
(** * Numbers read from and written to the KV namespace *)
(* ===================================================================== *)

(** The submission count is the only number the handler computes with.  It
    is kept here as an exact integer, [None] standing for [NaN].  A
    JavaScript number is a binary64 value: [parseInt], the addition of 1
    and [String] agree with the exact integers as long as the count
    stays within the safe integers, from -2^53 to 2^53, and the
    comparison with 5 agrees for every count, the rounding being
    monotone.  Outside the safe integers the functions below are not
    those of JavaScript: [parseInt] rounds there, and [String] writes the
    shortest digits that read back, in exponent notation from 10^21 on.
    The handler itself writes the counts from 1 to 5; every statement
    below about the value that is written carries the bound on the
    count that was read. *)
Module JsNumber.

Local Open Scope N_scope.

(** Value of a code unit as a digit in bases up to 36. *)
Definition digit_value (c : N) : option Z :=
  if (48 <=? c) && (c <=? 57) then Some (Z.of_N (c - 48))
  else if (97 <=? c) && (c <=? 122) then Some (Z.of_N (c - 97 + 10))
  else if (65 <=? c) && (c <=? 90) then Some (Z.of_N (c - 65 + 10))
  else None.

(** The longest prefix of [s] made of digits of base [radix], folded into
    [acc]; [None] as long as no digit was read. *)
Fixpoint parse_digits (radix : Z) (s : list N) (acc : option Z) : option Z :=
  match s with
  | c :: s' =>
      match digit_value c with
      | Some d =>
          if (d <? radix)%Z
          then parse_digits radix s' (Some (default 0 acc * radix + d)%Z)
          else acc
      | None => acc
      end
  | [] => acc
  end.

(** [parseInt(string)], no radix given: leading white space is skipped, a
    sign is read, a [0x] / [0X] prefix selects base 16, and the digits
    that follow are read up to the first other character.  The result is
    the integer the digits denote, which is the JavaScript result when
    it is a safe integer. *)
Definition parseInt (string : list N) : option Z :=
  let str := trimStart string in
  let '(sign, str) :=
    match str with
    | c :: rest =>
        if c =? 45 then ((-1)%Z, rest)          (* - *)
        else if c =? 43 then (1%Z, rest)        (* + *)
        else (1%Z, str)
    | [] => (1%Z, str)
    end in
  let '(radix, str) :=
    match str with
    | a :: b :: rest =>
        if (a =? 48) && ((b =? 120) || (b =? 88)) then (16%Z, rest)   (* 0x, 0X *)
        else (10%Z, str)
    | _ => (10%Z, str)
    end in
  (λ n, sign * n)%Z <$> parse_digits radix str None.

(** [parseInt(v)] for a value read from KV: [null] is first turned into
    the string [null], which has no digits. *)
Definition parseInt_nullable (v : option (list N)) : option Z :=
  match v with
  | Some s => parseInt s
  | None => parseInt (lit "null")
  end.

(** Decimal digits of a positive number, most significant first.  The
    recursion is on [fuel]; [Pos.size_nat p] is always enough. *)
Fixpoint pos_digits (fuel : nat) (p : positive) (acc : list N) : list N :=
  match fuel with
  | O => acc
  | S fuel' =>
      let d := (48 + N.pos p mod 10) in
      match (N.pos p / 10) with
      | N0 => d :: acc
      | N.pos q => pos_digits fuel' q (d :: acc)
      end
  end.

(** [String(n)] for a safe integer [n]: its decimal digits. *)
Definition String_of_Z (n : Z) : list N :=
  match n with
  | Z0 => [48]
  | Zpos p => pos_digits (Pos.size_nat p) p []
  | Zneg p => 45 :: pos_digits (Pos.size_nat p) p []
  end.

End JsNumber.
Export JsNumber.

(* ===================================================================== *)
(** * Decoding the request body *)
(* ===================================================================== *)

(** [request.text()] decodes the bytes of the body as UTF-8: a leading
    byte-order mark is dropped, every ill-formed sequence becomes U+FFFD,
    and the code points are written as UTF-16 code units.  The decoder is
    the state machine of the Encoding standard. *)
Module Utf8.

Local Open Scope N_scope.

Record decoder := {
  code_point : N;
  bytes_seen : N;
  bytes_needed : N;
  lower_boundary : N;
  upper_boundary : N;
}.

Definition idle : decoder :=
  {| code_point := 0; bytes_seen := 0; bytes_needed := 0;
     lower_boundary := 0x80; upper_boundary := 0xBF |}.

(** A byte read while no multi-byte sequence is open. *)
Definition lead (b : N) : decoder * list N :=
  if b <=? 0x7F then (idle, [b])
  else if (0xC2 <=? b) && (b <=? 0xDF) then
    ({| code_point := N.land b 0x1F; bytes_seen := 0; bytes_needed := 1;
        lower_boundary := 0x80; upper_boundary := 0xBF |}, [])
  else if (0xE0 <=? b) && (b <=? 0xEF) then
    ({| code_point := N.land b 0xF; bytes_seen := 0; bytes_needed := 2;
        lower_boundary := if b =? 0xE0 then 0xA0 else 0x80;
        upper_boundary := if b =? 0xED then 0x9F else 0xBF |}, [])
  else if (0xF0 <=? b) && (b <=? 0xF4) then
    ({| code_point := N.land b 0x7; bytes_seen := 0; bytes_needed := 3;
        lower_boundary := if b =? 0xF0 then 0x90 else 0x80;
        upper_boundary := if b =? 0xF4 then 0x8F else 0xBF |}, [])
  else (idle, [0xFFFD]).

(** One step of the decoder: the new state and the code points emitted.
    A byte that cannot continue the open sequence closes it with U+FFFD
    and is read again as a leading byte. *)
Definition feed (d : decoder) (b : N) : decoder * list N :=
  if bytes_needed d =? 0 then lead b
  else if (b <? lower_boundary d) || (upper_boundary d <? b) then
    let '(d', out) := lead b in (d', 0xFFFD :: out)
  else
    let cp := N.lor (N.shiftl (code_point d) 6) (N.land b 0x3F) in
    if bytes_seen d + 1 =? bytes_needed d then (idle, [cp])
    else ({| code_point := cp; bytes_seen := bytes_seen d + 1;
             bytes_needed := bytes_needed d;
             lower_boundary := 0x80; upper_boundary := 0xBF |}, []).

Fixpoint run (d : decoder) (bytes : list N) : list N :=
  match bytes with
  | [] => if bytes_needed d =? 0 then [] else [0xFFFD]
  | b :: rest => let '(d', out) := feed d b in out ++ run d' rest
  end.

Definition strip_bom (bytes : list N) : list N :=
  match bytes with
  | a :: b :: c :: rest =>
      if (a =? 0xEF) && (b =? 0xBB) && (c =? 0xBF) then rest else bytes
  | _ => bytes
  end.

(** The UTF-16 code units of one code point. *)
Definition utf16_units (cp : N) : list N :=
  if cp <? 0x10000 then [cp]
  else [0xD800 + N.shiftr (cp - 0x10000) 10;
        0xDC00 + N.land (cp - 0x10000) 0x3FF].

Definition decode (bytes : list Byte.byte) : list N :=
  flat_map utf16_units (run idle (strip_bom (List.map Byte.to_N bytes))).

(** The bytes of an ASCII literal, for writing request bodies.  JSON is
    full of double quotes, which a literal here cannot hold: the literal
    is written with single quotes and each one stands for a double quote. *)
Definition bytes_of (s : string) : list Byte.byte :=
  List.map (λ b, match b with Byte.x27 => Byte.x22 | _ => b end)
           (list_byte_of_string s).

End Utf8.

(* ===================================================================== *)
(** * Regular expressions *)
(* ===================================================================== *)

(** The two patterns of the source have no back-references or look-around,
    so [pattern.test] of an anchored pattern is membership in a regular
    language; it is decided here with Brzozowski derivatives. *)
Module Regex.

Local Open Scope N_scope.

Inductive regex :=
| Empty                          (* matches no string *)
| Eps                            (* matches the empty string *)
| Class (p : N → bool)           (* one code unit of a class *)
| Seq (r1 r2 : regex)
| Alt (r1 r2 : regex)
| Star (r : regex).

Definition opt (r : regex) : regex := Alt Eps r.            (* r? *)
Definition plus (r : regex) : regex := Seq r (Star r).      (* r+ *)

(** r{0,n} *)
Fixpoint upto (n : nat) (r : regex) : regex :=
  match n with
  | O => Eps
  | S n' => opt (Seq r (upto n' r))
  end.

Fixpoint nullable (r : regex) : bool :=
  match r with
  | Empty => false
  | Eps => true
  | Class _ => false
  | Seq r1 r2 => nullable r1 && nullable r2
  | Alt r1 r2 => nullable r1 || nullable r2
  | Star _ => true
  end.

Definition seq (r1 r2 : regex) : regex :=
  match r1, r2 with
  | Empty, _ | _, Empty => Empty
  | Eps, _ => r2
  | _, _ => Seq r1 r2
  end.

Definition alt (r1 r2 : regex) : regex :=
  match r1, r2 with
  | Empty, _ => r2
  | _, Empty => r1
  | _, _ => Alt r1 r2
  end.

Fixpoint deriv (c : N) (r : regex) : regex :=
  match r with
  | Empty | Eps => Empty
  | Class p => if p c then Eps else Empty
  | Seq r1 r2 =>
      alt (seq (deriv c r1) r2) (if nullable r1 then deriv c r2 else Empty)
  | Alt r1 r2 => alt (deriv c r1) (deriv c r2)
  | Star r1 => seq (deriv c r1) (Star r1)
  end.

(** [/^r$/.test(s)] *)
Definition matches (r : regex) (s : list N) : bool :=
  nullable (fold_left (λ r c, deriv c r) s r).

(** [/[class]/.test(s)]: some code unit of [s] is in the class. *)
Definition contains_class (p : N → bool) (s : list N) : bool := existsb p s.

Definition range (lo hi : string) (c : N) : bool :=
  match lit lo, lit hi with
  | [a], [b] => (a <=? c) && (c <=? b)
  | _, _ => false
  end.

Definition one_of (chars : string) (c : N) : bool :=
  existsb (N.eqb c) (lit chars).

End Regex.
Import Regex.

(* ===================================================================== *)
(** * The helpers of the worker that work on strings *)
(* ===================================================================== *)

(** [a-zA-Z0-9] *)
Definition alnum (c : N) : bool :=
  range "a" "z" c || range "A" "Z" c || range "0" "9" c.

(** The class of the local part: [a-zA-Z0-9.!#$%&'*+\/=?^_`{|}~-]. *)
Definition local_char (c : N) : bool :=
  alnum c || one_of ".!#$%&'*+/=?^_`{|}~-" c.

(** [a-zA-Z0-9-] *)
Definition alnum_hyphen (c : N) : bool := alnum c || one_of "-" c.

(** One domain label: [[a-zA-Z0-9](?:[a-zA-Z0-9-]{0,61}[a-zA-Z0-9])?]. *)
Definition label : regex :=
  Seq (Class alnum) (opt (Seq (upto 61 (Class alnum_hyphen)) (Class alnum))).

(** The pattern of [isValidEmail], between [^] and [$]. *)
Definition pattern : regex :=
  Seq (plus (Class local_char))
      (Seq (Class (one_of "@"))
           (Seq label (Star (Seq (Class (one_of ".")) label)))).

(** [\r\n\t] *)
Definition cr_lf_tab (c : N) : bool := ((c =? 13) || (c =? 10) || (c =? 9))%N.

Definition isValidEmail (email : list N) : bool :=
  if (str_length email >? 254)%Z || (str_length email <? 3)%Z then false
  else if contains_class cr_lf_tab email then false
  else matches pattern email.

(** The object [map] of [escapeHtml]. *)
Definition escapeHtml_map : list (N * list N) :=
  [ (38%N, lit "&amp;");      (* & *)
    (60%N, lit "&lt;");       (* < *)
    (62%N, lit "&gt;");       (* > *)
    (34%N, lit "&quot;");     (* double quote *)
    (39%N, lit "&#39;") ].    (* single quote *)

(** The class of the replaced characters: ampersand, less-than,
    greater-than, double quote, single quote. *)
Definition html_special (c : N) : bool :=
  ((c =? 38) || (c =? 60) || (c =? 62) || (c =? 34) || (c =? 39))%N.

(** [map[char]]; a missing key would be spliced in as [undefined]. *)
Definition escapeHtml_lookup (char : N) : list N :=
  match List.find (λ kv, (fst kv =? char)%N) escapeHtml_map with
  | Some kv => snd kv
  | None => lit "undefined"
  end.

(** [String(text).replace(/class/g, (char) => map[char])]: every code
    unit of the class is replaced by its entry in [map]. *)
Definition escapeHtml (text : list N) : list N :=
  flat_map (λ char, if html_special char then escapeHtml_lookup char
                    else [char]) text.

(* ===================================================================== *)
(** * JavaScript values *)
(* ===================================================================== *)

(** The values [JSON.parse] can return, and [undefined].  A number is an
    IEEE 754 binary64 value; an object is the list of its own properties
    in insertion order, each key once. *)
#[warnings="-register-all"]
Inductive JsValue :=
| JsUndefined
| JsNull
| JsBool (b : bool)
| JsNumber (x : spec_float)
| JsString (s : list N)
| JsArray (items : list JsValue)
| JsObject (props : list (list N * JsValue)).

(** [ToBoolean]. *)
Definition truthy (v : JsValue) : bool :=
  match v with
  | JsUndefined | JsNull => false
  | JsBool b => b
  | JsNumber (S754_zero _) | JsNumber S754_nan => false
  | JsNumber _ => true
  | JsString s => nonempty s
  | JsArray _ | JsObject _ => true
  end.

(** [a || b] *)
Definition js_or (a b : JsValue) : JsValue := if truthy a then a else b.

Definition own_property (props : list (list N * JsValue)) (key : list N)
  : option JsValue :=
  snd <$> List.find (λ kv, bool_decide (fst kv = key)) props.

(** [o.key] for the property names the handler reads ([name], [email],
    [message], [turnstileToken], [success], [hostname]).  [None] is the
    [TypeError] thrown on [null] and [undefined].  None of these names is
    defined on the prototypes of objects, arrays, strings, numbers or
    booleans, so only an own property of an object gives a value. *)
Definition get_prop (o : JsValue) (key : list N) : option JsValue :=
  match o with
  | JsUndefined | JsNull => None
  | JsObject props => Some (default JsUndefined (own_property props key))
  | JsBool _ | JsNumber _ | JsString _ | JsArray _ => Some JsUndefined
  end.

(** [o?.key] *)
Definition get_prop_optional (o : JsValue) (key : list N) : JsValue :=
  default JsUndefined (get_prop o key).

(** [v.trim()]: the string method on a string; on anything else [trim]
    is not a function and the call throws ([None]).  An object coming
    from [JSON.parse] has no callable property. *)
Definition call_trim (v : JsValue) : option (list N) :=
  match v with
  | JsString s => Some (trim s)
  | _ => None
  end.

(* ===================================================================== *)
(** * A JSON parser *)
(* ===================================================================== *)

(** [JSON.parse] belongs to the runtime, and the handler is verified
    against any parser (see [World]).  This one follows the JSON grammar
    of ECMA-404 and is what the concrete runs below are evaluated with. *)
Module Json.

Local Open Scope N_scope.

Definition is_ws (c : N) : bool :=
  (c =? 0x20) || (c =? 0x09) || (c =? 0x0A) || (c =? 0x0D).

Fixpoint skip_ws (s : list N) : list N :=
  match s with
  | c :: s' => if is_ws c then skip_ws s' else s
  | [] => []
  end.

Definition is_digit (c : N) : bool := (48 <=? c) && (c <=? 57).

Fixpoint span_digits (s : list N) : list N * list N :=
  match s with
  | c :: s' =>
      if is_digit c then let '(ds, rest) := span_digits s' in (c :: ds, rest)
      else ([], s)
  | [] => ([], [])
  end.

Definition digits_value (ds : list N) : Z :=
  fold_left (λ acc d, acc * 10 + Z.of_N (d - 48))%Z ds 0%Z.

Definition hex4 (a b c d : N) : option N :=
  match digit_value a, digit_value b, digit_value c, digit_value d with
  | Some x, Some y, Some z, Some w =>
      if ((x <? 16) && (y <? 16) && (z <? 16) && (w <? 16))%Z
      then Some (Z.to_N (((x * 16 + y) * 16 + z) * 16 + w))
      else None
  | _, _, _, _ => None
  end.

(** The rest of a string literal, after its opening quote: the code units
    it denotes and what follows the closing quote. *)
Fixpoint string_body (s : list N) (acc : list N) : option (list N * list N) :=
  match s with
  | [] => None
  | 34 :: rest => Some (rev acc, rest)
  | 92 :: e :: rest =>
      match e with
      | 34 | 92 | 47 => string_body rest (e :: acc)
      | 98 => string_body rest (8 :: acc)
      | 102 => string_body rest (12 :: acc)
      | 110 => string_body rest (10 :: acc)
      | 114 => string_body rest (13 :: acc)
      | 116 => string_body rest (9 :: acc)
      | 117 =>
          match rest with
          | a :: b :: c :: d :: rest' =>
              match hex4 a b c d with
              | Some u => string_body rest' (u :: acc)
              | None => None
              end
          | _ => None
          end
      | _ => None
      end
  | c :: rest => if c <? 0x20 then None else string_body rest (c :: acc)
  end.

(** The binary64 value nearest to [m * 10^e] (ties to even), with the
    sign [neg].  For a negative exponent the quotient is first cut to at
    least 64 bits, the lowest one recording whether anything was lost, so
    that the final rounding sees on which side of a tie it stands. *)
Definition decimal_to_binary64 (neg : bool) (m : Z) (e : Z) : spec_float :=
  let signed (z : Z) := if neg then (- z)%Z else z in
  if (m =? 0)%Z then S754_zero neg
  else if (0 <=? e)%Z then binary_normalize 53 1024 (signed (m * 10 ^ e)%Z) 0 neg
  else
    let d := (10 ^ (- e))%Z in
    let s := Z.max 0 (64 + Z.log2 d - Z.log2 m)%Z in
    let q := (m * 2 ^ s / d)%Z in
    let sticky := if (m * 2 ^ s mod d =? 0)%Z then 0%Z else 1%Z in
    binary_normalize 53 1024 (signed (2 * q + sticky)%Z) (- s - 1)%Z neg.

(** A number literal: [-? int frac? exp?]. *)
Definition number (s : list N) : option (spec_float * list N) :=
  let '(neg, s) := match s with 45 :: r => (true, r) | _ => (false, s) end in
  let '(int, s) := span_digits s in
  match int with
  | [] => None
  | 48 :: _ :: _ => None
  | _ =>
      let frac_part :=
        match s with
        | 46 :: r =>
            let '(ds, r') := span_digits r in
            match ds with [] => None | _ => Some (ds, r') end
        | _ => Some ([], s)
        end in
      '(frac, s) ← frac_part;
      let exp_part :=
        match s with
        | 101 :: r | 69 :: r =>
            let '(eneg, r) :=
              match r with
              | 45 :: r' => (true, r')
              | 43 :: r' => (false, r')
              | _ => (false, r)
              end in
            let '(ds, r') := span_digits r in
            match ds with
            | [] => None
            | _ => Some (if eneg then (- digits_value ds)%Z else digits_value ds, r')
            end
        | _ => Some (0%Z, s)
        end in
      '(exp, s) ← exp_part;
      Some (decimal_to_binary64 neg (digits_value (int ++ frac))
              (exp - Z.of_nat (length frac))%Z, s)
  end.

(** Defining a property: a repeated key keeps its place and takes the
    later value. *)
Fixpoint set_prop (props : list (list N * JsValue)) (key : list N) (v : JsValue)
  : list (list N * JsValue) :=
  match props with
  | [] => [(key, v)]
  | (k, w) :: props' =>
      if bool_decide (k = key) then (k, v) :: props'
      else (k, w) :: set_prop props' key v
  end.

Definition keyword (word : string) (v : JsValue) (s : list N)
  : option (JsValue * list N) :=
  if starts_with (lit word) s then Some (v, drop (length (lit word)) s) else None.

Fixpoint value (fuel : nat) (s : list N) : option (JsValue * list N) :=
  match fuel with
  | O => None
  | S fuel' =>
      match skip_ws s with
      | 123 :: rest =>
          match skip_ws rest with
          | 125 :: rest' => Some (JsObject [], rest')
          | _ => members fuel' rest []
          end
      | 91 :: rest =>
          match skip_ws rest with
          | 93 :: rest' => Some (JsArray [], rest')
          | _ => elements fuel' rest []
          end
      | 34 :: rest =>
          '(str, rest') ← string_body rest []; Some (JsString str, rest')
      | (116 :: _) as s' => keyword "true" (JsBool true) s'
      | (102 :: _) as s' => keyword "false" (JsBool false) s'
      | (110 :: _) as s' => keyword "null" JsNull s'
      | s' => '(x, rest) ← number s'; Some (JsNumber x, rest)
      end
  end
with elements (fuel : nat) (s : list N) (acc : list JsValue)
  : option (JsValue * list N) :=
  match fuel with
  | O => None
  | S fuel' =>
      '(v, rest) ← value fuel' s;
      match skip_ws rest with
      | 44 :: rest' => elements fuel' rest' (v :: acc)
      | 93 :: rest' => Some (JsArray (rev (v :: acc)), rest')
      | _ => None
      end
  end
with members (fuel : nat) (s : list N) (acc : list (list N * JsValue))
  : option (JsValue * list N) :=
  match fuel with
  | O => None
  | S fuel' =>
      match skip_ws s with
      | 34 :: rest =>
          '(key, rest) ← string_body rest [];
          match skip_ws rest with
          | 58 :: rest =>
              '(v, rest) ← value fuel' rest;
              match skip_ws rest with
              | 44 :: rest' => members fuel' rest' (set_prop acc key v)
              | 125 :: rest' => Some (JsObject (set_prop acc key v), rest')
              | _ => None
              end
          | _ => None
          end
      | _ => None
      end
  end.

(** [JSON.parse(text)]; [None] is the [SyntaxError]. *)
Definition parse (text : list N) : option JsValue :=
  '(v, rest) ← value (2 * length text + 2) text;
  match skip_ws rest with
  | [] => Some v
  | _ :: _ => None
  end.

(** [JSON.stringify] of a string without lone surrogates: quotes,
    backslashes and control characters are escaped. *)
Definition hex_digit (n : N) : N := if n <? 10 then 48 + n else 97 + (n - 10).

Definition quote_unit (c : N) : list N :=
  if c =? 34 then [92; 34]
  else if c =? 92 then [92; 92]
  else if c =? 8 then [92; 98]
  else if c =? 12 then [92; 102]
  else if c =? 10 then [92; 110]
  else if c =? 13 then [92; 114]
  else if c =? 9 then [92; 116]
  else if c <? 0x20 then [92; 117; 48; 48; hex_digit (c / 16); hex_digit (c mod 16)]
  else [c].

Definition quote (s : list N) : list N := [34] ++ flat_map quote_unit s ++ [34].

(** [JSON.stringify] of an object with one property whose value is a
    string, the only shape the handler serialises. *)
Definition stringify_singleton (key val : list N) : list N :=
  [123] ++ quote key ++ [58] ++ quote val ++ [125].

End Json.

(* ===================================================================== *)
(** * Requests, responses and the world around the worker *)
(* ===================================================================== *)

Record Request := {
  method : list N;
  headers_get : list N → option (list N);   (* request.headers.get(name) *)
  body : list Byte.byte;
}.

(** [env]: the secrets and variables are strings or absent; the KV
    namespace is bound or not (its content is in [State]). *)
Record Env := {
  TURNSTILE_SECRET_KEY : option (list N);
  AWS_ACCESS_KEY_ID : option (list N);
  AWS_SECRET_ACCESS_KEY : option (list N);
  AWS_REGION : option (list N);
  RATE_LIMITER : bool;
}.

Record Response := {
  status : Z;
  headers : gmap (list N) (list N);
  response_body : option (list N);
}.

Record KvEntry := {
  kv_value : list N;
  expirationTtl : Z;
}.

Record SESClientConfig := {
  region : list N;
  accessKeyId : list N;
  secretAccessKey : list N;
}.

Record SendEmailParams := {
  Source : list N;
  ToAddresses : list (list N);
  Subject : list N;
  Text : list N;
  Html : list N;
  ReplyToAddresses : list (list N);
}.

(** The reply of the siteverify endpoint: [response.ok] and the text
    that [response.json()] parses. *)
Record HttpReply := {
  ok : bool;
  reply_text : list N;
}.

(** What the handler asks of the outside, in the order it asks. *)
Inductive Event :=
| EvKvGet (key : list N)
| EvText
| EvJsonParse (raw : list N)
| EvSiteverify (formData : list (list N * list N))
| EvSesSend (client : SESClientConfig) (params : SendEmailParams)
| EvKvPut (key value : list N) (ttl : Z).

(** The answers of the outside during one request. *)
Record World := {
  JSON_parse : list N → option JsValue;          (* None: SyntaxError *)
  toISOString_now : list N;                       (* new Date().toISOString() *)
  kv_get_rejects : bool;
  kv_put_rejects : bool;
  siteverify : list (list N * list N) → option HttpReply;  (* None: fetch rejects *)
  ses_send : SESClientConfig → SendEmailParams → bool;     (* false: send rejects *)
}.

Record State := {
  store : gmap (list N) KvEntry;    (* the RATE_LIMITER namespace *)
  log : list Event;
}.

(* ===================================================================== *)
(** * The monad of the handler *)
(* ===================================================================== *)

(** A statement either goes on with a value, or leaves the function with
    a response ([return]), or throws. *)
Inductive Step (A : Type) :=
| Next (a : A)
| Return (r : Response)
| Throw.
Arguments Next {A} a.
Arguments Return {A} r.
Arguments Throw {A}.

Definition M (A : Type) : Type := State → Step A * State.

#[export] Instance M_ret : MRet M := λ A a st, (Next a, st).

#[export] Instance M_bind : MBind M := λ A B f m st,
  match m st with
  | (Next a, st') => f a st'
  | (Return r, st') => (Return r, st')
  | (Throw, st') => (Throw, st')
  end.

Definition return_ {A} (r : Response) : M A := λ st, (Return r, st).
Definition throw {A} : M A := λ st, (Throw, st).

Definition when_ (c : bool) (m : M unit) : M unit := if c then m else mret tt.

Definition emit (e : Event) : M unit :=
  λ st, (Next tt, {| store := store st; log := log st ++ [e] |}).

(** [try { m } catch { return r }], at the end of the function. *)
Definition try_catch (m : M Response) (r : Response) : State → Response * State :=
  λ st, match m st with
        | (Next r', st') | (Return r', st') => (r', st')
        | (Throw, st') => (r, st')
        end.

(** [await env.RATE_LIMITER.get(key)] *)
Definition kv_get (w : World) (key : list N) : M (option (list N)) :=
  emit (EvKvGet key);;
  if kv_get_rejects w then throw
  else λ st, (Next (kv_value <$> store st !! key), st).

(** [await env.RATE_LIMITER.put(key, value, { expirationTtl: ttl })] *)
Definition kv_put (w : World) (key value : list N) (ttl : Z) : M unit :=
  emit (EvKvPut key value ttl);;
  if kv_put_rejects w then throw
  else λ st,
    (Next tt,
     {| store := <[key := {| kv_value := value; expirationTtl := ttl |}]> (store st);
        log := log st |}).

(** [await request.text()] *)
Definition request_text (request : Request) : M (list N) :=
  emit EvText;; mret (Utf8.decode (body request)).

(** [JSON.parse(raw)], the exception caught: [None] is the catch branch. *)
Definition json_parse (w : World) (raw : list N) : M (option JsValue) :=
  emit (EvJsonParse raw);; mret (JSON_parse w raw).

(** [await sesClient.send(new SendEmailCommand(params))] *)
Definition sesClient_send (w : World) (client : SESClientConfig)
    (params : SendEmailParams) : M unit :=
  emit (EvSesSend client params);;
  if ses_send w client params then mret tt else throw.

(** A value whose evaluation may throw. *)
Definition or_throw {A} (o : option A) : M A :=
  match o with Some a => mret a | None => throw end.

(* ===================================================================== *)
(** * The worker *)
(* ===================================================================== *)

Definition ALLOWED_ORIGINS : gset (list N) :=
  {[ lit "https://raduhhr.xyz";
     lit "https://www.raduhhr.xyz";
     lit "https://cf-form-page.pages.dev" ]}.

Definition ALLOWED_TURNSTILE_HOSTNAMES : gset (list N) :=
  {[ lit "raduhhr.xyz";
     lit "www.raduhhr.xyz";
     lit "cf-form-page.pages.dev" ]}.

Definition MAX_BODY_BYTES : Z := 10000.
Definition RATE_LIMIT_MAX : Z := 5.
Definition RATE_LIMIT_WINDOW : Z := 3600.

(** [set.has(x)] for a string [x]. *)
Definition has (set : gset (list N)) (x : list N) : bool := bool_decide (x ∈ set).

(** [set.has(v)] for any value: only a string can be a member. *)
Definition has_value (set : gset (list N)) (v : JsValue) : bool :=
  match v with
  | JsString s => has set s
  | _ => false
  end.

(** The object spread of two header objects: the later one wins. *)
Definition spread (a b : gmap (list N) (list N)) : gmap (list N) (list N) := b ∪ a.

Definition buildCorsHeaders (origin : list N) : gmap (list N) (list N) :=
  let headers : gmap (list N) (list N) :=
    {[ lit "Access-Control-Allow-Methods" := lit "POST, OPTIONS";
       lit "Access-Control-Allow-Headers" := lit "Content-Type";
       lit "Access-Control-Max-Age" := lit "86400";
       lit "Vary" := lit "Origin" ]} in
  if nonempty origin && has ALLOWED_ORIGINS origin
  then <[ lit "Access-Control-Allow-Origin" := origin ]> headers
  else headers.

Definition buildSecurityHeaders : gmap (list N) (list N) :=
  {[ lit "X-Content-Type-Options" := lit "nosniff";
     lit "X-Frame-Options" := lit "DENY";
     lit "X-XSS-Protection" := lit "1; mode=block";
     lit "Referrer-Policy" := lit "strict-origin-when-cross-origin";
     lit "Content-Security-Policy" := lit "default-src 'none'; frame-ancestors 'none';" ]}.

(** [json(obj, status, extraHeaders)]; [obj] is an object with a single
    string property, given as the pair of its key and its value. *)
Definition json (obj : list N * list N) (status : Z)
    (extraHeaders : gmap (list N) (list N)) : Response :=
  {| status := status;
     headers := spread {[ lit "Content-Type" := lit "application/json; charset=utf-8" ]}
                       extraHeaders;
     response_body := Some (Json.stringify_singleton (fst obj) (snd obj)) |}.

Definition error (msg : string) : list N * list N := (lit "error", lit msg).
Definition success (msg : string) : list N * list N := (lit "success", lit msg).

(** The object [{ success: false }] that [validateTurnstileToken] returns
    when the call failed. *)
Definition success_false : JsValue := JsObject [(lit "success", JsBool false)].

(** The form that [validateTurnstileToken] posts. *)
Definition formData_of (token secretKey remoteip : list N) : list (list N * list N) :=
  [(lit "secret", secretKey); (lit "response", token)]
  ++ (if nonempty remoteip && negb (bool_decide (remoteip = lit "unknown"))
      then [(lit "remoteip", remoteip)] else []).

(** What [validateTurnstileToken] returns for the reply it got: the
    parsed reply, or [{ success: false }] when the call rejected, the
    status was not ok, or the reply was not JSON. *)
Definition siteverify_result (w : World) (formData : list (list N * list N)) : JsValue :=
  match siteverify w formData with
  | None => success_false
  | Some response =>
      if negb (ok response) then success_false
      else default success_false (JSON_parse w (reply_text response))
  end.

Definition validateTurnstileToken (w : World) (token secretKey remoteip : list N)
  : M JsValue :=
  let formData := formData_of token secretKey remoteip in
  emit (EvSiteverify formData);;
  mret (siteverify_result w formData).

(** [!env.X] for a secret or variable. *)
Definition missing (x : option (list N)) : bool := negb (nonempty (or_else x [])).

(** The plain-text body of the mail. *)
Definition text_body (name email message now ip ua : list N) : list N :=
  lit "New submission from: " ++ name ++ [10%N]
  ++ lit "Email: " ++ email ++ [10%N]
  ++ lit "Message: " ++ message ++ [10%N; 10%N]
  ++ lit "---" ++ [10%N]
  ++ lit "Timestamp: " ++ now ++ [10%N]
  ++ lit "IP: " ++ ip ++ [10%N]
  ++ lit "User Agent: " ++ ua ++ [10%N].

(** The HTML body of the mail. *)
Definition html_body (name email message now ip ua : list N) : list N :=
  lit "<h3>New Contact Submission</h3>"
  ++ lit "<p><strong>Name:</strong> " ++ escapeHtml name ++ lit "</p>"
  ++ lit "<p><strong>Email:</strong> " ++ escapeHtml email ++ lit "</p>"
  ++ lit "<p><strong>Message:</strong></p>"
  ++ litq "<pre style='white-space:pre-wrap;font-family:ui-monospace,Menlo,Consolas,monospace;padding:12px;background:#f6f8fa;border:1px solid #d0d7de;border-radius:6px;'>"
  ++ escapeHtml message ++ lit "</pre>"
  ++ litq "<hr style='margin:20px 0;border:none;border-top:1px solid #d0d7de;'/>"
  ++ litq "<p style='font-size:12px;color:#57606a;'>"
  ++ lit "<strong>Timestamp:</strong> " ++ escapeHtml now ++ lit "<br/>"
  ++ lit "<strong>IP:</strong> " ++ escapeHtml ip ++ lit "<br/>"
  ++ lit "<strong>User Agent:</strong> " ++ escapeHtml ua
  ++ lit "</p>".

(** The object [params] of the [SendEmailCommand]. *)
Definition params_of (name email message now ip ua : list N) : SendEmailParams :=
  {| Source := lit "raduhrr@gmail.com";
     ToAddresses := [lit "vladdulgher@yahoo.com"];
     Subject := lit "New Contact Form Submission";
     Text := text_body name email message now ip ua;
     Html := html_body name email message now ip ua;
     ReplyToAddresses := [lit "raduhhr@yahoo.com"] |}.

(** The configuration of the [SESClient]. *)
Definition sesClient_of (env : Env) : SESClientConfig :=
  {| region := or_else (AWS_REGION env) (lit "eu-north-1");
     accessKeyId := or_else (AWS_ACCESS_KEY_ID env) [];
     secretAccessKey := or_else (AWS_SECRET_ACCESS_KEY env) [] |}.

(** [(payload.key || "").trim()]; [None] when the evaluation throws. *)
Definition trimmed_field (payload : JsValue) (key : string) : option (list N) :=
  v ← get_prop payload (lit key);
  call_trim (js_or v (JsString [])).

(** [submissionCount && parseInt(submissionCount) >= RATE_LIMIT_MAX] *)
Definition over_limit (submissionCount : option (list N)) : bool :=
  nonempty (or_else submissionCount [])
  && match parseInt_nullable submissionCount with
     | Some n => (RATE_LIMIT_MAX <=? n)%Z
     | None => false
     end.

(** [(parseInt(submissionCount) || 0) + 1], exact for the safe
    integers. *)
Definition newCount_of (submissionCount : option (list N)) : Z :=
  (match parseInt_nullable submissionCount with
   | Some n => if (n =? 0)%Z then 0 else n
   | None => 0
   end + 1)%Z.

(** The [try] block of [fetch]. *)
Definition fetch_try (w : World) (request : Request) (env : Env)
    (corsHeaders securityHeaders : gmap (list N) (list N)) : M Response :=
  (* Environment sanity checks *)
  when_ (missing (TURNSTILE_SECRET_KEY env)) throw;;
  when_ (missing (AWS_ACCESS_KEY_ID env)) throw;;
  when_ (missing (AWS_SECRET_ACCESS_KEY env)) throw;;
  when_ (negb (RATE_LIMITER env)) throw;;
  let ip := or_else (headers_get request (lit "CF-Connecting-IP")) (lit "unknown") in
  (* Rate limiting *)
  let rateLimitKey := lit "ratelimit:" ++ ip in
  submissionCount ← kv_get w rateLimitKey;
  when_ (over_limit submissionCount)
    (return_ (json (error "Rate limit exceeded. Please try again in an hour.") 429
                (spread corsHeaders securityHeaders)));;
  (* Body size guard + JSON parse *)
  raw ← request_text request;
  when_ (str_length raw >? MAX_BODY_BYTES)%Z
    (return_ (json (error "Payload too large") 413
                (spread corsHeaders securityHeaders)));;
  parsed ← json_parse w raw;
  payload ← match parsed with
            | Some payload => mret payload
            | None => return_ (json (error "Invalid JSON") 400
                                 (spread corsHeaders securityHeaders))
            end;
  (* Extract and trim fields *)
  name ← or_throw (trimmed_field payload "name");
  email ← or_throw (trimmed_field payload "email");
  message ← or_throw (trimmed_field payload "message");
  turnstileToken ← or_throw (trimmed_field payload "turnstileToken");
  (* Required fields check *)
  when_ (negb (nonempty name) || negb (nonempty email) || negb (nonempty message)
         || negb (nonempty turnstileToken))
    (return_ (json (error "All fields are required") 400
                (spread corsHeaders securityHeaders)));;
  (* Field validation *)
  when_ ((str_length name <? 2)%Z || (str_length name >? 100)%Z)
    (return_ (json (error "Name must be between 2 and 100 characters") 400
                (spread corsHeaders securityHeaders)));;
  when_ (negb (isValidEmail email))
    (return_ (json (error "Invalid email address") 400
                (spread corsHeaders securityHeaders)));;
  when_ ((str_length message <? 10)%Z || (str_length message >? 2000)%Z)
    (return_ (json (error "Message must be between 10 and 2000 characters") 400
                (spread corsHeaders securityHeaders)));;
  (* Turnstile verification *)
  turnstile ← validateTurnstileToken w turnstileToken
                 (or_else (TURNSTILE_SECRET_KEY env) []) ip;
  when_ (negb (truthy (get_prop_optional turnstile (lit "success"))))
    (return_ (json (error "Security verification failed") 400
                (spread corsHeaders securityHeaders)));;
  hostname ← or_throw (get_prop turnstile (lit "hostname"));
  let verifiedHostname := js_or hostname (JsString []) in
  when_ (negb (has_value ALLOWED_TURNSTILE_HOSTNAMES verifiedHostname))
    (return_ (json (error "Invalid verification context") 400
                (spread corsHeaders securityHeaders)));;
  (* Send email via SES *)
  let sesClient := sesClient_of env in
  let now := toISOString_now w in
  let ua := or_else (headers_get request (lit "User-Agent")) (lit "Unknown") in
  let params := params_of name email message now ip ua in
  sesClient_send w sesClient params;;
  (* Increment rate limit counter after successful send *)
  let newCount := newCount_of submissionCount in
  kv_put w rateLimitKey (String_of_Z newCount) RATE_LIMIT_WINDOW;;
  mret (json (success "Email sent successfully!") 200
          (spread corsHeaders securityHeaders)).

(** [fetch(request, env)] *)
Definition fetch (w : World) (request : Request) (env : Env)
  : State → Response * State :=
  let origin := or_else (headers_get request (lit "Origin")) [] in
  (* Enforce origin allowlist for browser requests *)
  if nonempty origin && negb (has ALLOWED_ORIGINS origin) then
    λ st, (json (error "Forbidden origin") 403 ∅, st)
  else
    let corsHeaders := buildCorsHeaders origin in
    let securityHeaders := buildSecurityHeaders in
    (* Preflight *)
    if bool_decide (method request = lit "OPTIONS") then
      if nonempty origin && negb (has ALLOWED_ORIGINS origin) then
        λ st, ({| status := 403; headers := ∅; response_body := None |}, st)
      else
        λ st, ({| status := 204; headers := spread corsHeaders securityHeaders;
                  response_body := None |}, st)
    else if negb (bool_decide (method request = lit "POST")) then
      λ st, (json (error "Method Not Allowed") 405
               (spread corsHeaders securityHeaders), st)
    else
      try_catch (fetch_try w request env corsHeaders securityHeaders)
        (* Generic error response - don't leak internals *)
        (json (error "Failed to send email. Please try again later.") 500
           (spread corsHeaders securityHeaders)).

(* ===================================================================== *)
(** * Vocabulary of the statements *)
(* ===================================================================== *)

(** One request served on the namespace [kv], the log starting empty: the
    response, the events in order, and the namespace afterwards. *)
Definition run (w : World) (request : Request) (env : Env)
    (kv : gmap (list N) KvEntry) : Response * State :=
  fetch w request env {| store := kv; log := [] |}.

Definition response_of (w : World) (request : Request) (env : Env)
    (kv : gmap (list N) KvEntry) : Response :=
  fst (run w request env kv).

Definition events_of (w : World) (request : Request) (env : Env)
    (kv : gmap (list N) KvEntry) : list Event :=
  log (snd (run w request env kv)).

Definition store_after (w : World) (request : Request) (env : Env)
    (kv : gmap (list N) KvEntry) : gmap (list N) KvEntry :=
  store (snd (run w request env kv)).

Definition is_send (e : Event) : bool :=
  match e with EvSesSend _ _ => true | _ => false end.
Definition is_put (e : Event) : bool :=
  match e with EvKvPut _ _ _ => true | _ => false end.
Definition is_text (e : Event) : bool :=
  match e with EvText => true | _ => false end.
Definition is_parse (e : Event) : bool :=
  match e with EvJsonParse _ => true | _ => false end.
Definition is_siteverify (e : Event) : bool :=
  match e with EvSiteverify _ => true | _ => false end.
Definition is_get (e : Event) : bool :=
  match e with EvKvGet _ => true | _ => false end.

(** How many events of a kind a log holds. *)
Definition count (kind : Event → bool) (events : list Event) : nat :=
  length (List.filter kind events).

(** The body of an error response. *)
Definition error_body (msg : string) : option (list N) :=
  Some (litq "{'error':'" ++ lit msg ++ litq "'}").

(** The [Origin] header as the handler reads it, and the gate on it. *)
Definition origin_of (request : Request) : list N :=
  or_else (headers_get request (lit "Origin")) [].

Definition origin_allowed (request : Request) : Prop :=
  origin_of request ∈ ALLOWED_ORIGINS.

Definition origin_permitted (request : Request) : Prop :=
  origin_of request = [] ∨ origin_allowed request.

(** All four bindings that the handler checks are there. *)
Definition configured (env : Env) : Prop :=
  missing (TURNSTILE_SECRET_KEY env) = false
  ∧ missing (AWS_ACCESS_KEY_ID env) = false
  ∧ missing (AWS_SECRET_ACCESS_KEY env) = false
  ∧ RATE_LIMITER env = true.

(** The client identity and its key in the namespace. *)
Definition client_ip (request : Request) : list N :=
  or_else (headers_get request (lit "CF-Connecting-IP")) (lit "unknown").

Definition rate_key (request : Request) : list N :=
  lit "ratelimit:" ++ client_ip request.

Definition user_agent (request : Request) : list N :=
  or_else (headers_get request (lit "User-Agent")) (lit "Unknown").

(** What [RATE_LIMITER.get] returns for the client. *)
Definition submissionCount_of (kv : gmap (list N) KvEntry) (request : Request)
  : option (list N) :=
  kv_value <$> kv !! rate_key request.

(** The count the handler reads for the client: the stored string as an
    integer, and 0 when there is none or it is not a number. *)
Definition stored_count (kv : gmap (list N) KvEntry) (request : Request) : Z :=
  default 0%Z (parseInt_nullable (submissionCount_of kv request)).

(** The text of the body. *)
Definition raw_of (request : Request) : list N := Utf8.decode (body request).

(** The headers added to every response built after the origin gate. *)
Definition extra_headers (request : Request) : gmap (list N) (list N) :=
  spread (buildCorsHeaders (origin_of request)) buildSecurityHeaders.

Definition error_response (request : Request) (msg : string) (status : Z) : Response :=
  json (error msg) status (extra_headers request).

(** The four trimmed fields of a submission. *)
Record Fields := {
  f_name : list N;
  f_email : list N;
  f_message : list N;
  f_turnstileToken : list N;
}.

Definition fields_of (payload : JsValue) : option Fields :=
  name ← trimmed_field payload "name";
  email ← trimmed_field payload "email";
  message ← trimmed_field payload "message";
  turnstileToken ← trimmed_field payload "turnstileToken";
  Some {| f_name := name; f_email := email; f_message := message;
          f_turnstileToken := turnstileToken |}.

Definition all_present (f : Fields) : bool :=
  nonempty (f_name f) && nonempty (f_email f) && nonempty (f_message f)
  && nonempty (f_turnstileToken f).

Definition name_ok (f : Fields) : bool :=
  (2 <=? str_length (f_name f))%Z && (str_length (f_name f) <=? 100)%Z.

Definition message_ok (f : Fields) : bool :=
  (10 <=? str_length (f_message f))%Z && (str_length (f_message f) <=? 2000)%Z.

Definition formData_for (request : Request) (env : Env) (f : Fields)
  : list (list N * list N) :=
  formData_of (f_turnstileToken f) (or_else (TURNSTILE_SECRET_KEY env) [])
    (client_ip request).

(** What the verification of the submission's token comes back with. *)
Definition turnstile_of (w : World) (request : Request) (env : Env) (f : Fields)
  : JsValue :=
  siteverify_result w (formData_for request env f).

(** [turnstile.hostname || ""] *)
Definition verifiedHostname_of (turnstile : JsValue) : JsValue :=
  js_or (default JsUndefined (get_prop turnstile (lit "hostname"))) (JsString []).

Definition verified (turnstile : JsValue) : bool :=
  truthy (get_prop_optional turnstile (lit "success")).

Definition mail_of (w : World) (request : Request) (f : Fields) : SendEmailParams :=
  params_of (f_name f) (f_email f) (f_message f) (toISOString_now w)
    (client_ip request) (user_agent request).

(** ** How far a request gets

    Each predicate says that the request passed every check before a
    given step of the pipeline. *)

Definition reaches_try (request : Request) : Prop :=
  origin_permitted request ∧ method request = lit "POST".

Definition reaches_rate_check (request : Request) (env : Env) : Prop :=
  reaches_try request ∧ configured env.

Definition reaches_body (w : World) (request : Request) (env : Env)
    (kv : gmap (list N) KvEntry) : Prop :=
  reaches_rate_check request env
  ∧ kv_get_rejects w = false
  ∧ over_limit (submissionCount_of kv request) = false.

Definition reaches_parse (w : World) (request : Request) (env : Env)
    (kv : gmap (list N) KvEntry) : Prop :=
  reaches_body w request env kv
  ∧ (str_length (raw_of request) <= MAX_BODY_BYTES)%Z.

Definition reaches_fields (w : World) (request : Request) (env : Env)
    (kv : gmap (list N) KvEntry) (payload : JsValue) : Prop :=
  reaches_parse w request env kv
  ∧ JSON_parse w (raw_of request) = Some payload.

Definition reaches_validation (w : World) (request : Request) (env : Env)
    (kv : gmap (list N) KvEntry) (f : Fields) : Prop :=
  (∃ payload, reaches_fields w request env kv payload
              ∧ fields_of payload = Some f)
  ∧ all_present f = true.

Definition reaches_verification (w : World) (request : Request) (env : Env)
    (kv : gmap (list N) KvEntry) (f : Fields) : Prop :=
  reaches_validation w request env kv f
  ∧ name_ok f = true ∧ isValidEmail (f_email f) = true ∧ message_ok f = true.

Definition reaches_dispatch (w : World) (request : Request) (env : Env)
    (kv : gmap (list N) KvEntry) (f : Fields) : Prop :=
  reaches_verification w request env kv f
  ∧ verified (turnstile_of w request env f) = true
  ∧ has_value ALLOWED_TURNSTILE_HOSTNAMES
      (verifiedHostname_of (turnstile_of w request env f)) = true.

(** The events up to each step. *)
Definition events_read (request : Request) : list Event :=
  [EvKvGet (rate_key request)].

Definition events_parsed (request : Request) : list Event :=
  [EvKvGet (rate_key request); EvText; EvJsonParse (raw_of request)].

Definition events_verified (request : Request) (env : Env) (f : Fields) : list Event :=
  events_parsed request ++ [EvSiteverify (formData_for request env f)].

Definition events_sent (w : World) (request : Request) (env : Env) (f : Fields)
  : list Event :=
  events_verified request env f ++ [EvSesSend (sesClient_of env) (mail_of w request f)].

Definition put_of (kv : gmap (list N) KvEntry) (request : Request) : Event :=
  EvKvPut (rate_key request)
    (String_of_Z (newCount_of (submissionCount_of kv request))) RATE_LIMIT_WINDOW.

Definition generic_failure : string := "Failed to send email. Please try again later.".

(** ** The exits of the handler

    [Exit w request env kv r events kv'] lists the eighteen ways [fetch]
    ends: under which conditions, with which response [r], after which
    [events], leaving which namespace [kv'].  [fetch_exit] below shows
    that every run is one of them. *)
Inductive Exit (w : World) (request : Request) (env : Env)
    (kv : gmap (list N) KvEntry)
  : Response → list Event → gmap (list N) KvEntry → Prop :=
| exit_forbidden_origin :
    ¬ origin_permitted request →
    Exit w request env kv (json (error "Forbidden origin") 403 ∅) [] kv
| exit_preflight :
    origin_permitted request →
    method request = lit "OPTIONS" →
    Exit w request env kv
      {| status := 204; headers := extra_headers request; response_body := None |}
      [] kv
| exit_method_not_allowed :
    origin_permitted request →
    method request ≠ lit "OPTIONS" →
    method request ≠ lit "POST" →
    Exit w request env kv (error_response request "Method Not Allowed" 405) [] kv
| exit_not_configured :
    reaches_try request →
    ¬ configured env →
    Exit w request env kv (error_response request generic_failure 500) [] kv
| exit_get_rejected :
    reaches_rate_check request env →
    kv_get_rejects w = true →
    Exit w request env kv (error_response request generic_failure 500)
      (events_read request) kv
| exit_rate_limited :
    reaches_rate_check request env →
    kv_get_rejects w = false →
    over_limit (submissionCount_of kv request) = true →
    Exit w request env kv
      (error_response request "Rate limit exceeded. Please try again in an hour." 429)
      (events_read request) kv
| exit_too_large :
    reaches_body w request env kv →
    (str_length (raw_of request) > MAX_BODY_BYTES)%Z →
    Exit w request env kv (error_response request "Payload too large" 413)
      [EvKvGet (rate_key request); EvText] kv
| exit_invalid_json :
    reaches_parse w request env kv →
    JSON_parse w (raw_of request) = None →
    Exit w request env kv (error_response request "Invalid JSON" 400)
      (events_parsed request) kv
| exit_field_throws payload :
    reaches_fields w request env kv payload →
    fields_of payload = None →
    Exit w request env kv (error_response request generic_failure 500)
      (events_parsed request) kv
| exit_field_missing payload f :
    reaches_fields w request env kv payload →
    fields_of payload = Some f →
    all_present f = false →
    Exit w request env kv (error_response request "All fields are required" 400)
      (events_parsed request) kv
| exit_bad_name f :
    reaches_validation w request env kv f →
    name_ok f = false →
    Exit w request env kv
      (error_response request "Name must be between 2 and 100 characters" 400)
      (events_parsed request) kv
| exit_bad_email f :
    reaches_validation w request env kv f →
    name_ok f = true →
    isValidEmail (f_email f) = false →
    Exit w request env kv (error_response request "Invalid email address" 400)
      (events_parsed request) kv
| exit_bad_message f :
    reaches_validation w request env kv f →
    name_ok f = true →
    isValidEmail (f_email f) = true →
    message_ok f = false →
    Exit w request env kv
      (error_response request "Message must be between 10 and 2000 characters" 400)
      (events_parsed request) kv
| exit_not_verified f :
    reaches_verification w request env kv f →
    verified (turnstile_of w request env f) = false →
    Exit w request env kv (error_response request "Security verification failed" 400)
      (events_verified request env f) kv
| exit_bad_hostname f :
    reaches_verification w request env kv f →
    verified (turnstile_of w request env f) = true →
    has_value ALLOWED_TURNSTILE_HOSTNAMES
      (verifiedHostname_of (turnstile_of w request env f)) = false →
    Exit w request env kv (error_response request "Invalid verification context" 400)
      (events_verified request env f) kv
| exit_send_rejected f :
    reaches_dispatch w request env kv f →
    ses_send w (sesClient_of env) (mail_of w request f) = false →
    Exit w request env kv (error_response request generic_failure 500)
      (events_sent w request env f) kv
| exit_put_rejected f :
    reaches_dispatch w request env kv f →
    ses_send w (sesClient_of env) (mail_of w request f) = true →
    kv_put_rejects w = true →
    Exit w request env kv (error_response request generic_failure 500)
      (events_sent w request env f ++ [put_of kv request]) kv
| exit_sent f :
    reaches_dispatch w request env kv f →
    ses_send w (sesClient_of env) (mail_of w request f) = true →
    kv_put_rejects w = false →
    Exit w request env kv
      (json (success "Email sent successfully!") 200 (extra_headers request))
      (events_sent w request env f ++ [put_of kv request])
      (<[ rate_key request :=
            {| kv_value := String_of_Z (newCount_of (submissionCount_of kv request));
               expirationTtl := RATE_LIMIT_WINDOW |} ]> kv).

(** ** Headers of a response *)

Definition carries (r : Response) (name value : string) : Prop :=
  headers r !! lit name = Some (lit value).

(** The CORS headers: the request origin echoed exactly when it is on
    the allow-list, and the four fixed ones. *)
Definition has_cors_headers (request : Request) (r : Response) : Prop :=
  (origin_allowed request
   → headers r !! lit "Access-Control-Allow-Origin" = Some (origin_of request))
  ∧ (¬ origin_allowed request
     → headers r !! lit "Access-Control-Allow-Origin" = None)
  ∧ carries r "Access-Control-Allow-Methods" "POST, OPTIONS"
  ∧ carries r "Access-Control-Allow-Headers" "Content-Type"
  ∧ carries r "Access-Control-Max-Age" "86400"
  ∧ carries r "Vary" "Origin".

Definition has_security_headers (r : Response) : Prop :=
  carries r "X-Content-Type-Options" "nosniff"
  ∧ carries r "X-Frame-Options" "DENY"
  ∧ carries r "X-XSS-Protection" "1; mode=block"
  ∧ carries r "Referrer-Policy" "strict-origin-when-cross-origin"
  ∧ carries r "Content-Security-Policy" "default-src 'none'; frame-ancestors 'none';".

(** The bodies a response can have: none (the preflight), the success
    message, or one of the twelve error messages of the source. *)
Definition known_bodies : list (option (list N)) :=
  [ None;
    Some (litq "{'success':'Email sent successfully!'}");
    error_body "Forbidden origin";
    error_body "Method Not Allowed";
    error_body "Rate limit exceeded. Please try again in an hour.";
    error_body "Payload too large";
    error_body "Invalid JSON";
    error_body "All fields are required";
    error_body "Name must be between 2 and 100 characters";
    error_body "Invalid email address";
    error_body "Message must be between 10 and 2000 characters";
    error_body "Security verification failed";
    error_body "Invalid verification context";
    error_body "Failed to send email. Please try again later." ].

(** ** The output of [escapeHtml] *)

(** The five replacement strings. *)
Definition entities : list (list N) :=
  [lit "&amp;"; lit "&lt;"; lit "&gt;"; lit "&quot;"; lit "&#39;"].

(** A code unit that is none of the five characters of HTML syntax. *)
Definition inert (c : N) : Prop :=
  (c ≠ 38 ∧ c ≠ 60 ∧ c ≠ 62 ∧ c ≠ 34 ∧ c ≠ 39)%N.

(** ** Decimal digits *)

Definition decimal_digit (c : N) : Prop := (48 <= c <= 57)%N.

(** The number a run of decimal digits denotes, continuing from [a]. *)
Definition value_from (a : Z) (ds : list N) : Z :=
  fold_left (λ acc d, acc * 10 + Z.of_N (d - 48))%Z ds a.

(** ** Serving the same request again and again

    [resubmit ws request env kv] serves [request] once per world of [ws],
    each run on the namespace the previous one left; it returns the
    response and the events of every run, and the final namespace. *)
Fixpoint resubmit (ws : list World) (request : Request) (env : Env)
    (kv : gmap (list N) KvEntry)
  : list (Response * list Event) * gmap (list N) KvEntry :=
  match ws with
  | [] => ([], kv)
  | w :: ws' =>
      let '(rest, kv') := resubmit ws' request env (store_after w request env kv) in
      ((response_of w request env kv, events_of w request env kv) :: rest, kv')
  end.

(** A response that rejects the request: a status from 400 to 499. *)
Definition rejected (r : Response) : Prop := (400 <= status r < 500)%Z.

(** ** Serving a sequence of requests

    [serve runs env kv] serves the requests of [runs] one after the
    other, each in its own world and on the namespace the previous one
    left; it returns the request, the response and the events of every
    run, and the final namespace. *)
Fixpoint serve (runs : list (World * Request)) (env : Env)
    (kv : gmap (list N) KvEntry)
  : list (Request * Response * list Event) * gmap (list N) KvEntry :=
  match runs with
  | [] => ([], kv)
  | (w, request) :: runs' =>
      let '(rest, kv') := serve runs' env (store_after w request env kv) in
      ((request, response_of w request env kv, events_of w request env kv) :: rest, kv')
  end.

(** The runs of the client [ip] that were answered 200. *)
Definition accepted_of (ip : list N) (answers : list (Request * Response * list Event))
  : list (Request * Response * list Event) :=
  List.filter (λ a, bool_decide (client_ip a.1.1 = ip) && (status a.1.2 =? 200)%Z)
              answers.

(** The kinds of the events of a full run, in the order of the source. *)
Definition pipeline : list (Event → bool) :=
  [is_get; is_text; is_parse; is_siteverify; is_send; is_put].

(** The names of the headers a response can carry. *)
Definition header_names : list string :=
  [ "Content-Type"; "Access-Control-Allow-Origin"; "Access-Control-Allow-Methods";
    "Access-Control-Allow-Headers"; "Access-Control-Max-Age"; "Vary";
    "X-Content-Type-Options"; "X-Frame-Options"; "X-XSS-Protection";
    "Referrer-Policy"; "Content-Security-Policy" ]%string.

(** ** The fields of a payload *)

(** The names of the four fields of a submission. *)
Definition field_names : list string :=
  ["name"; "email"; "message"; "turnstileToken"]%string.

(** The field of a record of trimmed fields by its name. *)
Definition field (f : Fields) (key : string) : list N :=
  if String.eqb key "name" then f_name f
  else if String.eqb key "email" then f_email f
  else if String.eqb key "message" then f_message f
  else f_turnstileToken f.

(** A string made of white space only (the empty string included). *)
Definition blank (s : list N) : bool := forallb is_white_space s.

(** A string that neither starts nor ends with white space. *)
Definition no_outer_space (s : list N) : Prop :=
  (∀ c, head s = Some c → is_white_space c = false)
  ∧ (∀ c, last s = Some c → is_white_space c = false).

(** A value that the handler takes for a missing field: a falsy one, or
    a string of white space. *)
Definition blank_value (v : JsValue) : Prop :=
  truthy v = false ∨ ∃ s, v = JsString s ∧ blank s = true.

(** A payload that is not an object, or an object with none of the four
    fields; [null] is neither, reading a property of it throws. *)
Definition without_fields (payload : JsValue) : Prop :=
  match payload with
  | JsBool _ | JsNumber _ | JsString _ | JsArray _ => True
  | JsObject props =>
      ∀ key, key ∈ field_names → own_property props (lit key) = None
  | JsNull | JsUndefined => False
  end.

(** The characters of HTML markup that [escapeHtml] never writes:
    less-than, greater-than, double quote, single quote. *)
Definition markup (c : N) : bool :=
  ((c =? 60) || (c =? 62) || (c =? 34) || (c =? 39))%N.

(** ** The decoder at work *)

(** The number of UTF-16 code units of a list of code points. *)
Definition units (cps : list N) : nat := length (flat_map Utf8.utf16_units cps).

(** The bytes read so far of the sequence that is open in a decoder
    state. *)
Definition open_bytes (d : Utf8.decoder) : nat :=
  if (Utf8.bytes_needed d =? 0)%N then 0 else S (N.to_nat (Utf8.bytes_seen d)).

(** The states the decoder goes through: no sequence is open, or one of
    2 or 3 bytes, or one of 4 bytes whose code point is on its way to a
    value outside the basic plane. *)
Definition well_formed (d : Utf8.decoder) : Prop :=
  (Utf8.bytes_needed d = 0
   ∨ (Utf8.bytes_seen d < Utf8.bytes_needed d ∧ Utf8.bytes_needed d <= 2)
   ∨ (Utf8.bytes_needed d = 3
      ∧ ((Utf8.bytes_seen d = 0
          ∧ (1 <= Utf8.code_point d
             ∨ (0x90 <= Utf8.lower_boundary d ∧ Utf8.upper_boundary d <= 0xBF)))
         ∨ (Utf8.bytes_seen d = 1 ∧ 0x10 <= Utf8.code_point d)
         ∨ (Utf8.bytes_seen d = 2 ∧ 0x400 <= Utf8.code_point d))))%N.

(** ** The language of a regular expression *)

(** The strings a regular expression matches, as its grammar reads. *)
Inductive lang : regex → list N → Prop :=
| in_eps : lang Eps []
| in_class p c : p c = true → lang (Class p) [c]
| in_seq r1 r2 s1 s2 : lang r1 s1 → lang r2 s2 → lang (Seq r1 r2) (s1 ++ s2)
| in_alt_l r1 r2 s : lang r1 s → lang (Alt r1 r2) s
| in_alt_r r1 r2 s : lang r2 s → lang (Alt r1 r2) s
| in_star_nil r : lang (Star r) []
| in_star_cons r s1 s2 : lang r s1 → lang (Star r) s2 → lang (Star r) (s1 ++ s2).

(** One label of a domain: 1 to 63 letters, digits and hyphens, the
    first and the last of them no hyphen. *)
Definition is_label (l : list N) : Prop :=
  1 <= length l <= 63
  ∧ Forall (λ c, alnum_hyphen c = true) l
  ∧ (∀ c, head l = Some c → alnum c = true)
  ∧ (∀ c, last l = Some c → alnum c = true).

(** Labels joined by dots. *)
Definition join_labels (labels : list (list N)) : list N :=
  match labels with
  | [] => []
  | l :: labels' => l ++ concat (List.map (cons 46%N) labels')
  end.

(** An address: a local part of one or more characters of its class, the
    at sign, and one or more labels joined by dots. *)
Definition is_address (email : list N) : Prop :=
  ∃ local labels,
    email = local ++ [64%N] ++ join_labels labels
    ∧ local ≠ []
    ∧ Forall (λ c, local_char c = true) local
    ∧ labels ≠ []
    ∧ Forall is_label labels.

(* ===================================================================== *)
(** * Concrete requests, environments and worlds *)
(* ===================================================================== *)

(** They are the inputs of the concrete runs in the second half of the
    file. *)
Module Sample.

Local Open Scope string_scope.

(** A [headers.get] that knows the listed headers by their exact names. *)
Definition headers_of (l : list (string * string)) : list N → option (list N) :=
  λ name, (λ kv, lit (snd kv)) <$> List.find (λ kv, bool_decide (lit (fst kv) = name)) l.

Definition env : Env :=
  {| TURNSTILE_SECRET_KEY := Some (lit "turnstile-secret");
     AWS_ACCESS_KEY_ID := Some (lit "AKIAEXAMPLE");
     AWS_SECRET_ACCESS_KEY := Some (lit "aws-secret");
     AWS_REGION := None;
     RATE_LIMITER := true |}.

(** The verifier accepts the token for [raduhhr.xyz], SES and KV work. *)
Definition world : World :=
  {| JSON_parse := Json.parse;
     toISOString_now := lit "2025-01-01T12:00:00.000Z";
     kv_get_rejects := false;
     kv_put_rejects := false;
     siteverify := λ _, Some {| ok := true;
                                reply_text := litq "{'success':true,'hostname':'raduhhr.xyz'}" |};
     ses_send := λ _ _, true |}.

Definition post (origin : string) (body : list Byte.byte) : Request :=
  {| method := lit "POST";
     headers_get := headers_of [("Origin", origin);
                                ("CF-Connecting-IP", "203.0.113.7");
                                ("User-Agent", "Mozilla/5.0")];
     body := body |}.

(** The submission of the scenario in the specification. *)
Definition jo : Request :=
  post "https://raduhhr.xyz"
    (Utf8.bytes_of "{'name':'Jo','email':'jo@example.com','message':'Hello there, this works!','turnstileToken':'tok'}").

(** What its body parses to, and its trimmed fields. *)
Definition jo_payload : JsValue :=
  JsObject [ (lit "name", JsString (lit "Jo"));
             (lit "email", JsString (lit "jo@example.com"));
             (lit "message", JsString (lit "Hello there, this works!"));
             (lit "turnstileToken", JsString (lit "tok")) ].

Definition jo_fields : Fields :=
  {| f_name := lit "Jo";
     f_email := lit "jo@example.com";
     f_message := lit "Hello there, this works!";
     f_turnstileToken := lit "tok" |}.

(** SES rejects the send; everything else as in [world]. *)
Definition world_ses_down : World :=
  {| JSON_parse := Json.parse;
     toISOString_now := lit "2025-01-01T12:00:00.000Z";
     kv_get_rejects := false;
     kv_put_rejects := false;
     siteverify := siteverify world;
     ses_send := λ _ _, false |}.


(** The Turnstile secret is not set. *)
Definition env_without_secret : Env :=
  {| TURNSTILE_SECRET_KEY := None;
     AWS_ACCESS_KEY_ID := Some (lit "AKIAEXAMPLE");
     AWS_SECRET_ACCESS_KEY := Some (lit "aws-secret");
     AWS_REGION := None;
     RATE_LIMITER := true |}.

(** The verifier accepts the token, but for another site. *)
Definition world_other_site : World :=
  {| JSON_parse := Json.parse;
     toISOString_now := lit "2025-01-01T12:00:00.000Z";
     kv_get_rejects := false;
     kv_put_rejects := false;
     siteverify := λ _, Some {| ok := true;
                                reply_text := litq "{'success':true,'hostname':'elsewhere.example'}" |};
     ses_send := λ _ _, true |}.

(** A submission with the given fields (ASCII, nothing to escape). *)
Definition submission (name email message token : string) : Request :=
  post "https://raduhhr.xyz"
    (Utf8.bytes_of ("{'name':'" ++ name ++ "','email':'" ++ email
                    ++ "','message':'" ++ message
                    ++ "','turnstileToken':'" ++ token ++ "'}")).

(** The status with which the sample world answers a POST with the
    given body (written with single quotes), the namespace empty. *)
Definition answer (body : string) : Z :=
  status (response_of world (post "https://raduhhr.xyz" (Utf8.bytes_of body)) env ∅).

(** A submission whose message is a script tag. *)
Definition script : Request :=
  submission "Jo" "jo@example.com" "<script>alert(1)</script>" "tok".

Definition script_fields : Fields :=
  {| f_name := lit "Jo";
     f_email := lit "jo@example.com";
     f_message := lit "<script>alert(1)</script>";
     f_turnstileToken := lit "tok" |}.

(** A string of [n] letters. *)
Fixpoint letters (n : nat) : string :=
  match n with
  | O => EmptyString
  | S n' => String "x" (letters n')
  end.

(** A body of 10,001 ASCII bytes. *)
Definition oversized : Request :=
  post "https://raduhhr.xyz" (repeat Byte.x61 (Z.to_nat 10001)).

(** A body of 10,002 bytes that decodes to 5,001 code units: 5,001
    times the two bytes of U+00E9. *)
Definition multibyte : Request :=
  post "https://raduhhr.xyz" (concat (repeat [Byte.xc3; Byte.xa9] (Z.to_nat 5001))).

(** A body that is not JSON. *)
Definition malformed : Request :=
  post "https://raduhhr.xyz" (Utf8.bytes_of "{'name':'Jo',").

(** A request from an origin that is not on the allow-list. *)
Definition foreign : Request :=
  post "https://evil.example"
    (Utf8.bytes_of "{'name':'Jo','email':'jo@example.com','message':'Hello there, this works!','turnstileToken':'tok'}").

(** The namespace after [n] accepted submissions from the sample IP. *)
Definition counted (n : Z) : gmap (list N) KvEntry :=
  {[ lit "ratelimit:203.0.113.7" :=
       {| kv_value := String_of_Z n; expirationTtl := RATE_LIMIT_WINDOW |} ]}.

(** The KV namespace rejects reads. *)
Definition world_kv_read_down : World :=
  {| JSON_parse := Json.parse;
     toISOString_now := lit "2025-01-01T12:00:00.000Z";
     kv_get_rejects := true;
     kv_put_rejects := false;
     siteverify := siteverify world;
     ses_send := λ _ _, true |}.

(** The KV namespace rejects writes. *)
Definition world_kv_write_down : World :=
  {| JSON_parse := Json.parse;
     toISOString_now := lit "2025-01-01T12:00:00.000Z";
     kv_get_rejects := false;
     kv_put_rejects := true;
     siteverify := siteverify world;
     ses_send := λ _ _, true |}.

(** A GET from an allowed origin. *)
Definition get : Request :=
  {| method := lit "GET";
     headers_get := headers_of [("Origin", "https://raduhhr.xyz")];
     body := [] |}.

(** A submission whose name is three spaces. *)
Definition blank_name : Request :=
  submission "   " "jo@example.com" "Hello there, this works!" "tok".

Definition blank_name_payload : JsValue :=
  JsObject [ (lit "name", JsString (lit "   "));
             (lit "email", JsString (lit "jo@example.com"));
             (lit "message", JsString (lit "Hello there, this works!"));
             (lit "turnstileToken", JsString (lit "tok")) ].

(** A body that is a JSON array. *)
Definition array_body : Request := post "https://raduhhr.xyz" (Utf8.bytes_of "[1,2]").

(** The submission of the scenario with white space around every
    field. *)
Definition padded : Request :=
  submission "  Jo " " jo@example.com" "Hello there, this works!  " " tok ".

Definition padded_payload : JsValue :=
  JsObject [ (lit "name", JsString (lit "  Jo "));
             (lit "email", JsString (lit " jo@example.com"));
             (lit "message", JsString (lit "Hello there, this works!  "));
             (lit "turnstileToken", JsString (lit " tok ")) ].

End Sample.

(* ===================================================================== *)
(** * Properties *)
(* ===================================================================== *)

(** ** The helpers on examples *)

Example parseInt_examples :
  parseInt (lit "5") = Some 5%Z
  ∧ parseInt (lit "  42abc") = Some 42%Z
  ∧ parseInt (lit "-7") = Some (-7)%Z
  ∧ parseInt (lit "0x1f") = Some 31%Z
  ∧ parseInt (lit "abc") = None
  ∧ parseInt (lit "") = None
  ∧ parseInt_nullable None = None.
Proof. repeat split; reflexivity. Qed.

Example String_of_Z_examples :
  String_of_Z 0 = lit "0"
  ∧ String_of_Z 5 = lit "5"
  ∧ String_of_Z 1234567890 = lit "1234567890"
  ∧ String_of_Z (-30) = lit "-30".
Proof. repeat split; reflexivity. Qed.

Example trim_examples :
  trim (lit "  Jo ") = lit "Jo"
  ∧ trim (lit " a b ") = lit "a b"
  ∧ trim [0xFEFF; 0x2003; 104; 105; 0x0A; 0xA0]%N = lit "hi"
  ∧ trim (lit "   ") = [].
Proof. repeat split; reflexivity. Qed.

Example utf8_examples :
  Utf8.decode (Utf8.bytes_of "abc") = lit "abc"
  ∧ Utf8.decode [Byte.xc3; Byte.xa9] = [0xE9]%N
  ∧ Utf8.decode [Byte.xef; Byte.xbb; Byte.xbf; Byte.x41] = [0x41]%N
  ∧ Utf8.decode [Byte.xf0; Byte.x9f; Byte.x98; Byte.x80] = [0xD83D; 0xDE00]%N
  ∧ Utf8.decode [Byte.xe2; Byte.x82; Byte.xac] = [0x20AC]%N
  ∧ Utf8.decode [Byte.xc3; Byte.x41] = [0xFFFD; 0x41]%N
  ∧ Utf8.decode [Byte.xff] = [0xFFFD]%N
  ∧ Utf8.decode [Byte.xe2; Byte.x82] = [0xFFFD]%N.
Proof. repeat split; reflexivity. Qed.

Example isValidEmail_examples :
  isValidEmail (lit "a@b.co") = true
  ∧ isValidEmail (lit "jo@example.com") = true
  ∧ isValidEmail (lit "jo@example") = true
  ∧ isValidEmail (lit "a@b") = true
  ∧ isValidEmail (lit "a@") = false
  ∧ isValidEmail (lit "@b.co") = false
  ∧ isValidEmail (lit "a b@c.de") = false
  ∧ isValidEmail (lit "a@-b.co") = false
  ∧ isValidEmail (lit "a@b-.co") = false
  ∧ isValidEmail (lit "a@b..co") = false
  ∧ isValidEmail (lit "a@b.co.") = false
  ∧ isValidEmail (lit "a@b-c.co") = true
  ∧ isValidEmail (lit "o'neil+x@a.b.c") = true
  ∧ isValidEmail (lit "a@b@c.de") = false.
Proof. vm_compute. repeat split; reflexivity. Qed.

Example escapeHtml_examples :
  escapeHtml (lit "<script>alert(1)</script>")
  = lit "&lt;script&gt;alert(1)&lt;/script&gt;"
  ∧ escapeHtml (lit "a & b's") = lit "a &amp; b&#39;s".
Proof. repeat split; reflexivity. Qed.

Example json_parse_examples :
  Json.parse (litq "{'name':'Jo','n':[1,true,null],'name':'Al'}")
  = Some (JsObject
            [(lit "name", JsString (lit "Al"));
             (lit "n", JsArray [JsNumber (S754_finite false 4503599627370496 (-52));
                                JsBool true; JsNull])])
  ∧ Json.parse (lit " null ") = Some JsNull
  ∧ Json.parse (lit "-0") = Some (JsNumber (S754_zero true))
  ∧ Json.parse (lit "0.1") = Some (JsNumber (S754_finite false 7205759403792794 (-56)))
  ∧ Json.parse (lit "1e400") = Some (JsNumber (S754_infinity false))
  ∧ Json.parse (lit "{name:1}") = None
  ∧ Json.parse (lit "[1,]") = None
  ∧ Json.parse (lit "01") = None
  ∧ Json.parse (lit "") = None.
Proof. vm_compute. repeat split; reflexivity. Qed.

Example stringify_examples :
  Json.stringify_singleton (lit "error") (lit "Invalid JSON")
  = litq "{'error':'Invalid JSON'}".
Proof. reflexivity. Qed.

(** ** [escapeHtml] *)

Lemma escapeHtml_cons (c : N) (s : list N) :
  escapeHtml (c :: s)
  = (if html_special c then escapeHtml_lookup c else [c]) ++ escapeHtml s.
Proof. reflexivity. Qed.

Lemma escapeHtml_app (s t : list N) :
  escapeHtml (s ++ t) = escapeHtml s ++ escapeHtml t.
Proof. unfold escapeHtml. apply flat_map_app. Qed.

Ltac entity_case :=
  left; split; [apply list_elem_of_In; cbn; tauto|];
  eexists; split; [reflexivity|];
  repeat constructor; discriminate.

(** What one code unit becomes: an entity when it is one of the five
    characters, itself otherwise. *)
Lemma escape_piece (c : N) :
  let piece := if html_special c then escapeHtml_lookup c else [c] in
  (piece ∈ entities ∧ ∃ tail, piece = 38%N :: tail ∧ Forall inert tail)
  ∨ (piece = [c] ∧ inert c).
Proof.
  unfold html_special.
  destruct (N.eqb_spec c 38) as [->|?]; [entity_case|].
  destruct (N.eqb_spec c 60) as [->|?]; [entity_case|].
  destruct (N.eqb_spec c 62) as [->|?]; [entity_case|].
  destruct (N.eqb_spec c 34) as [->|?]; [entity_case|].
  destruct (N.eqb_spec c 39) as [->|?]; [entity_case|].
  right. by split.
Qed.

(** ** Substrings *)

Lemma starts_with_iff (needle hay : list N) :
  starts_with needle hay = true ↔ ∃ post, hay = needle ++ post.
Proof.
  revert hay. induction needle as [|a needle IH]; intros hay.
  - split; [by exists hay|done].
  - destruct hay as [|b hay]; cbn [starts_with].
    + split; [discriminate|]. by intros [post ?].
    + rewrite andb_true_iff, N.eqb_eq, IH. split.
      * intros [-> [post ->]]. by exists post.
      * intros [post [= -> ->]]. split; [done|by exists post].
Qed.

Lemma includes_unfold (hay needle : list N) :
  includes hay needle
  = starts_with needle hay
    || match hay with [] => false | _ :: hay' => includes hay' needle end.
Proof. by destruct hay. Qed.

Lemma includes_iff (hay needle : list N) :
  includes hay needle = true ↔ ∃ pre post, hay = pre ++ needle ++ post.
Proof.
  split.
  - induction hay as [|a hay IH]; rewrite includes_unfold, orb_true_iff.
    + intros [[post ->]%starts_with_iff|?]; [|done]. by exists [], post.
    + intros [[post ->]%starts_with_iff|Hin]; [by exists [], post|].
      destruct (IH Hin) as (pre & post & ->). by exists (a :: pre), post.
  - intros (pre & post & ->). induction pre as [|a pre IH];
      rewrite includes_unfold, orb_true_iff.
    + left. apply starts_with_iff. by exists post.
    + right. exact IH.
Qed.

Lemma includes_here (x post : list N) : includes (x ++ post) x = true.
Proof. apply includes_iff. by exists [], post. Qed.

Lemma includes_skip (a hay x : list N) :
  includes hay x = true → includes (a ++ hay) x = true.
Proof.
  intros (pre & post & ->)%includes_iff. apply includes_iff.
  exists (a ++ pre), post. by rewrite <- app_assoc.
Qed.

Lemma includes_trans (a b c : list N) :
  includes a b = true → includes b c = true → includes a c = true.
Proof.
  intros (pre & post & ->)%includes_iff (pre' & post' & ->)%includes_iff.
  apply includes_iff. exists (pre ++ pre'), (post' ++ post).
  by rewrite <- !app_assoc.
Qed.

Ltac find_part := repeat first [apply includes_here | apply includes_skip].

(** Every value is in the HTML body escaped, and name, email and message
    are in the text body as they are. *)
Lemma mail_parts (name email message now ip ua : list N) :
  (∀ v, v ∈ [name; email; message; now; ip; ua] →
        includes (html_body name email message now ip ua) (escapeHtml v) = true)
  ∧ (∀ v, v ∈ [name; email; message] →
          includes (text_body name email message now ip ua) v = true).
Proof.
  split; intros v Hv; unfold html_body, text_body;
    repeat (apply elem_of_cons in Hv as [->|Hv]; [find_part|]);
    by apply elem_of_nil in Hv.
Qed.

(** ** [isValidEmail] and the length rules *)

Lemma name_ok_iff (f : Fields) :
  name_ok f = true ↔ (2 <= str_length (f_name f) <= 100)%Z.
Proof. unfold name_ok. rewrite andb_true_iff, !Z.leb_le. done. Qed.

Lemma message_ok_iff (f : Fields) :
  message_ok f = true ↔ (10 <= str_length (f_message f) <= 2000)%Z.
Proof. unfold message_ok. rewrite andb_true_iff, !Z.leb_le. done. Qed.

(** What [isValidEmail] accepts. *)
Lemma isValidEmail_iff (email : list N) :
  isValidEmail email = true
  ↔ (3 <= str_length email <= 254)%Z
    ∧ (∀ c, c ∈ email → c ≠ 13 ∧ c ≠ 10 ∧ c ≠ 9)%N
    ∧ matches pattern email = true.
Proof.
  unfold isValidEmail, contains_class.
  destruct (Z.gtb_spec (str_length email) 254) as [?|?]; cbn [orb].
  { split; [discriminate|]. lia. }
  destruct (Z.ltb_spec (str_length email) 3) as [?|?].
  { split; [discriminate|]. lia. }
  destruct (existsb cr_lf_tab email) eqn:E.
  - split; [discriminate|]. intros (_ & Hclean & _).
    apply existsb_exists in E as (c & Hc%list_elem_of_In & Hbad).
    destruct (Hclean c Hc) as (?&?&?). unfold cr_lf_tab in Hbad.
    destruct (N.eqb_spec c 13), (N.eqb_spec c 10), (N.eqb_spec c 9); done.
  - split; [|by intros (_ & _ & ?)]. intros Hm. split_and!; [lia|lia| |done].
    intros c Hc%list_elem_of_In.
    assert (Hgood : cr_lf_tab c = false).
    { destruct (cr_lf_tab c) eqn:Ec; [|done].
      assert (existsb cr_lf_tab email = true) by (apply existsb_exists; eauto).
      congruence. }
    unfold cr_lf_tab in Hgood.
    destruct (N.eqb_spec c 13), (N.eqb_spec c 10), (N.eqb_spec c 9); done.
Qed.

(** ** Decoding ASCII *)

(** An ASCII body decodes to as many code units as it has bytes. *)
Lemma decode_ascii (bytes : list Byte.byte) :
  Forall (λ b, (Byte.to_N b < 128)%N) bytes →
  Utf8.decode bytes = List.map Byte.to_N bytes.
Proof.
  intros Hascii. unfold Utf8.decode.
  assert (Hbom : Utf8.strip_bom (List.map Byte.to_N bytes) = List.map Byte.to_N bytes).
  { destruct Hascii as [|a ? Ha [|b ? _ [|c ? _ _]]]; try done.
    cbn [List.map Utf8.strip_bom].
    destruct (N.eqb_spec (Byte.to_N a) 0xEF) as [E|_]; [lia|done]. }
  rewrite Hbom. clear Hbom.
  induction Hascii as [|b bytes Hb _ IH]; [done|].
  cbn [List.map Utf8.run]. unfold Utf8.feed. cbn [Utf8.bytes_needed Utf8.idle].
  change (0 =? 0)%N with true. cbv iota. unfold Utf8.lead.
  destruct (N.leb_spec (Byte.to_N b) 0x7F) as [_|?]; [|lia].
  cbn [app flat_map]. rewrite IH. unfold Utf8.utf16_units.
  destruct (N.ltb_spec (Byte.to_N b) 0x10000) as [_|?]; [done|lia].
Qed.

(** ** Counts survive the round trip through the namespace

    The handler writes [String(newCount)] and reads it back with
    [parseInt]: the number read is the number written. *)

Lemma decimal_digit_cases (c : N) :
  decimal_digit c →
  digit_value c = Some (Z.of_N (c - 48))
  ∧ is_white_space c = false
  ∧ (c =? 45)%N = false ∧ (c =? 43)%N = false
  ∧ (c =? 120)%N = false ∧ (c =? 88)%N = false.
Proof.
  unfold decimal_digit. intros Hc.
  assert (c = 48 ∨ c = 49 ∨ c = 50 ∨ c = 51 ∨ c = 52 ∨ c = 53 ∨ c = 54
          ∨ c = 55 ∨ c = 56 ∨ c = 57)%N as Hcases by lia.
  repeat (destruct Hcases as [->|Hcases]; [by repeat split|]).
  subst c. by repeat split.
Qed.

Lemma parse_digits_decimal (ds : list N) (a : Z) :
  Forall decimal_digit ds →
  parse_digits 10 ds (Some a) = Some (value_from a ds).
Proof.
  intros Hds. revert a. induction Hds as [|c ds Hc _ IH]; intros a; [done|].
  cbn [parse_digits]. destruct (decimal_digit_cases c Hc) as (-> & _).
  assert ((Z.of_N (c - 48) <? 10)%Z = true) as ->.
  { apply Z.ltb_lt. unfold decimal_digit in Hc. lia. }
  cbn [default from_option id]. apply IH.
Qed.

Lemma value_from_cons (a : Z) (d : N) (ds : list N) :
  value_from a (d :: ds) = value_from (a * 10 + Z.of_N (d - 48)) ds.
Proof. reflexivity. Qed.

Lemma value_from_linear (ds : list N) (a : Z) :
  value_from a ds = (a * 10 ^ Z.of_nat (length ds) + value_from 0 ds)%Z.
Proof.
  revert a. induction ds as [|d ds IH]; intros a.
  - cbn. lia.
  - rewrite !value_from_cons. cbn [length].
    rewrite (IH (a * 10 + Z.of_N (d - 48))%Z), (IH (0 * 10 + Z.of_N (d - 48))%Z).
    rewrite Nat2Z.inj_succ, Z.pow_succ_r by lia. ring.
Qed.

Lemma size_nat_bound (p : positive) :
  (Z.pos p < 2 ^ Z.of_nat (Pos.size_nat p))%Z.
Proof.
  induction p; cbn [Pos.size_nat]; rewrite Nat2Z.inj_succ, Z.pow_succ_r; lia.
Qed.

Lemma pos_digits_spec (fuel : nat) (p : positive) (acc : list N) :
  (Z.pos p < 2 ^ Z.of_nat fuel)%Z →
  Forall decimal_digit acc →
  Forall decimal_digit (pos_digits fuel p acc)
  ∧ pos_digits fuel p acc ≠ []
  ∧ value_from 0 (pos_digits fuel p acc)
    = (Z.pos p * 10 ^ Z.of_nat (length acc) + value_from 0 acc)%Z.
Proof.
  revert p acc. induction fuel as [|fuel IH]; intros p acc Hp Hacc.
  { cbn in Hp. lia. }
  cbn [pos_digits].
  pose proof (N.div_mod (N.pos p) 10 ltac:(done)) as Hdiv.
  pose proof (N.mod_lt (N.pos p) 10 ltac:(done)) as Hmod.
  set (r := (N.pos p mod 10)%N) in *.
  assert (Hd : decimal_digit (48 + r)%N) by (unfold decimal_digit; lia).
  destruct (N.pos p / 10)%N as [|q] eqn:Hq.
  - split_and!; [by constructor|done|].
    rewrite value_from_cons, value_from_linear.
    replace (Z.pos p) with (Z.of_N r) by lia.
    replace (48 + r - 48)%N with r by lia. ring.
  - rewrite Nat2Z.inj_succ, Z.pow_succ_r in Hp by lia.
    destruct (IH q ((48 + r)%N :: acc)) as (Hall & Hne & Hval);
      [lia|by constructor|].
    split_and!; [done|done|].
    rewrite Hval. cbn [length]. rewrite Nat2Z.inj_succ, Z.pow_succ_r by lia.
    rewrite value_from_cons, value_from_linear.
    replace (48 + r - 48)%N with r by lia.
    replace (Z.pos p) with (10 * Z.pos q + Z.of_N r)%Z by lia. ring.
Qed.

Lemma parseInt_digits (ds : list N) :
  Forall decimal_digit ds → ds ≠ [] →
  parseInt ds = Some (value_from 0 ds)
  ∧ parseInt (45%N :: ds) = Some (- value_from 0 ds)%Z.
Proof.
  intros Hds Hne. destruct Hds as [|c ds Hc Hds]; [done|].
  destruct (decimal_digit_cases c Hc) as (Hdv & Hws & H45 & H43 & _).
  assert (Hradix :
    match c :: ds with
    | a :: b :: rest =>
        if ((a =? 48) && ((b =? 120) || (b =? 88)))%N then (16%Z, rest)
        else (10%Z, c :: ds)
    | _ => (10%Z, c :: ds)
    end = (10%Z, c :: ds)).
  { destruct ds as [|b ds]; [done|]. inversion Hds as [|? ? Hb _]; subst.
    destruct (decimal_digit_cases b Hb) as (_ & _ & _ & _ & -> & ->).
    by rewrite andb_false_r. }
  assert (Hparse : parse_digits 10 (c :: ds) None = Some (value_from 0 (c :: ds))).
  { cbn [parse_digits]. rewrite Hdv.
    assert ((Z.of_N (c - 48) <? 10)%Z = true) as ->.
    { apply Z.ltb_lt. unfold decimal_digit in Hc. lia. }
    cbn [default from_option id]. by rewrite parse_digits_decimal. }
  split.
  - unfold parseInt. cbn [trimStart]. rewrite Hws, H45, H43, Hradix, Hparse.
    cbn. f_equal; lia.
  - unfold parseInt. cbn [trimStart].
    change (is_white_space 45) with false. cbv iota.
    change (45 =? 45)%N with true. cbv iota.
    rewrite Hradix, Hparse. cbn. f_equal; lia.
Qed.

(** The digits written for an integer read back as that integer.  This
    is a fact of the exact integers of the model; it is the one of
    JavaScript for the safe integers, from -2^53 to 2^53. *)
Lemma parseInt_String_of_Z (n : Z) : parseInt (String_of_Z n) = Some n.
Proof.
  destruct n as [|p|p]; [reflexivity| |];
    destruct (pos_digits_spec (Pos.size_nat p) p [] (size_nat_bound p) (Forall_nil_2 _))
      as (Hall & Hne & Hval);
    destruct (parseInt_digits _ Hall Hne) as [Hpos Hneg];
    cbn [String_of_Z]; rewrite ?Hpos, ?Hneg, Hval; cbn; f_equal; lia.
Qed.

Lemma over_limit_iff (submissionCount : option (list N)) :
  over_limit submissionCount = true
  ↔ (5 <= default 0 (parseInt_nullable submissionCount))%Z.
Proof.
  unfold over_limit, RATE_LIMIT_MAX.
  destruct submissionCount as [[|c s]|]; cbn [or_else nonempty andb].
  - split; [discriminate|]. change (parseInt_nullable (Some [])) with (@None Z).
    cbn. lia.
  - destruct (parseInt_nullable (Some (c :: s))) as [n|]; cbn.
    + apply Z.leb_le.
    + split; [discriminate|lia].
  - split; [discriminate|]. change (parseInt_nullable None) with (@None Z).
    cbn. lia.
Qed.

Lemma over_limit_stored (kv : gmap (list N) KvEntry) (request : Request) :
  over_limit (submissionCount_of kv request) = true ↔ (5 <= stored_count kv request)%Z.
Proof. apply over_limit_iff. Qed.

Lemma under_limit_stored (kv : gmap (list N) KvEntry) (request : Request) :
  over_limit (submissionCount_of kv request) = false ↔ (stored_count kv request < 5)%Z.
Proof.
  pose proof (over_limit_stored kv request) as H.
  destruct (over_limit (submissionCount_of kv request)); split; intros; try done.
  - destruct H as [H _]. specialize (H eq_refl). lia.
  - destruct (Z.le_gt_cases 5 (stored_count kv request)) as [Hle|?]; [|lia].
    apply H in Hle. discriminate.
Qed.

(** [(parseInt(submissionCount) || 0) + 1] is the count read plus one. *)
Lemma newCount_stored (kv : gmap (list N) KvEntry) (request : Request) :
  newCount_of (submissionCount_of kv request) = (stored_count kv request + 1)%Z.
Proof.
  unfold newCount_of, stored_count.
  destruct (parseInt_nullable (submissionCount_of kv request)) as [n|]; cbn; [|done].
  destruct (Z.eqb_spec n 0) as [->|?]; done.
Qed.

(** ** Every run ends at one of the exits *)

Lemma not_permitted_iff request :
  nonempty (origin_of request) && negb (has ALLOWED_ORIGINS (origin_of request)) = true
  ↔ ¬ origin_permitted request.
Proof.
  unfold origin_permitted, origin_allowed, has.
  destruct (origin_of request) as [|c o] eqn:E; simpl.
  - split; [discriminate|]. intros H; exfalso; apply H; by left.
  - rewrite negb_true_iff, bool_decide_eq_false. split.
    + intros H [?|?]; [discriminate|done].
    + intros H ?. apply H. by right.
Qed.

Lemma permitted_iff request :
  nonempty (origin_of request) && negb (has ALLOWED_ORIGINS (origin_of request)) = false
  ↔ origin_permitted request.
Proof.
  unfold origin_permitted, origin_allowed, has.
  destruct (origin_of request) as [|c o] eqn:E; simpl.
  - split; [by left|done].
  - rewrite negb_false_iff, bool_decide_eq_true. split; [by right|].
    intros [?|?]; [discriminate|done].
Qed.

Lemma bind_apply {A B} (m : M A) (f : A → M B) st :
  (m ≫= f) st
  = match m st with
    | (Next a, st') => f a st'
    | (Return r, st') => (Return r, st')
    | (Throw, st') => (Throw, st')
    end.
Proof. reflexivity. Qed.

Lemma ret_apply {A} (a : A) st : (mret a : M A) st = (Next a, st).
Proof. reflexivity. Qed.

Ltac step :=
  repeat first
    [ rewrite bind_apply
    | rewrite ret_apply
    | progress unfold when_, throw, return_, emit, kv_get, kv_put, request_text,
        json_parse, sesClient_send, or_throw, validateTurnstileToken
    | progress cbn [store log fst snd app negb] ].

Lemma name_ok_spec f :
  name_ok f = negb ((str_length (f_name f) <? 2)%Z || (str_length (f_name f) >? 100)%Z).
Proof.
  unfold name_ok. rewrite Z.gtb_ltb.
  destruct (Z.leb_spec 2 (str_length (f_name f))),
           (Z.leb_spec (str_length (f_name f)) 100),
           (Z.ltb_spec (str_length (f_name f)) 2),
           (Z.ltb_spec 100 (str_length (f_name f))); simpl; lia || reflexivity.
Qed.

Lemma message_ok_spec f :
  message_ok f
  = negb ((str_length (f_message f) <? 10)%Z || (str_length (f_message f) >? 2000)%Z).
Proof.
  unfold message_ok. rewrite Z.gtb_ltb.
  destruct (Z.leb_spec 10 (str_length (f_message f))),
           (Z.leb_spec (str_length (f_message f)) 2000),
           (Z.ltb_spec (str_length (f_message f)) 10),
           (Z.ltb_spec 2000 (str_length (f_message f))); simpl; lia || reflexivity.
Qed.

Lemma all_present_spec f :
  all_present f
  = negb (negb (nonempty (f_name f)) || negb (nonempty (f_email f))
          || negb (nonempty (f_message f)) || negb (nonempty (f_turnstileToken f))).
Proof.
  unfold all_present.
  by destruct (nonempty (f_name f)), (nonempty (f_email f)),
              (nonempty (f_message f)), (nonempty (f_turnstileToken f)).
Qed.

(** Only [null] and [undefined] throw on a property read, whatever the
    property. *)
Lemma get_prop_none o key key' : get_prop o key = None → get_prop o key' = None.
Proof. by destruct o. Qed.

Lemma verified_has_hostname turnstile :
  verified turnstile = true → is_Some (get_prop turnstile (lit "hostname")).
Proof.
  unfold verified, get_prop_optional. intros H.
  destruct (get_prop turnstile (lit "hostname")) eqn:E; [by eexists|].
  by rewrite (get_prop_none _ _ (lit "success") E) in H.
Qed.

Lemma fetch_exit w request env kv :
  Exit w request env kv (response_of w request env kv)
    (events_of w request env kv) (store_after w request env kv).
Proof.
  unfold response_of, events_of, store_after, run, fetch.
  change (or_else (headers_get request (lit "Origin")) []) with (origin_of request).
  destruct (nonempty (origin_of request) && negb (has ALLOWED_ORIGINS (origin_of request)))
    eqn:Ho.
  { apply not_permitted_iff in Ho. by apply exit_forbidden_origin. }
  apply permitted_iff in Ho.
  destruct (bool_decide (method request = lit "OPTIONS")) eqn:Hopt.
  { apply bool_decide_eq_true in Hopt. by apply exit_preflight. }
  apply bool_decide_eq_false in Hopt.
  destruct (bool_decide (method request = lit "POST")) eqn:Hpost; cbn [negb].
  2:{ apply bool_decide_eq_false in Hpost. by apply exit_method_not_allowed. }
  apply bool_decide_eq_true in Hpost.
  assert (Htry : reaches_try request) by done.
  unfold fetch_try, try_catch.
  (* Environment sanity checks *)
  destruct (missing (TURNSTILE_SECRET_KEY env)) eqn:E1; step.
  { apply exit_not_configured; [done|]. intros (?&?&?&?). congruence. }
  destruct (missing (AWS_ACCESS_KEY_ID env)) eqn:E2; step.
  { apply exit_not_configured; [done|]. intros (?&?&?&?). congruence. }
  destruct (missing (AWS_SECRET_ACCESS_KEY env)) eqn:E3; step.
  { apply exit_not_configured; [done|]. intros (?&?&?&?). congruence. }
  destruct (RATE_LIMITER env) eqn:E4; step.
  2:{ apply exit_not_configured; [done|]. intros (?&?&?&?). congruence. }
  assert (Hrate : reaches_rate_check request env) by done.
  (* Rate limiting *)
  destruct (kv_get_rejects w) eqn:Eget; step.
  { by apply exit_get_rejected. }
  change (kv_value <$> kv !! (lit "ratelimit:" ++
            or_else (headers_get request (lit "CF-Connecting-IP")) (lit "unknown")))
    with (submissionCount_of kv request).
  destruct (over_limit (submissionCount_of kv request)) eqn:Elimit; step.
  { by apply exit_rate_limited. }
  assert (Hbody : reaches_body w request env kv) by done.
  (* Body size guard + JSON parse *)
  change (Utf8.decode (body request)) with (raw_of request).
  destruct (str_length (raw_of request) >? MAX_BODY_BYTES)%Z eqn:Esize; step.
  { apply exit_too_large; [done|]. apply Z.gtb_gt in Esize. lia. }
  assert (Hparse : reaches_parse w request env kv).
  { split; [done|]. rewrite Z.gtb_ltb in Esize. apply Z.ltb_ge in Esize. lia. }
  destruct (JSON_parse w (raw_of request)) as [payload|] eqn:Ejson; step.
  2:{ by apply exit_invalid_json. }
  assert (Hfields : reaches_fields w request env kv payload) by done.
  (* Extract and trim fields *)
  destruct (trimmed_field payload "name") as [name|] eqn:F1; step.
  2:{ apply (exit_field_throws _ _ _ _ payload); [done|].
      unfold fields_of. by rewrite F1. }
  destruct (trimmed_field payload "email") as [email|] eqn:F2; step.
  2:{ apply (exit_field_throws _ _ _ _ payload); [done|].
      unfold fields_of. by rewrite F1, F2. }
  destruct (trimmed_field payload "message") as [message|] eqn:F3; step.
  2:{ apply (exit_field_throws _ _ _ _ payload); [done|].
      unfold fields_of. by rewrite F1, F2, F3. }
  destruct (trimmed_field payload "turnstileToken") as [turnstileToken|] eqn:F4; step.
  2:{ apply (exit_field_throws _ _ _ _ payload); [done|].
      unfold fields_of. by rewrite F1, F2, F3, F4. }
  pose (f := {| f_name := name; f_email := email; f_message := message;
                f_turnstileToken := turnstileToken |}).
  assert (Hf : fields_of payload = Some f).
  { unfold fields_of. by rewrite F1, F2, F3, F4. }
  (* Required fields check *)
  pose proof (all_present_spec f) as Hall. cbn [f_name f_email f_message f_turnstileToken f] in Hall.
  destruct (negb (nonempty name) || negb (nonempty email) || negb (nonempty message)
            || negb (nonempty turnstileToken)) eqn:Epresent; step.
  { by apply (exit_field_missing _ _ _ _ payload f). }
  assert (Hvalidation : reaches_validation w request env kv f).
  { split; [by exists payload|done]. }
  (* Field validation *)
  pose proof (name_ok_spec f) as Hname. cbn [f_name f] in Hname.
  destruct ((str_length name <? 2)%Z || (str_length name >? 100)%Z) eqn:Ename; step.
  { by apply (exit_bad_name _ _ _ _ f). }
  destruct (isValidEmail email) eqn:Eemail; step.
  2:{ by apply (exit_bad_email _ _ _ _ f). }
  pose proof (message_ok_spec f) as Hmessage. cbn [f_message f] in Hmessage.
  destruct ((str_length message <? 10)%Z || (str_length message >? 2000)%Z) eqn:Emessage; step.
  { by apply (exit_bad_message _ _ _ _ f). }
  assert (Hverification : reaches_verification w request env kv f) by done.
  (* Turnstile verification *)
  change (siteverify_result w (formData_of turnstileToken
            (or_else (TURNSTILE_SECRET_KEY env) [])
            (or_else (headers_get request (lit "CF-Connecting-IP")) (lit "unknown"))))
    with (turnstile_of w request env f).
  change (truthy (get_prop_optional (turnstile_of w request env f) (lit "success")))
    with (verified (turnstile_of w request env f)).
  destruct (verified (turnstile_of w request env f)) eqn:Everified; step.
  2:{ by apply (exit_not_verified _ _ _ _ f). }
  destruct (verified_has_hostname _ Everified) as [hostname Ehostname].
  assert (Hhost : js_or hostname (JsString [])
                  = verifiedHostname_of (turnstile_of w request env f)).
  { unfold verifiedHostname_of. by rewrite Ehostname. }
  rewrite Ehostname. step. rewrite Hhost.
  destruct (has_value ALLOWED_TURNSTILE_HOSTNAMES
              (verifiedHostname_of (turnstile_of w request env f))) eqn:Ehost; step.
  2:{ by apply (exit_bad_hostname _ _ _ _ f). }
  assert (Hdispatch : reaches_dispatch w request env kv f) by done.
  (* Send email via SES *)
  change (params_of name email message (toISOString_now w)
            (or_else (headers_get request (lit "CF-Connecting-IP")) (lit "unknown"))
            (or_else (headers_get request (lit "User-Agent")) (lit "Unknown")))
    with (mail_of w request f).
  destruct (ses_send w (sesClient_of env) (mail_of w request f)) eqn:Esend; step.
  2:{ by apply (exit_send_rejected _ _ _ _ f). }
  (* Increment rate limit counter after successful send *)
  destruct (kv_put_rejects w) eqn:Eput; step.
  { by apply (exit_put_rejected _ _ _ _ f). }
  by apply (exit_sent _ _ _ _ f).
Qed.

(** ** The exits exclude each other *)

Ltac open_reach :=
  repeat match goal with
    | H : reaches_dispatch _ _ _ _ _ |- _ => destruct H as (?&?&?)
    | H : reaches_verification _ _ _ _ _ |- _ => destruct H as (?&?&?&?)
    | H : reaches_validation _ _ _ _ _ |- _ => destruct H as ((?&?&?)&?)
    | H : reaches_fields _ _ _ _ _ |- _ => destruct H as (?&?)
    | H : reaches_parse _ _ _ _ |- _ => destruct H as (?&?)
    | H : reaches_body _ _ _ _ |- _ => destruct H as (?&?&?)
    | H : reaches_rate_check _ _ |- _ => destruct H as (?&?)
    | H : reaches_try _ |- _ => destruct H as (?&?)
    end.

Lemma options_is_not_post : lit "OPTIONS" ≠ lit "POST".
Proof. discriminate. Qed.

Ltac clash :=
  open_reach;
  first [ done | lia | congruence
        | exfalso; apply options_is_not_post; congruence
        | simplify_eq; first [done | lia | congruence] ].

Lemma Exit_functional w request env kv r1 e1 kv1 r2 e2 kv2 :
  Exit w request env kv r1 e1 kv1 →
  Exit w request env kv r2 e2 kv2 →
  r1 = r2 ∧ e1 = e2 ∧ kv1 = kv2.
Proof.
  intros H1 H2.
  destruct H1; destruct H2; try (split; [|split]; reflexivity); try (exfalso; clash).
  all: open_reach; simplify_eq; done.
Qed.

(** The relation is the graph of the handler. *)
Lemma Exit_run w request env kv r e kv' :
  Exit w request env kv r e kv' →
  response_of w request env kv = r
  ∧ events_of w request env kv = e
  ∧ store_after w request env kv = kv'.
Proof. intros H. exact (Exit_functional _ _ _ _ _ _ _ _ _ _ (fetch_exit w request env kv) H). Qed.

(** ** Reading the exits *)

(** Case analysis on how a run ended, the three results named. *)
Ltac by_exit w request env kv :=
  let E := fresh "E" in
  pose proof (fetch_exit w request env kv) as E;
  revert E;
  generalize (response_of w request env kv), (events_of w request env kv),
             (store_after w request env kv);
  intros ? ? ? E; destruct E.

(** An element that stands in an explicit list. *)
Ltac in_list :=
  unfold events_sent, events_verified, events_parsed, events_read;
  rewrite <- ?app_assoc; cbn [app];
  repeat first [ apply list_elem_of_here | apply list_elem_of_further ].

(** Membership of an event in one of the concrete logs of [Exit]. *)
Ltac in_log H :=
  unfold events_sent, events_verified, events_parsed, events_read, put_of in H;
  cbn [app] in H;
  repeat (apply elem_of_cons in H as [H|H]; [try discriminate H|]);
  try (by apply elem_of_nil in H).

Lemma error_response_status (request : Request) (msg : string) (s : Z) :
  status (error_response request msg s) = s.
Proof. reflexivity. Qed.

(** [headers.get] on a response built by [json]: every header but the
    content type is one of the extra headers. *)
Lemma json_headers_lookup (obj : list N * list N) (s : Z)
    (extra : gmap (list N) (list N)) (key : list N) :
  key ≠ lit "Content-Type" →
  headers (json obj s extra) !! key = extra !! key.
Proof.
  intros Hkey. unfold json, spread. cbn [headers].
  rewrite lookup_union, lookup_singleton_ne by done.
  by destruct (extra !! key).
Qed.

Lemma extra_headers_cors (request : Request) (r : Response) :
  (∀ key, key ≠ lit "Content-Type" → headers r !! key = extra_headers request !! key) →
  has_cors_headers request r ∧ has_security_headers r.
Proof.
  intros Hr. unfold has_cors_headers, has_security_headers, carries.
  rewrite !Hr by discriminate.
  unfold extra_headers, spread, buildCorsHeaders, origin_allowed, has.
  generalize (origin_of request). intros origin.
  destruct origin as [|c origin]; cbn [nonempty andb].
  { split_and!; try (intros; vm_compute; reflexivity).
    intros H. exfalso. revert H. by vm_compute. }
  destruct (bool_decide (c :: origin ∈ ALLOWED_ORIGINS)) eqn:E.
  - apply bool_decide_eq_true in E.
    split_and!; try done; intros; vm_compute; reflexivity.
  - apply bool_decide_eq_false in E.
    split_and!; try done; intros; vm_compute; reflexivity.
Qed.

(** The events of a run that stopped before the dispatch. *)
Lemma no_send_before_dispatch request env f :
  count is_send (events_verified request env f) = 0
  ∧ count is_put (events_verified request env f) = 0
  ∧ count is_send (events_parsed request) = 0
  ∧ count is_put (events_parsed request) = 0.
Proof. by repeat split. Qed.

Lemma count_events_sent (w : World) (request : Request) (env : Env)
    (kv : gmap (list N) KvEntry) (f : Fields) :
  count is_send (events_sent w request env f ++ [put_of kv request]) = 1
  ∧ count is_put (events_sent w request env f ++ [put_of kv request]) = 1
  ∧ count is_send (events_sent w request env f) = 1
  ∧ count is_put (events_sent w request env f) = 0.
Proof. by repeat split. Qed.

Lemma rejected_run_is_silent w request env kv :
  rejected (response_of w request env kv) →
  count is_send (events_of w request env kv) = 0
  ∧ count is_put (events_of w request env kv) = 0
  ∧ store_after w request env kv = kv.
Proof.
  unfold rejected. by_exit w request env kv; cbn [status json error_response];
    intros ?; try lia; by repeat split.
Qed.

(** A run that ended with the 200 left the count of the client one
    higher, in the exact integers of the model; the count read is then
    below 5, and the worker computes the same when it is not
    negative. *)
Lemma accepted_run_counts (w : World) (request : Request) (env : Env)
    (kv : gmap (list N) KvEntry) :
  status (response_of w request env kv) = 200%Z →
  stored_count (store_after w request env kv) request
  = (stored_count kv request + 1)%Z
  ∧ count is_send (events_of w request env kv) = 1.
Proof.
  by_exit w request env kv; cbn [status error_response json]; intros Hs;
    try discriminate Hs.
  split; [|reflexivity].
  unfold stored_count at 1, submissionCount_of at 1.
  rewrite lookup_insert_eq. cbn [fmap option_fmap option_map kv_value parseInt_nullable].
  by rewrite parseInt_String_of_Z, newCount_stored.
Qed.

Lemma fields_of_none (payload : JsValue) (key : string) :
  key ∈ ["name"; "email"; "message"; "turnstileToken"]%string →
  trimmed_field payload key = None →
  fields_of payload = None.
Proof.
  intros Hkey Hnone. unfold fields_of.
  repeat (apply elem_of_cons in Hkey as [->|Hkey];
          [rewrite ?Hnone; by repeat (destruct (trimmed_field payload _); cbn)|]).
  by apply elem_of_nil in Hkey.
Qed.

(** ** From the log back to the conditions *)

(** The body was parsed only if every earlier check passed. *)
Lemma parse_event_inv (w : World) (request : Request) (env : Env)
    (kv : gmap (list N) KvEntry) (raw : list N) :
  EvJsonParse raw ∈ events_of w request env kv →
  raw = raw_of request ∧ reaches_parse w request env kv.
Proof.
  by_exit w request env kv; intros Hin; in_log Hin;
    injection Hin as ->; (split; [reflexivity|]); open_reach; done.
Qed.

(** The verifier was called only for a submission that passed the field
    validation. *)
Lemma siteverify_event_inv (w : World) (request : Request) (env : Env)
    (kv : gmap (list N) KvEntry) (formData : list (list N * list N)) :
  EvSiteverify formData ∈ events_of w request env kv →
  ∃ f, formData = formData_for request env f
       ∧ reaches_verification w request env kv f.
Proof.
  by_exit w request env kv; intros Hin; in_log Hin;
    injection Hin as ->; exists f; (split; [reflexivity|]);
    first [assumption | by destruct H].
Qed.

(** A mail was sent only for a submission that passed every check. *)
Lemma send_event_inv (w : World) (request : Request) (env : Env)
    (kv : gmap (list N) KvEntry) (client : SESClientConfig) (params : SendEmailParams) :
  EvSesSend client params ∈ events_of w request env kv →
  ∃ f, client = sesClient_of env ∧ params = mail_of w request f
       ∧ reaches_dispatch w request env kv f.
Proof.
  by_exit w request env kv; intros Hin; in_log Hin;
    injection Hin as -> ->; by exists f.
Qed.

(** ** Evaluation on concrete inputs *)

(** Closing a goal about concrete inputs by evaluation. *)
Ltac evaluate :=
  first [ reflexivity
        | vm_compute; reflexivity
        | vm_compute; discriminate
        | right; apply (bool_decide_unpack _); vm_compute; exact I
        | apply (bool_decide_unpack _); vm_compute; exact I
        | repeat split; vm_compute; reflexivity ].

(** A [reaches_] fact about concrete inputs. *)
Ltac exists_reach :=
  unfold reaches_dispatch, reaches_verification, reaches_validation, reaches_fields,
    reaches_parse, reaches_body, reaches_rate_check, reaches_try, configured;
  repeat match goal with
    | |- _ ∧ _ => split
    | |- ∃ _, _ => eexists
    end; evaluate.

(** Discharging the hypotheses of an instantiated theorem by evaluation. *)
Ltac discharge H :=
  repeat match type of H with
    | ?A → _ =>
        let a := fresh "Hyp" in
        assert (a : A) by evaluate; specialize (H a)
    end.

(** ** Trimming *)

Lemma trimStart_spec (s : list N) :
  ∃ pre, s = pre ++ trimStart s ∧ blank pre = true
         ∧ ∀ c, head (trimStart s) = Some c → is_white_space c = false.
Proof.
  induction s as [|a s (pre & Hs & Hpre & Hhead)].
  - exists []. by repeat split.
  - cbn [trimStart]. destruct (is_white_space a) eqn:Ha.
    + exists (a :: pre). split; [by rewrite Hs at 1|].
      split; [cbn; by rewrite Ha|done].
    + exists []. split; [done|]. split; [done|]. by intros c [= <-].
Qed.

Lemma trimStart_blank (s : list N) : trimStart s = [] ↔ blank s = true.
Proof.
  induction s as [|a s IH]; [done|]. cbn [trimStart blank forallb].
  destruct (is_white_space a); [exact IH|done].
Qed.

Lemma blank_app (s t : list N) : blank (s ++ t) = blank s && blank t.
Proof. apply forallb_app. Qed.

Lemma blank_rev (s : list N) : blank (rev s) = blank s.
Proof.
  induction s as [|a s IH]; [done|].
  cbn [rev]. rewrite blank_app, IH. cbn. by rewrite andb_true_r, andb_comm.
Qed.

Lemma trimEnd_spec (s : list N) :
  ∃ post, s = trimEnd s ++ post ∧ blank post = true
          ∧ ∀ c, last (trimEnd s) = Some c → is_white_space c = false.
Proof.
  unfold trimEnd. destruct (trimStart_spec (rev s)) as (pre & Hs & Hpre & Hhead).
  exists (rev pre). split_and!.
  - rewrite <- rev_app_distr, <- Hs. by rewrite rev_involutive.
  - by rewrite blank_rev.
  - intros c Hc. apply Hhead. apply last_Some in Hc as [l Hc].
    rewrite <- (rev_involutive (trimStart (rev s))), Hc, rev_app_distr. done.
Qed.

(** [trim] removes the white space at both ends of the string, and
    nothing else. *)
Lemma trim_spec (s : list N) :
  ∃ pre post, s = pre ++ trim s ++ post
              ∧ blank pre = true ∧ blank post = true
              ∧ no_outer_space (trim s).
Proof.
  unfold trim.
  destruct (trimStart_spec s) as (pre & Hs & Hpre & Hhead).
  destruct (trimEnd_spec (trimStart s)) as (post & Ht & Hpost & Hlast).
  exists pre, post. split_and!; [by rewrite <- Ht|done|done|].
  split; [|done]. intros c Hc. apply Hhead. rewrite Ht.
  destruct (trimEnd (trimStart s)); [done|exact Hc].
Qed.

Lemma trim_blank (s : list N) : trim s = [] ↔ blank s = true.
Proof.
  destruct (trim_spec s) as (pre & post & Hs & Hpre & Hpost & _). split.
  - intros Hempty. rewrite Hs, Hempty, !blank_app, Hpre, Hpost. done.
  - intros Hblank. unfold trim. apply trimStart_blank in Hblank. by rewrite Hblank.
Qed.

Lemma trimStart_id (s : list N) :
  (∀ c, head s = Some c → is_white_space c = false) → trimStart s = s.
Proof. destruct s as [|c s]; [done|]. intros H. cbn. by rewrite (H c). Qed.

(** A string without white space at its ends is its own trim. *)
Lemma trim_id (s : list N) : no_outer_space s → trim s = s.
Proof.
  intros [Hhead Hlast]. unfold trim, trimEnd.
  rewrite (trimStart_id s Hhead), trimStart_id; [apply rev_involutive|].
  intros c Hc. apply Hlast. destruct s as [|a s] using rev_ind; [done|].
  rewrite rev_app_distr in Hc. injection Hc as ->. by rewrite last_snoc.
Qed.

(** ** The fields of a payload *)

(** What [(payload.key || empty).trim()] is when it does not throw. *)
Lemma trimmed_field_Some (payload : JsValue) (key : string) (t : list N) :
  trimmed_field payload key = Some t →
  (truthy (get_prop_optional payload (lit key)) = false ∧ t = [])
  ∨ (∃ s, get_prop_optional payload (lit key) = JsString s ∧ s ≠ [] ∧ t = trim s).
Proof.
  unfold trimmed_field, get_prop_optional.
  destruct (get_prop payload (lit key)) as [v|]; [|done].
  cbn [mbind option_bind default from_option id]. unfold js_or.
  destruct (truthy v) eqn:Hv.
  - destruct v; try done. intros [= <-]. right. exists s.
    split_and!; [done| |done]. intros ->. done.
  - intros [= <-]. by left.
Qed.

Lemma fields_of_Some (payload : JsValue) (f : Fields) :
  fields_of payload = Some f →
  ∀ key, key ∈ field_names → trimmed_field payload key = Some (field f key).
Proof.
  unfold fields_of. intros Hf.
  destruct (trimmed_field payload "name") as [name|] eqn:Hname; [|done].
  destruct (trimmed_field payload "email") as [email|] eqn:Hemail; [|done].
  destruct (trimmed_field payload "message") as [message|] eqn:Hmessage; [|done].
  destruct (trimmed_field payload "turnstileToken") as [token|] eqn:Htoken; [|done].
  cbn in Hf. injection Hf as <-. intros key Hkey. unfold field_names in Hkey.
  repeat (apply elem_of_cons in Hkey as [->|Hkey]; [assumption|]).
  by apply elem_of_nil in Hkey.
Qed.

Lemma all_present_field (f : Fields) :
  all_present f = true ↔ ∀ key, key ∈ field_names → field f key ≠ [].
Proof.
  unfold all_present. rewrite !andb_true_iff. split.
  - intros [[[Hn He] Hm] Ht] key Hkey. unfold field_names in Hkey.
    repeat (apply elem_of_cons in Hkey as [->|Hkey];
            [cbn; intros Heq; rewrite Heq in *; done|]).
    by apply elem_of_nil in Hkey.
  - intros Hall.
    assert (Hne : ∀ key, key ∈ field_names → nonempty (field f key) = true).
    { intros key Hkey. specialize (Hall key Hkey). by destruct (field f key). }
    split_and!; [apply (Hne "name"%string)|apply (Hne "email"%string)
                |apply (Hne "message"%string)|apply (Hne "turnstileToken"%string)];
      unfold field_names; in_list.
Qed.

Lemma without_fields_spec (payload : JsValue) :
  without_fields payload →
  fields_of payload
  = Some {| f_name := []; f_email := []; f_message := []; f_turnstileToken := [] |}.
Proof.
  intros Hp.
  assert (Hget : ∀ key, key ∈ field_names →
                        get_prop payload (lit key) = Some JsUndefined).
  { intros key Hkey. destruct payload; try done.
    cbn [get_prop]. by rewrite (Hp key Hkey). }
  unfold fields_of, trimmed_field.
  rewrite !Hget by (unfold field_names; in_list). reflexivity.
Qed.

(** ** The matcher and the language *)

Lemma lang_Empty (s : list N) : ¬ lang Empty s.
Proof. inversion 1. Qed.

Lemma lang_Eps (s : list N) : lang Eps s ↔ s = [].
Proof. split; [by inversion 1|intros ->; constructor]. Qed.

Lemma lang_Class (p : N → bool) (s : list N) :
  lang (Class p) s ↔ ∃ c, s = [c] ∧ p c = true.
Proof.
  split; [inversion 1; eauto|]. intros (c & -> & Hc). by constructor.
Qed.

Lemma lang_Seq (r1 r2 : regex) (s : list N) :
  lang (Seq r1 r2) s ↔ ∃ s1 s2, s = s1 ++ s2 ∧ lang r1 s1 ∧ lang r2 s2.
Proof.
  split; [inversion 1; eauto|]. intros (s1 & s2 & -> & H1 & H2). by constructor.
Qed.

Lemma lang_Alt (r1 r2 : regex) (s : list N) :
  lang (Alt r1 r2) s ↔ lang r1 s ∨ lang r2 s.
Proof.
  split; [inversion 1; eauto|]. intros [H|H]; [by apply in_alt_l|by apply in_alt_r].
Qed.

(** A non-empty string of a star starts with a non-empty piece. *)
Lemma lang_Star_cons (r : regex) (c : N) (s : list N) :
  lang (Star r) (c :: s)
  ↔ ∃ s1 s2, s = s1 ++ s2 ∧ lang r (c :: s1) ∧ lang (Star r) s2.
Proof.
  split.
  - remember (Star r) as r' eqn:Hr. remember (c :: s) as s' eqn:Hs.
    intros H. revert Hr Hs.
    induction H as [| | | | | |r0 s1 s2 H1 _ H2 IH2]; try done.
    intros [= ->] Hs. destruct s1 as [|c1 s1].
    + by apply IH2.
    + injection Hs as -> <-. by exists s1, s2.
  - intros (s1 & s2 & -> & H1 & H2). by apply (in_star_cons r (c :: s1) s2).
Qed.

Lemma lang_Star_pieces (r : regex) (s : list N) :
  lang (Star r) s ↔ ∃ pieces, s = concat pieces ∧ Forall (lang r) pieces.
Proof.
  split.
  - remember (Star r) as r' eqn:Hr. intros H. revert Hr.
    induction H as [| | | | | |r0 s1 s2 H1 _ H2 IH2]; try done.
    + intros _. by exists [].
    + intros [= ->]. destruct (IH2 eq_refl) as (pieces & -> & Hall).
      exists (s1 :: pieces). split; [done|by constructor].
  - intros (pieces & -> & Hall). induction Hall as [|piece pieces H _ IH].
    + constructor.
    + by apply (in_star_cons r piece (concat pieces)).
Qed.

Lemma nullable_lang (r : regex) : nullable r = true ↔ lang r [].
Proof.
  induction r as [| |p|r1 IH1 r2 IH2|r1 IH1 r2 IH2|r IH]; cbn [nullable].
  - split; [done|]. by intros ?%lang_Empty.
  - split; [constructor|done].
  - split; [done|]. by intros (c & ? & _)%lang_Class.
  - rewrite andb_true_iff, IH1, IH2, lang_Seq. split.
    + intros [H1 H2]. by exists [], [].
    + intros (s1 & s2 & Hs & H1 & H2). symmetry in Hs.
      apply app_eq_nil in Hs as [-> ->]. done.
  - by rewrite orb_true_iff, IH1, IH2, lang_Alt.
  - split; [constructor|done].
Qed.

(** The simplifying constructors of the matcher keep the language. *)
Lemma lang_smart_seq (r1 r2 : regex) (s : list N) :
  lang (seq r1 r2) s ↔ lang (Seq r1 r2) s.
Proof.
  rewrite lang_Seq.
  destruct r1; try (destruct r2; try (cbn [seq]; by rewrite lang_Seq)).
  all: cbn [seq]; split.
  all: try (by intros ?%lang_Empty).
  all: try (by intros (s1 & s2 & _ & ?%lang_Empty & _)).
  all: try (by intros (s1 & s2 & _ & _ & ?%lang_Empty)).
  all: try (intros H; by exists [], s; repeat split; [constructor|]).
  all: try (by intros (s1 & s2 & -> & ->%lang_Eps & ?)).
Qed.

Lemma lang_smart_alt (r1 r2 : regex) (s : list N) :
  lang (alt r1 r2) s ↔ lang (Alt r1 r2) s.
Proof.
  rewrite lang_Alt.
  destruct r1; try (destruct r2; try (cbn [alt]; by rewrite lang_Alt)).
  all: cbn [alt]; split; try (intros [?%lang_Empty|?]); try (intros [?|?%lang_Empty]);
       try done; try (by left); try (by right); eauto.
Qed.

(** The derivative by [c] matches what is left of the strings of the
    expression that start with [c]. *)
Lemma deriv_lang (r : regex) (c : N) (s : list N) :
  lang (deriv c r) s ↔ lang r (c :: s).
Proof.
  revert s. induction r as [| |p|r1 IH1 r2 IH2|r1 IH1 r2 IH2|r IH]; intros s;
    cbn [deriv].
  - split; by intros ?%lang_Empty.
  - split; [by intros ?%lang_Empty|]. by intros ?%lang_Eps.
  - rewrite lang_Class. destruct (p c) eqn:Hc.
    + rewrite lang_Eps. split.
      * intros ->. by exists c.
      * by intros (c' & [= _ ->] & _).
    + split; [by intros ?%lang_Empty|]. intros (c' & [= <- _] & ?). congruence.
  - rewrite lang_smart_alt, lang_Alt, lang_smart_seq, !lang_Seq. split.
    + intros [(s1 & s2 & -> & H1%IH1 & H2)|H].
      * by exists (c :: s1), s2.
      * destruct (nullable r1) eqn:Hn; [|by apply lang_Empty in H].
        apply nullable_lang in Hn. apply IH2 in H. by exists [], (c :: s).
    + intros (s1 & s2 & Hs & H1 & H2). destruct s1 as [|c1 s1].
      * right. cbn in Hs. subst s2.
        rewrite (proj2 (nullable_lang r1) H1). by apply IH2.
      * injection Hs as <- ->. left. exists s1, s2. by rewrite IH1.
  - by rewrite lang_smart_alt, !lang_Alt, IH1, IH2.
  - rewrite lang_smart_seq, lang_Seq, lang_Star_cons. split.
    + intros (s1 & s2 & -> & H1%IH & H2). by exists s1, s2.
    + intros (s1 & s2 & -> & H1%IH & H2). by exists s1, s2.
Qed.

(** The matcher decides the language. *)
Lemma matches_lang (r : regex) (s : list N) : matches r s = true ↔ lang r s.
Proof.
  unfold matches. revert r. induction s as [|c s IH]; intros r; cbn [fold_left].
  - apply nullable_lang.
  - by rewrite IH, deriv_lang.
Qed.

(** ** The classes of the pattern of [isValidEmail] *)

Lemma alnum_iff (c : N) :
  alnum c = true ↔ (97 <= c <= 122 ∨ 65 <= c <= 90 ∨ 48 <= c <= 57)%N.
Proof.
  unfold alnum, range.
  change (lit "a") with [97%N]. change (lit "z") with [122%N].
  change (lit "A") with [65%N]. change (lit "Z") with [90%N].
  change (lit "0") with [48%N]. change (lit "9") with [57%N].
  rewrite !orb_true_iff, !andb_true_iff, !N.leb_le. tauto.
Qed.

Lemma at_sign_iff (c : N) : one_of "@" c = true ↔ c = 64%N.
Proof.
  unfold one_of. change (lit "@") with [64%N]. cbn [existsb].
  by rewrite orb_false_r, N.eqb_eq.
Qed.

Lemma dot_iff (c : N) : one_of "." c = true ↔ c = 46%N.
Proof.
  unfold one_of. change (lit ".") with [46%N]. cbn [existsb].
  by rewrite orb_false_r, N.eqb_eq.
Qed.

Lemma alnum_hyphen_iff (c : N) : alnum_hyphen c = true ↔ alnum c = true ∨ c = 45%N.
Proof.
  unfold alnum_hyphen, one_of. change (lit "-") with [45%N]. cbn [existsb].
  by rewrite orb_true_iff, orb_false_r, N.eqb_eq.
Qed.

Lemma local_char_iff (c : N) :
  local_char c = true
  ↔ alnum c = true
    ∨ c ∈ [46; 33; 35; 36; 37; 38; 39; 42; 43; 47; 61; 63; 94; 95; 96; 123; 124;
           125; 126; 45]%N.
Proof.
  unfold local_char, one_of.
  change (lit ".!#$%&'*+/=?^_`{|}~-")
    with [46; 33; 35; 36; 37; 38; 39; 42; 43; 47; 61; 63; 94; 95; 96; 123; 124;
          125; 126; 45]%N.
  rewrite orb_true_iff, existsb_exists. split.
  - intros [?|(x & Hx%list_elem_of_In & ->%N.eqb_eq)]; [by left|by right].
  - intros [?|Hc]; [by left|]. right. exists c.
    split; [by apply list_elem_of_In|apply N.eqb_refl].
Qed.

Lemma alnum_hyphen_local (c : N) : alnum_hyphen c = true → local_char c = true.
Proof.
  rewrite alnum_hyphen_iff, local_char_iff. intros [? | ->]; [by left|].
  right. in_list.
Qed.

(** The characters of the local part are printable ASCII characters,
    and none of them is a space, an at sign, a double quote, an angle
    bracket, a parenthesis, a comma, a colon, a semicolon, a bracket or
    a backslash. *)
Lemma local_char_printable (c : N) :
  local_char c = true →
  (33 <= c <= 126)%N
  ∧ c ∉ [34; 40; 41; 44; 58; 59; 60; 62; 64; 91; 92; 93]%N.
Proof.
  rewrite local_char_iff, alnum_iff. intros [Hc|Hc].
  - split; [lia|]. intros Hin.
    repeat (apply elem_of_cons in Hin as [->|Hin]; [lia|]).
    by apply elem_of_nil in Hin.
  - repeat (apply elem_of_cons in Hc as [->|Hc];
            [split; [lia|]; by apply (bool_decide_unpack _)|]).
    by apply elem_of_nil in Hc.
Qed.

Lemma printable_is_no_space (c : N) : (33 <= c <= 126)%N → is_white_space c = false.
Proof.
  intros Hc. destruct (is_white_space c) eqn:E; [|done]. exfalso.
  unfold is_white_space in E.
  rewrite !orb_true_iff, !andb_true_iff, !N.eqb_eq, !N.leb_le in E. lia.
Qed.

(** ** The parts of the pattern *)

Lemma lang_star_class (p : N → bool) (s : list N) :
  lang (Star (Class p)) s ↔ Forall (λ c, p c = true) s.
Proof.
  induction s as [|c s IH].
  - split; [constructor|constructor].
  - rewrite lang_Star_cons, Forall_cons. split.
    + intros (s1 & s2 & -> & (c' & [= <- ->] & Hc)%lang_Class & Hs).
      split; [done|]. by apply IH.
    + intros [Hc Hs%IH]. exists [], s. split_and!; [done| |done].
      apply lang_Class. by exists c.
Qed.

Lemma lang_plus_class (p : N → bool) (s : list N) :
  lang (plus (Class p)) s ↔ s ≠ [] ∧ Forall (λ c, p c = true) s.
Proof.
  unfold plus. rewrite lang_Seq. split.
  - intros (s1 & s2 & -> & (c & -> & Hc)%lang_Class & Hs%lang_star_class).
    split; [done|]. by constructor.
  - intros [Hne Hs]. destruct Hs as [|c s Hc Hs]; [done|].
    exists [c], s. split_and!; [done| |by apply lang_star_class].
    apply lang_Class. by exists c.
Qed.

Lemma lang_upto_class (n : nat) (p : N → bool) (s : list N) :
  lang (upto n (Class p)) s ↔ length s <= n ∧ Forall (λ c, p c = true) s.
Proof.
  revert s. induction n as [|n IH]; intros s; cbn [upto].
  - rewrite lang_Eps. split.
    + intros ->. split; [done|constructor].
    + intros [Hlen _]. destruct s; [done|cbn in Hlen; lia].
  - unfold opt. rewrite lang_Alt, lang_Eps, lang_Seq. split.
    + intros [->|(s1 & s2 & -> & (c & -> & Hc)%lang_Class & [Hlen Hs]%IH)].
      * split; [cbn; lia|constructor].
      * split; [cbn; lia|by constructor].
    + intros [Hlen Hs]. destruct Hs as [|c s Hc Hs]; [by left|]. right.
      exists [c], s. split_and!; [done| |].
      * apply lang_Class. by exists c.
      * apply IH. split; [cbn in Hlen; lia|done].
Qed.

(** The expression of a label matches the labels. *)
Lemma lang_label (l : list N) : lang label l ↔ is_label l.
Proof.
  unfold label, opt, is_label.
  rewrite lang_Seq. split.
  - intros (s1 & s2 & -> & (a & -> & Ha)%lang_Class & Hrest).
    apply lang_Alt in Hrest as [->%lang_Eps | Hrest].
    { split_and!; [cbn; lia|cbn; lia| | |].
      - constructor; [|constructor]. apply alnum_hyphen_iff. by left.
      - by intros c [= <-].
      - by intros c [= <-]. }
    apply lang_Seq in Hrest
      as (mid & s3 & -> & [Hlen Hmid]%lang_upto_class & (z & -> & Hz)%lang_Class).
    split_and!.
    + cbn. lia.
    + cbn. rewrite length_app. cbn. lia.
    + constructor; [apply alnum_hyphen_iff; by left|].
      apply Forall_app. split; [done|].
      constructor; [|constructor]. apply alnum_hyphen_iff. by left.
    + by intros c [= <-].
    + intros c. change ([a] ++ mid ++ [z]) with ((a :: mid) ++ [z]).
      rewrite last_snoc. by intros [= <-].
  - intros ([Hmin Hmax] & Hall & Hhead & Hlast).
    destruct l as [|a rest]; [cbn in Hmin; lia|].
    exists [a], rest. split_and!; [done| |].
    { apply lang_Class. exists a. split; [done|]. by apply Hhead. }
    destruct (decide (rest = [])) as [->|Hne].
    { apply in_alt_l. constructor. }
    apply in_alt_r.
    destruct (exists_last Hne) as (mid & z & ->).
    apply Forall_cons in Hall as [_ Hall]. apply Forall_app in Hall as [Hmid _].
    apply lang_Seq. exists mid, [z]. split_and!; [done| |].
    + apply lang_upto_class. split; [|done].
      cbn in Hmax. rewrite length_app in Hmax. cbn in Hmax. lia.
    + apply lang_Class. exists z. split; [done|]. apply Hlast.
      change (a :: mid ++ [z]) with ((a :: mid) ++ [z]). by rewrite last_snoc.
Qed.

Lemma lang_dot_labels (s : list N) :
  lang (Star (Seq (Class (one_of ".")) label)) s
  ↔ ∃ labels, s = concat (List.map (cons 46%N) labels) ∧ Forall is_label labels.
Proof.
  rewrite lang_Star_pieces. split.
  - intros (pieces & -> & Hall).
    induction Hall as [|piece pieces Hpiece _ (labels & Hs & Hlabels)].
    + by exists [].
    + apply lang_Seq in Hpiece
        as (s1 & l & -> & (c & -> & ->%dot_iff)%lang_Class & Hl%lang_label).
      exists (l :: labels). split; [cbn; by rewrite Hs|by constructor].
  - intros (labels & -> & Hall).
    exists (List.map (cons 46%N) labels). split; [done|].
    induction Hall as [|l labels Hl _ IH]; [constructor|].
    cbn [List.map]. constructor; [|done].
    apply (in_seq _ _ [46%N] l); [|by apply lang_label].
    constructor. by apply dot_iff.
Qed.

(** The pattern matches the addresses. *)
Lemma matches_pattern (email : list N) :
  matches pattern email = true ↔ is_address email.
Proof.
  rewrite matches_lang. unfold pattern, is_address.
  rewrite lang_Seq. split.
  - intros (local & s2 & -> & [Hne Hlocal]%lang_plus_class & Hrest).
    apply lang_Seq in Hrest as (s3 & s4 & -> & (c & -> & ->%at_sign_iff)%lang_Class & Hdom).
    apply lang_Seq in Hdom
      as (l & s5 & -> & Hl%lang_label & (labels & -> & Hlabels)%lang_dot_labels).
    exists local, (l :: labels). split_and!; try done. by constructor.
  - intros (local & labels & -> & Hne & Hlocal & Hlabels & Hall).
    destruct Hall as [|l labels Hl Hall]; [done|].
    exists local, ([64%N] ++ join_labels (l :: labels)).
    split_and!; [done|by apply lang_plus_class|].
    apply lang_Seq. exists [64%N], (join_labels (l :: labels)).
    split_and!; [done| |].
    { constructor. by apply at_sign_iff. }
    apply lang_Seq. exists l, (concat (List.map (cons 46%N) labels)).
    split_and!; [done|by apply lang_label|].
    apply lang_dot_labels. by exists labels.
Qed.

(** The labels of an address, joined, hold characters of the class of
    the local part only. *)
Lemma domain_chars (labels : list (list N)) :
  Forall is_label labels →
  Forall (λ c, local_char c = true) (join_labels labels).
Proof.
  intros Hall.
  assert (Hlabel : ∀ l, is_label l → Forall (λ c, local_char c = true) l).
  { intros l (_ & Hl & _). eapply Forall_impl; [exact Hl|].
    intros c Hc. by apply alnum_hyphen_local. }
  destruct Hall as [|l labels Hl Hall]; [constructor|].
  cbn [join_labels]. apply Forall_app. split; [by apply Hlabel|].
  induction Hall as [|l' labels Hl' _ IH]; [constructor|].
  cbn [List.map concat]. apply Forall_app. split; [|done].
  constructor; [by vm_compute|by apply Hlabel].
Qed.

(** Every character of an address is printable ASCII, and none is a
    space, a double quote, an angle bracket, a parenthesis, a comma, a
    colon, a semicolon, a bracket or a backslash. *)
Lemma address_printable (email : list N) :
  is_address email →
  Forall (λ c, (33 <= c <= 126)%N
               ∧ c ∉ [34; 40; 41; 44; 58; 59; 60; 62; 91; 92; 93]%N) email.
Proof.
  intros (local & labels & -> & _ & Hlocal & _ & Hall).
  assert (Hchar : ∀ c, local_char c = true →
            (33 <= c <= 126)%N
            ∧ c ∉ [34; 40; 41; 44; 58; 59; 60; 62; 91; 92; 93]%N).
  { intros c Hc. destruct (local_char_printable c Hc) as [Hrange Hout].
    split; [done|]. intros Hin. apply Hout.
    repeat (apply elem_of_cons in Hin as [->|Hin]; [in_list|]).
    by apply elem_of_nil in Hin. }
  apply Forall_app. split; [by eapply Forall_impl|].
  apply Forall_app. split.
  - constructor; [|constructor]. split; [lia|]. by apply (bool_decide_unpack _).
  - eapply Forall_impl; [exact (domain_chars _ Hall)|done].
Qed.

(** An address holds exactly one at sign. *)
Lemma address_one_at (email : list N) :
  is_address email → length (List.filter (N.eqb 64) email) = 1.
Proof.
  intros (local & labels & -> & _ & Hlocal & _ & Hall).
  assert (Hnone : ∀ s, Forall (λ c, local_char c = true) s
                       → List.filter (N.eqb 64) s = []).
  { intros s Hs. induction Hs as [|c s Hc _ IH]; [done|]. cbn [List.filter].
    destruct (N.eqb_spec 64 c) as [<-|_]; [by vm_compute in Hc|done]. }
  rewrite !List.filter_app, (Hnone _ Hlocal), (Hnone _ (domain_chars _ Hall)).
  reflexivity.
Qed.

(** No character of an address is a CR, an LF or a TAB. *)
Lemma address_clean (email : list N) :
  is_address email → ∀ c, c ∈ email → (c ≠ 13 ∧ c ≠ 10 ∧ c ≠ 9)%N.
Proof.
  intros Haddress c Hc.
  pose proof (address_printable _ Haddress) as Hall.
  rewrite Forall_forall in Hall. destruct (Hall c Hc) as [? _]. lia.
Qed.

(** [isValidEmail] accepts the addresses of 3 to 254 characters, and
    nothing else. *)
Lemma isValidEmail_address (email : list N) :
  isValidEmail email = true ↔ (3 <= str_length email <= 254)%Z ∧ is_address email.
Proof.
  rewrite isValidEmail_iff, matches_pattern. split.
  - by intros (? & _ & ?).
  - intros [? Haddress]. split_and!; [lia|lia|by apply address_clean|done].
Qed.

(* ===================================================================== *)
(** * The statements of the specification *)
(* ===================================================================== *)

(** ** The accepted submission *)

(** C1, as amended.  For a valid submission that gets to the dispatch
    step (a POST whose [Origin] is absent or allowed, the four bindings
    configured, the count read for the client from 0 to 4, a body within
    the size limit that parses, four fields present and passing their
    length and format checks, a verification that succeeded for a
    hostname on the allow-list), the handler makes exactly one dispatch.
    When the [EmailSender] call succeeds, it then makes exactly one
    [KeyValueStore] write; the value written is the count read (0 when
    absent) plus 1, with the window of 3600 seconds as its expiration
    TTL, and when the write goes through, the response is the 200 and
    the namespace holds that value under the key of the client.  When
    the [EmailSender] call fails, there is no write: the response is the
    generic 500 and the namespace is as it was. *)
Theorem accepted_submission_effects (w : World) (request : Request) (env : Env)
    (kv : gmap (list N) KvEntry) (payload : JsValue) (f : Fields) :
  origin_permitted request →
  method request = lit "POST" →
  configured env →
  kv_get_rejects w = false →
  (0 <= stored_count kv request)%Z →
  (stored_count kv request < 5)%Z →
  (str_length (raw_of request) <= MAX_BODY_BYTES)%Z →
  JSON_parse w (raw_of request) = Some payload →
  fields_of payload = Some f →
  all_present f = true →
  name_ok f = true →
  isValidEmail (f_email f) = true →
  message_ok f = true →
  verified (turnstile_of w request env f) = true →
  has_value ALLOWED_TURNSTILE_HOSTNAMES
    (verifiedHostname_of (turnstile_of w request env f)) = true →
  count is_send (events_of w request env kv) = 1
  ∧ (ses_send w (sesClient_of env) (mail_of w request f) = true →
     events_of w request env kv
     = [ EvKvGet (rate_key request);
         EvText;
         EvJsonParse (raw_of request);
         EvSiteverify (formData_for request env f);
         EvSesSend (sesClient_of env) (mail_of w request f);
         EvKvPut (rate_key request) (String_of_Z (stored_count kv request + 1)) 3600 ]
     ∧ count is_put (events_of w request env kv) = 1
     ∧ (kv_put_rejects w = false →
        status (response_of w request env kv) = 200%Z
        ∧ store_after w request env kv
          = <[ rate_key request :=
                 {| kv_value := String_of_Z (stored_count kv request + 1);
                    expirationTtl := 3600 |} ]> kv))
  ∧ (ses_send w (sesClient_of env) (mail_of w request f) = false →
     events_of w request env kv
     = [ EvKvGet (rate_key request);
         EvText;
         EvJsonParse (raw_of request);
         EvSiteverify (formData_for request env f);
         EvSesSend (sesClient_of env) (mail_of w request f) ]
     ∧ count is_put (events_of w request env kv) = 0
     ∧ status (response_of w request env kv) = 500%Z
     ∧ response_body (response_of w request env kv)
       = error_body "Failed to send email. Please try again later."
     ∧ store_after w request env kv = kv).
Proof.
  intros Ho Hm Hc Hget _ Hcount Hsize Hjson Hf Hall Hname Hemail Hmessage Hv Hhost.
  apply under_limit_stored in Hcount.
  assert (Hd : reaches_dispatch w request env kv f).
  { repeat split; try assumption. by exists payload. }
  destruct (ses_send w (sesClient_of env) (mail_of w request f)) eqn:Hsend.
  - destruct (kv_put_rejects w) eqn:Hput.
    + destruct (Exit_run _ _ _ _ _ _ _ (exit_put_rejected _ _ _ _ f Hd Hsend Hput))
        as (Hr & He & Hkv).
      rewrite He. unfold put_of. rewrite newCount_stored.
      split_and!; [reflexivity| |discriminate].
      intros _. split_and!; [reflexivity|reflexivity|discriminate].
    + destruct (Exit_run _ _ _ _ _ _ _ (exit_sent _ _ _ _ f Hd Hsend Hput))
        as (Hr & He & Hkv).
      rewrite He, Hr, Hkv. unfold put_of. rewrite newCount_stored.
      split_and!; [reflexivity| |discriminate].
      intros _. split_and!; [reflexivity|reflexivity|]. intros _. by split.
  - destruct (Exit_run _ _ _ _ _ _ _ (exit_send_rejected _ _ _ _ f Hd Hsend))
      as (-> & -> & ->).
    split_and!; [reflexivity|discriminate|]. intros _. by repeat split.
Qed.

(** The theorem at the submission of the scenario, the namespace empty:
    one mail, one write, and the counter of the client is 1. *)
Lemma accepted_submission_witness :
  count is_send (events_of Sample.world Sample.jo Sample.env ∅) = 1
  ∧ count is_put (events_of Sample.world Sample.jo Sample.env ∅) = 1
  ∧ status (response_of Sample.world Sample.jo Sample.env ∅) = 200%Z
  ∧ store_after Sample.world Sample.jo Sample.env ∅ = Sample.counted 1.
Proof.
  pose proof (accepted_submission_effects Sample.world Sample.jo Sample.env ∅
                Sample.jo_payload Sample.jo_fields) as H.
  discharge H. destruct H as (Hsend & Hsent & _).
  destruct (Hsent eq_refl) as (_ & Hput & Hok).
  destruct (Hok eq_refl) as [Hstatus Hstore].
  split; [exact Hsend|]. split; [exact Hput|]. split; [exact Hstatus|].
  rewrite Hstore. vm_compute. reflexivity.
Defined.

(** C1 as stated fails: the submission of the scenario is valid, it gets
    to the dispatch step, and when SES rejects the send the handler has
    made one dispatch and no [KeyValueStore] write. *)
Lemma valid_submission_without_write :
  reaches_dispatch Sample.world_ses_down Sample.jo Sample.env ∅ Sample.jo_fields
  ∧ (stored_count ∅ Sample.jo < 5)%Z
  ∧ count is_send (events_of Sample.world_ses_down Sample.jo Sample.env ∅) = 1
  ∧ count is_put (events_of Sample.world_ses_down Sample.jo Sample.env ∅) = 0
  ∧ status (response_of Sample.world_ses_down Sample.jo Sample.env ∅) = 500%Z
  ∧ store_after Sample.world_ses_down Sample.jo Sample.env ∅ = ∅.
Proof.
  split_and!; [exists_reach | evaluate ..].
Qed.

(** ** Rejected requests *)

(** C2.  A request rejected with a 4xx status causes no [EmailSender]
    call and no [KeyValueStore] write, so the namespace, and with it the
    counter of the client, is as before; and this stays so however often
    the rejected request is submitted again: every resubmission that is
    rejected too ([ws] lists the worlds of the successive attempts)
    leaves the namespace unchanged and sends nothing. *)
Theorem rejected_resubmission_is_silent (ws : list World) (request : Request)
    (env : Env) (kv : gmap (list N) KvEntry) :
  Forall (λ w, rejected (response_of w request env kv)) ws →
  snd (resubmit ws request env kv) = kv
  ∧ length (fst (resubmit ws request env kv)) = length ws
  ∧ Forall (λ run, rejected (fst run)
                   ∧ count is_send (snd run) = 0
                   ∧ count is_put (snd run) = 0)
           (fst (resubmit ws request env kv)).
Proof.
  induction 1 as [|w ws Hw _ IH]; cbn [resubmit]; [done|].
  destruct (rejected_run_is_silent _ _ _ _ Hw) as (Hsend & Hput & Hkv).
  rewrite Hkv.
  destruct (resubmit ws request env kv) as [rest kv'] eqn:E.
  cbn [fst snd length] in *. destruct IH as (-> & -> & IH).
  split_and!; [done|done|by constructor].
Qed.

(** The theorem at a body that is not JSON, submitted three times. *)
Lemma rejected_resubmission_witness :
  let ws := [Sample.world; Sample.world; Sample.world] in
  Forall (λ w, rejected (response_of w Sample.malformed Sample.env ∅)) ws
  ∧ snd (resubmit ws Sample.malformed Sample.env ∅) = ∅
  ∧ length (fst (resubmit ws Sample.malformed Sample.env ∅)) = 3.
Proof.
  assert (H : Forall (λ w, rejected (response_of w Sample.malformed Sample.env ∅))
                [Sample.world; Sample.world; Sample.world]).
  { assert (Hs : status (response_of Sample.world Sample.malformed Sample.env ∅) = 400%Z)
      by (vm_compute; reflexivity).
    repeat constructor; unfold rejected; rewrite Hs; lia. }
  split; [exact H|].
  destruct (rejected_resubmission_is_silent _ Sample.malformed Sample.env ∅ H)
    as (Hkv & Hlen & _).
  split; [exact Hkv | exact Hlen].
Defined.

(** ** Headers *)

(** C3, as amended.  Every response to a request whose [Origin] is absent
    or on the allow-list, on every path (preflight, 405, the errors of
    the pipeline, the 500 of the catch, the 200), carries the CORS
    headers (the origin echoed exactly when it is on the allow-list, the
    fixed allow-methods, allow-headers and max-age, [Vary: Origin]) and
    the five security headers.  The 403 that answers a disallowed
    [Origin] is sent before these headers are built and carries the
    content type alone. *)
Theorem headers_of_every_response (w : World) (request : Request) (env : Env)
    (kv : gmap (list N) KvEntry) :
  (origin_permitted request →
   has_cors_headers request (response_of w request env kv)
   ∧ has_security_headers (response_of w request env kv))
  ∧ (¬ origin_permitted request →
     status (response_of w request env kv) = 403%Z
     ∧ headers (response_of w request env kv)
       = {[ lit "Content-Type" := lit "application/json; charset=utf-8" ]}).
Proof.
  split.
  - by_exit w request env kv; intros Hp;
      first [ exfalso; contradiction
            | apply extra_headers_cors; intros key Hkey;
              first [reflexivity | by apply json_headers_lookup] ].
  - by_exit w request env kv; intros Hp;
      [ | exfalso; open_reach; contradiction .. ].
    split; [reflexivity|]. unfold json, spread. cbn [headers].
    by rewrite (left_id_L ∅ (∪)).
Qed.

(** The theorem at the submission of the scenario: the 200 carries the
    headers. *)
Lemma headers_of_every_response_witness :
  origin_permitted Sample.jo
  ∧ has_cors_headers Sample.jo (response_of Sample.world Sample.jo Sample.env ∅)
  ∧ has_security_headers (response_of Sample.world Sample.jo Sample.env ∅)
  ∧ status (response_of Sample.world Sample.jo Sample.env ∅) = 200%Z.
Proof.
  assert (H : origin_permitted Sample.jo).
  { right. unfold origin_allowed. apply (bool_decide_unpack _). by vm_compute. }
  split; [exact H|].
  destruct (headers_of_every_response Sample.world Sample.jo Sample.env ∅) as [Hok _].
  destruct (Hok H) as [Hcors Hsec].
  split; [exact Hcors|]. split; [exact Hsec|]. by vm_compute.
Defined.

(** C3 as stated fails: the response to a request from an origin that is
    not on the allow-list is a 403 without [Vary], without any
    [Access-Control-*] header and without any of the security headers. *)
Lemma forbidden_origin_response_has_bare_headers :
  let r := response_of Sample.world Sample.foreign Sample.env ∅ in
  status r = 403%Z
  ∧ headers r !! lit "Vary" = None
  ∧ headers r !! lit "Access-Control-Allow-Methods" = None
  ∧ headers r !! lit "X-Content-Type-Options" = None
  ∧ headers r !! lit "X-Frame-Options" = None
  ∧ headers r !! lit "Content-Security-Policy" = None
  ∧ ¬ (has_cors_headers Sample.foreign r ∧ has_security_headers r).
Proof.
  cbv zeta. split_and!; try (vm_compute; reflexivity).
  intros [_ (H & _)]. revert H. unfold carries. by vm_compute.
Qed.

(** ** The body-size guard *)

(** C4, as amended.  For every POST that gets to the body-size guard (an
    [Origin] that is absent or allowed, the four bindings configured, the
    KV read answered with a count below 5) and whose body text is longer
    than 10,000 UTF-16 code units, the handler returns 413, and it does
    so after reading the body and before any JSON parsing.  An ASCII
    body has as many code units as bytes, so this covers every ASCII
    body of more than 10,000 bytes. *)
Theorem oversized_body_is_rejected_unparsed (w : World) (request : Request)
    (env : Env) (kv : gmap (list N) KvEntry) :
  origin_permitted request →
  method request = lit "POST" →
  configured env →
  kv_get_rejects w = false →
  (stored_count kv request < 5)%Z →
  (str_length (raw_of request) > 10000
   ∨ (Forall (λ b, (Byte.to_N b < 128)%N) (body request)
      ∧ Z.of_nat (length (body request)) > 10000))%Z →
  status (response_of w request env kv) = 413%Z
  ∧ response_body (response_of w request env kv) = error_body "Payload too large"
  ∧ events_of w request env kv = [EvKvGet (rate_key request); EvText]
  ∧ count is_parse (events_of w request env kv) = 0.
Proof.
  intros Ho Hm Hc Hget Hcount Hsize.
  apply under_limit_stored in Hcount.
  assert (Hlong : (str_length (raw_of request) > MAX_BODY_BYTES)%Z).
  { destruct Hsize as [?|[Hascii ?]]; [done|].
    unfold raw_of, str_length. rewrite (decode_ascii _ Hascii), length_map. done. }
  assert (Hb : reaches_body w request env kv) by done.
  destruct (Exit_run _ _ _ _ _ _ _ (exit_too_large _ _ _ _ Hb Hlong)) as (-> & -> & _).
  by repeat split.
Qed.

(** The theorem at a body of 10,001 letters. *)
Lemma oversized_body_witness :
  (Z.of_nat (length (body Sample.oversized)) > 10000)%Z
  ∧ status (response_of Sample.world Sample.oversized Sample.env ∅) = 413%Z
  ∧ count is_parse (events_of Sample.world Sample.oversized Sample.env ∅) = 0.
Proof.
  assert (Hlen : (Z.of_nat (length (body Sample.oversized)) > 10000)%Z)
    by (vm_compute; reflexivity).
  pose proof (oversized_body_is_rejected_unparsed Sample.world Sample.oversized
                Sample.env ∅) as H.
  discharge H. destruct H as (Hs & _ & _ & Hp).
  split; [exact Hlen|]. split; [exact Hs|exact Hp].
Defined.

(** C4 as stated fails: a POST with a body of 10,001 bytes from a client
    whose stored count is 5 is answered 429, the body unread. *)
Lemma oversized_body_of_limited_client :
  method Sample.oversized = lit "POST"
  ∧ (Z.of_nat (length (body Sample.oversized)) > 10000)%Z
  ∧ status (response_of Sample.world Sample.oversized Sample.env (Sample.counted 5))
    = 429%Z
  ∧ events_of Sample.world Sample.oversized Sample.env (Sample.counted 5)
    = [EvKvGet (lit "ratelimit:203.0.113.7")].
Proof. split_and!; evaluate. Qed.

(** The guard measures the decoded text, not the bytes: a body of 10,002
    bytes that decodes to 5,001 code units passes it and is handed to
    the JSON parser. *)
Example multibyte_body_passes_the_guard :
  length (body Sample.multibyte) = Z.to_nat 10002
  ∧ str_length (raw_of Sample.multibyte) = 5001%Z
  ∧ status (response_of Sample.world Sample.multibyte Sample.env ∅) = 400%Z
  ∧ response_body (response_of Sample.world Sample.multibyte Sample.env ∅)
    = error_body "Invalid JSON"
  ∧ count is_parse (events_of Sample.world Sample.multibyte Sample.env ∅) = 1.
Proof. split_and!; evaluate. Qed.

(** ** The rate limit *)

(** C5, as amended.  For every POST that gets to the rate-limit check (an
    [Origin] that is absent or allowed, the four bindings configured, the
    KV read answered): when the count stored for the client is at least
    5 the handler returns 429, having asked KV and nothing else (no body
    read, no verification, no mail, no write); when it is below 5 the
    limiter lets the request through to the reading of the body.  An
    accepted submission raises the stored count by exactly one, so the
    submission accepted at count 4, the fifth, leaves the count at 5,
    and the next POST of that client, the sixth, is answered 429 without
    a mail being sent. *)
Theorem rate_limit_boundary (w : World) (request : Request) (env : Env)
    (kv : gmap (list N) KvEntry) :
  origin_permitted request →
  method request = lit "POST" →
  configured env →
  kv_get_rejects w = false →
  ((5 <= stored_count kv request)%Z →
   status (response_of w request env kv) = 429%Z
   ∧ response_body (response_of w request env kv)
     = error_body "Rate limit exceeded. Please try again in an hour."
   ∧ events_of w request env kv = [EvKvGet (rate_key request)]
   ∧ store_after w request env kv = kv)
  ∧ ((stored_count kv request < 5)%Z →
     status (response_of w request env kv) ≠ 429%Z
     ∧ EvText ∈ events_of w request env kv)
  ∧ (stored_count kv request = 4%Z →
     status (response_of w request env kv) = 200%Z →
     stored_count (store_after w request env kv) request = 5%Z
     ∧ ∀ w' request',
         origin_permitted request' →
         method request' = lit "POST" →
         kv_get_rejects w' = false →
         client_ip request' = client_ip request →
         status (response_of w' request' env (store_after w request env kv)) = 429%Z
         ∧ count is_send (events_of w' request' env (store_after w request env kv)) = 0).
Proof.
  intros Ho Hm Hc Hget.
  assert (Hr : reaches_rate_check request env) by done.
  assert (Hlimited : ∀ w' request' kv',
    origin_permitted request' → method request' = lit "POST" →
    kv_get_rejects w' = false → (5 <= stored_count kv' request')%Z →
    Exit w' request' env kv'
      (error_response request' "Rate limit exceeded. Please try again in an hour." 429)
      (events_read request') kv').
  { intros w' request' kv' ? ? ? Hfive. apply over_limit_stored in Hfive.
    by apply exit_rate_limited. }
  split_and!.
  - intros Hfive.
    destruct (Exit_run _ _ _ _ _ _ _ (Hlimited w request kv Ho Hm Hget Hfive))
      as (-> & -> & ->).
    by repeat split.
  - intros Hunder. apply under_limit_stored in Hunder. revert Hunder.
    by_exit w request env kv; intros Hunder; cbn [status error_response json];
      try (exfalso; clash); (split; [discriminate|]);
      in_list.
  - intros Hfour Hok.
    destruct (accepted_run_counts _ _ _ _ Hok) as [Hcount _].
    rewrite Hfour in Hcount. split; [exact Hcount|].
    intros w' request' Ho' Hm' Hget' Hip.
    assert (Hfive : (5 <= stored_count (store_after w request env kv) request')%Z).
    { unfold stored_count, submissionCount_of, rate_key in *. rewrite Hip, Hcount. lia. }
    destruct (Exit_run _ _ _ _ _ _ _ (Hlimited w' request' _ Ho' Hm' Hget' Hfive))
      as (-> & -> & _).
    by split.
Qed.

(** The theorem at a client whose count is 5, and the six successive
    submissions of the scenario from an empty namespace: five are
    accepted, the sixth is answered 429 and sends nothing. *)
Lemma rate_limit_boundary_witness :
  (5 <= stored_count (Sample.counted 5) Sample.jo)%Z
  ∧ status (response_of Sample.world Sample.jo Sample.env (Sample.counted 5)) = 429%Z
  ∧ events_of Sample.world Sample.jo Sample.env (Sample.counted 5)
    = [EvKvGet (lit "ratelimit:203.0.113.7")]
  ∧ List.map (λ run, (status (fst run), count is_send (snd run)))
      (fst (resubmit (repeat Sample.world 6) Sample.jo Sample.env ∅))
    = [(200%Z, 1); (200%Z, 1); (200%Z, 1); (200%Z, 1); (200%Z, 1); (429%Z, 0)].
Proof.
  assert (Hfive : (5 <= stored_count (Sample.counted 5) Sample.jo)%Z) by evaluate.
  pose proof (rate_limit_boundary Sample.world Sample.jo Sample.env (Sample.counted 5)) as H.
  discharge H. destruct H as (Hlimited & _ & _).
  destruct (Hlimited Hfive) as (Hs & _ & He & _).
  split; [exact Hfive|]. split; [exact Hs|]. split; [exact He|].
  vm_compute. reflexivity.
Defined.

(** C5 as stated fails: a POST of a client whose stored count is 5, sent
    from an origin that is not on the allow-list, is answered 403 before
    the count is looked at. *)
Lemma limited_client_from_forbidden_origin :
  method Sample.foreign = lit "POST"
  ∧ stored_count (Sample.counted 5) Sample.foreign = 5%Z
  ∧ status (response_of Sample.world Sample.foreign Sample.env (Sample.counted 5))
    = 403%Z
  ∧ events_of Sample.world Sample.foreign Sample.env (Sample.counted 5) = [].
Proof. split_and!; evaluate. Qed.

(** ** Token verification *)

(** C6.  Whenever the verifier was called and answered with a reply
    whose [success] is [true] and whose [hostname] is not a string of
    the allow-list (no hostname at all included), the handler returns
    400 with the message of the invalid verification context, and it
    sends no mail and writes nothing. *)
Theorem foreign_hostname_is_rejected (w : World) (request : Request) (env : Env)
    (kv : gmap (list N) KvEntry) (formData : list (list N * list N))
    (reply : HttpReply) (result : JsValue) :
  EvSiteverify formData ∈ events_of w request env kv →
  siteverify w formData = Some reply →
  ok reply = true →
  JSON_parse w (reply_text reply) = Some result →
  get_prop result (lit "success") = Some (JsBool true) →
  (∀ h, get_prop result (lit "hostname") = Some (JsString h)
        → h ∉ ALLOWED_TURNSTILE_HOSTNAMES) →
  status (response_of w request env kv) = 400%Z
  ∧ response_body (response_of w request env kv)
    = error_body "Invalid verification context"
  ∧ count is_send (events_of w request env kv) = 0
  ∧ count is_put (events_of w request env kv) = 0.
Proof.
  intros Hin Hreply Hok Hjson Hsuccess Hhost.
  destruct (siteverify_event_inv _ _ _ _ _ Hin) as (f & -> & Hreach).
  assert (Hresult : turnstile_of w request env f = result).
  { unfold turnstile_of, siteverify_result. by rewrite Hreply, Hok, Hjson. }
  assert (Hverified : verified (turnstile_of w request env f) = true).
  { rewrite Hresult. unfold verified, get_prop_optional. by rewrite Hsuccess. }
  assert (Hforeign : has_value ALLOWED_TURNSTILE_HOSTNAMES
                       (verifiedHostname_of (turnstile_of w request env f)) = false).
  { rewrite Hresult. unfold verifiedHostname_of, js_or.
    destruct (get_prop result (lit "hostname")) as [[| |b|x|h|items|props]|] eqn:E;
      cbn [default from_option id]; try done; try (by destruct (truthy _)).
    cbn [truthy]. destruct h as [|c h]; [done|]. cbn [nonempty has_value].
    unfold has. apply bool_decide_eq_false. by apply Hhost. }
  destruct (Exit_run _ _ _ _ _ _ _
              (exit_bad_hostname _ _ _ _ f Hreach Hverified Hforeign)) as (-> & -> & _).
  by repeat split.
Qed.

(** The theorem at a verifier that accepts the token for another site. *)
Lemma foreign_hostname_witness :
  status (response_of Sample.world_other_site Sample.jo Sample.env ∅) = 400%Z
  ∧ response_body (response_of Sample.world_other_site Sample.jo Sample.env ∅)
    = error_body "Invalid verification context"
  ∧ count is_send (events_of Sample.world_other_site Sample.jo Sample.env ∅) = 0.
Proof.
  pose proof (foreign_hostname_is_rejected Sample.world_other_site Sample.jo
                Sample.env ∅
                (formData_for Sample.jo Sample.env Sample.jo_fields)
                {| ok := true;
                   reply_text := litq "{'success':true,'hostname':'elsewhere.example'}" |}
                (JsObject [(lit "success", JsBool true);
                           (lit "hostname", JsString (lit "elsewhere.example"))])) as H.
  assert (Hin : EvSiteverify (formData_for Sample.jo Sample.env Sample.jo_fields)
                ∈ events_of Sample.world_other_site Sample.jo Sample.env ∅).
  { assert (He : events_of Sample.world_other_site Sample.jo Sample.env ∅
                 = events_verified Sample.jo Sample.env Sample.jo_fields)
      by (vm_compute; reflexivity).
    rewrite He. apply elem_of_app. right. by apply list_elem_of_singleton. }
  specialize (H Hin). discharge H.
  assert (Hhost : ∀ h,
            get_prop (JsObject [(lit "success", JsBool true);
                                (lit "hostname", JsString (lit "elsewhere.example"))])
              (lit "hostname") = Some (JsString h)
            → h ∉ ALLOWED_TURNSTILE_HOSTNAMES).
  { intros h Hh. vm_compute in Hh. injection Hh as <-.
    apply (bool_decide_unpack _). vm_compute. exact I. }
  destruct (H Hhost) as (Hs & Hb & Hn & _).
  split; [exact Hs|]. split; [exact Hb|exact Hn].
Defined.

(** ** The mail *)

(** C7.  Whenever a mail is sent, its two bodies are built from the
    trimmed [name], [email] and [message] of the parsed payload, the
    timestamp, the client IP and the user agent: the HTML body is the
    template with each of the six values passed through [escapeHtml],
    which replaces each ampersand, less-than, greater-than, double quote
    and single quote by its entity and keeps every other character, and
    the text body is the template with name, email and message as they
    are.  So a message that contains the script tag is in the HTML body
    with the tag escaped and in the text body with the tag verbatim. *)
Theorem mail_escapes_user_values (w : World) (request : Request) (env : Env)
    (kv : gmap (list N) KvEntry) (client : SESClientConfig) (params : SendEmailParams) :
  EvSesSend client params ∈ events_of w request env kv →
  ∃ payload f,
    JSON_parse w (raw_of request) = Some payload
    ∧ fields_of payload = Some f
    ∧ Html params
      = html_body (f_name f) (f_email f) (f_message f) (toISOString_now w)
          (client_ip request) (user_agent request)
    ∧ Text params
      = text_body (f_name f) (f_email f) (f_message f) (toISOString_now w)
          (client_ip request) (user_agent request)
    ∧ (∀ v, v ∈ [f_name f; f_email f; f_message f; toISOString_now w;
                 client_ip request; user_agent request] →
            includes (Html params) (escapeHtml v) = true)
    ∧ (∀ v, v ∈ [f_name f; f_email f; f_message f] →
            includes (Text params) v = true)
    ∧ (∀ c s, escapeHtml (c :: s)
              = (if (c =? 38)%N then lit "&amp;"
                 else if (c =? 60)%N then lit "&lt;"
                 else if (c =? 62)%N then lit "&gt;"
                 else if (c =? 34)%N then lit "&quot;"
                 else if (c =? 39)%N then lit "&#39;"
                 else [c]) ++ escapeHtml s)
    ∧ (includes (f_message f) (lit "<script>alert(1)</script>") = true →
       includes (Html params) (lit "&lt;script&gt;alert(1)&lt;/script&gt;") = true
       ∧ includes (Text params) (lit "<script>alert(1)</script>") = true).
Proof.
  intros Hin.
  destruct (send_event_inv _ _ _ _ _ _ Hin) as (f & -> & -> & Hreach).
  assert (Hpayload : ∃ payload, JSON_parse w (raw_of request) = Some payload
                                ∧ fields_of payload = Some f).
  { open_reach. eauto. }
  destruct Hpayload as (payload & Hjson & Hf).
  exists payload, f.
  destruct (mail_parts (f_name f) (f_email f) (f_message f) (toISOString_now w)
              (client_ip request) (user_agent request)) as [Hhtml Htext].
  split_and!; try done.
  - intros c s. rewrite escapeHtml_cons. unfold html_special.
    destruct (N.eqb_spec c 38) as [->|?]; [done|].
    destruct (N.eqb_spec c 60) as [->|?]; [done|].
    destruct (N.eqb_spec c 62) as [->|?]; [done|].
    destruct (N.eqb_spec c 34) as [->|?]; [done|].
    destruct (N.eqb_spec c 39) as [->|?]; done.
  - intros Hscript. split.
    + apply (includes_trans _ (escapeHtml (f_message f))).
      * apply Hhtml. in_list.
      * apply includes_iff in Hscript as (pre & post & ->).
        rewrite !escapeHtml_app. apply includes_iff.
        by exists (escapeHtml pre), (escapeHtml post).
    + apply (includes_trans _ (f_message f)); [|done]. apply Htext. in_list.
Qed.

(** The theorem at a submission whose message is the script tag. *)
Lemma mail_escapes_witness :
  let mail := mail_of Sample.world Sample.script Sample.script_fields in
  EvSesSend (sesClient_of Sample.env) mail
  ∈ events_of Sample.world Sample.script Sample.env ∅
  ∧ includes (Html mail) (lit "&lt;script&gt;alert(1)&lt;/script&gt;") = true
  ∧ includes (Text mail) (lit "<script>alert(1)</script>") = true
  ∧ includes (Html mail) (lit "<script>") = false.
Proof.
  cbv zeta.
  assert (Hin : EvSesSend (sesClient_of Sample.env)
                  (mail_of Sample.world Sample.script Sample.script_fields)
                ∈ events_of Sample.world Sample.script Sample.env ∅).
  { match goal with |- _ ∈ ?e =>
      assert (He : e = events_sent Sample.world Sample.script Sample.env
                         Sample.script_fields ++ [put_of ∅ Sample.script])
        by (vm_compute; reflexivity)
    end.
    rewrite He. in_list. }
  split; [exact Hin|].
  destruct (mail_escapes_user_values _ _ _ _ _ _ Hin)
    as (payload & f & Hjson & Hf & _ & _ & _ & _ & _ & Hscript).
  assert (Hfields : f = Sample.script_fields).
  { vm_compute in Hjson. injection Hjson as <-. vm_compute in Hf.
    injection Hf as <-. reflexivity. }
  subst f.
  destruct (Hscript ltac:(vm_compute; reflexivity)) as [Hhtml Htext].
  split; [exact Hhtml|]. split; [exact Htext|]. vm_compute. reflexivity.
Defined.

(** ** Field validation *)

(** C8.  For a submission that gets to the field validation (its body
    parsed, its four fields non-empty after trimming), the fields the
    rules are applied to are the strings of the payload with the white
    space at both ends removed, and nothing else removed.  The rules
    are tried in the order name, email, message, and the first that
    fails answers 400 with its own message, before any verification: a
    name shorter than 2 or longer than 100 characters is rejected (so 1
    and 101 are), one of 2 to 100 characters passes (so 2 and 100 do);
    then an email that [isValidEmail] refuses is rejected; then a
    message shorter than 10 or longer than 2000 characters is rejected
    (9, 2001), one of 10 to 2000 passes (10, 2000) and the handler goes
    on to verify the token.  The characters counted are UTF-16 code
    units, as [length] counts them.  [isValidEmail] accepts exactly the
    strings of 3 to 254 characters without CR, LF or TAB that match the
    pattern, which are the strings of 3 to 254 characters made of a
    local part of one or more characters of its class, an at sign, and
    one or more labels joined by dots, each of 1 to 63 letters, digits
    and hyphens with no hyphen at its start or end: it accepts [a@b.co]
    and refuses every email that contains a newline. *)
Theorem field_validation_boundaries (w : World) (request : Request) (env : Env)
    (kv : gmap (list N) KvEntry) (raw : list N) (payload : JsValue) (f : Fields) :
  EvJsonParse raw ∈ events_of w request env kv →
  JSON_parse w raw = Some payload →
  fields_of payload = Some f →
  all_present f = true →
  let r := response_of w request env kv in
  let verification_started :=
    EvSiteverify (formData_for request env f) ∈ events_of w request env kv in
  let stopped := count is_siteverify (events_of w request env kv) = 0 in
  (f_name f = field f "name" ∧ f_email f = field f "email"
   ∧ f_message f = field f "message"
   ∧ ∀ key, key ∈ field_names →
       ∃ s pre post,
         get_prop payload (lit key) = Some (JsString s)
         ∧ s = pre ++ field f key ++ post
         ∧ blank pre = true ∧ blank post = true
         ∧ field f key ≠ [] ∧ no_outer_space (field f key)
         ∧ field f key = trim s)
  ∧ ((str_length (f_name f) < 2 ∨ 100 < str_length (f_name f))%Z →
     status r = 400%Z
     ∧ response_body r = error_body "Name must be between 2 and 100 characters"
     ∧ stopped)
  ∧ ((2 <= str_length (f_name f) <= 100)%Z →
     (isValidEmail (f_email f) = false →
      status r = 400%Z
      ∧ response_body r = error_body "Invalid email address"
      ∧ stopped)
     ∧ (isValidEmail (f_email f) = true →
        ((str_length (f_message f) < 10 ∨ 2000 < str_length (f_message f))%Z →
         status r = 400%Z
         ∧ response_body r = error_body "Message must be between 10 and 2000 characters"
         ∧ stopped)
        ∧ ((10 <= str_length (f_message f) <= 2000)%Z → verification_started)))
  ∧ isValidEmail (lit "a@b.co") = true
  ∧ (∀ email, 10%N ∈ email → isValidEmail email = false)
  ∧ (∀ email, isValidEmail email = true
              ↔ (3 <= str_length email <= 254)%Z
                ∧ (∀ c, c ∈ email → c ≠ 13 ∧ c ≠ 10 ∧ c ≠ 9)%N
                ∧ matches pattern email = true)
  ∧ (∀ email, isValidEmail email = true
              ↔ (3 <= str_length email <= 254)%Z ∧ is_address email).
Proof.
  intros Hin Hjson Hf Hall. cbv zeta.
  destruct (parse_event_inv _ _ _ _ _ Hin) as [-> Hparse].
  assert (Hreach : reaches_validation w request env kv f).
  { split; [|done]. by exists payload. }
  split_and!.
  - reflexivity.
  - reflexivity.
  - reflexivity.
  - intros key Hkey.
    pose proof (proj1 (all_present_field f) Hall key Hkey) as Hne.
    destruct (trimmed_field_Some _ _ _ (fields_of_Some _ _ Hf key Hkey))
      as [[_ Hempty]|(s & Hs & _ & Htrim)]; [done|].
    destruct (trim_spec s) as (pre & post & Hparts & Hpre & Hpost & Houter).
    exists s, pre, post. rewrite Htrim.
    split_and!; try done; [|by rewrite <- Htrim].
    unfold get_prop_optional in Hs.
    by destruct (get_prop payload (lit key)) as [v|]; cbn in Hs; subst.
  - intros Hname.
    assert (Hbad : name_ok f = false).
    { destruct (name_ok f) eqn:E; [|done]. apply name_ok_iff in E. lia. }
    destruct (Exit_run _ _ _ _ _ _ _ (exit_bad_name _ _ _ _ f Hreach Hbad))
      as (-> & -> & _).
    by repeat split.
  - intros Hname%name_ok_iff. split.
    + intros Hemail.
      destruct (Exit_run _ _ _ _ _ _ _ (exit_bad_email _ _ _ _ f Hreach Hname Hemail))
        as (-> & -> & _).
      by repeat split.
    + intros Hemail. split.
      * intros Hmessage.
        assert (Hbad : message_ok f = false).
        { destruct (message_ok f) eqn:E; [|done]. apply message_ok_iff in E. lia. }
        destruct (Exit_run _ _ _ _ _ _ _
                    (exit_bad_message _ _ _ _ f Hreach Hname Hemail Hbad))
          as (-> & -> & _).
        by repeat split.
      * intros Hmessage%message_ok_iff.
        assert (Hv : reaches_verification w request env kv f) by done.
        clear Hin. revert Hv.
        by_exit w request env kv; intros Hv; try (exfalso; clash);
          open_reach; simplify_eq;
          in_list.
  - by vm_compute.
  - intros email Hnl. destruct (isValidEmail email) eqn:E; [|done].
    apply isValidEmail_iff in E as (_ & Hclean & _).
    by destruct (Hclean _ Hnl) as (_ & ? & _).
  - apply isValidEmail_iff.
  - apply isValidEmail_address.
Qed.

(** The theorem at a submission whose fields are padded with white
    space: the fields validated are those of the scenario, the name has
    exactly two characters, and the handler goes on to the
    verification; a string with a space and two at signs is no email. *)
Lemma field_validation_witness :
  get_prop Sample.padded_payload (lit "name") = Some (JsString (lit "  Jo "))
  ∧ fields_of Sample.padded_payload = Some Sample.jo_fields
  ∧ str_length (f_name Sample.jo_fields) = 2%Z
  ∧ EvSiteverify (formData_for Sample.padded Sample.env Sample.jo_fields)
    ∈ events_of Sample.world Sample.padded Sample.env ∅
  ∧ isValidEmail (lit "a@b.co") = true
  ∧ isValidEmail (lit "a b@@<x>") = false.
Proof.
  pose proof (field_validation_boundaries Sample.world Sample.padded Sample.env ∅
                (raw_of Sample.padded) Sample.padded_payload Sample.jo_fields) as H.
  assert (Hin : EvJsonParse (raw_of Sample.padded)
                ∈ events_of Sample.world Sample.padded Sample.env ∅).
  { match goal with |- _ ∈ ?e =>
      assert (He : e = events_sent Sample.world Sample.padded Sample.env Sample.jo_fields
                       ++ [put_of ∅ Sample.padded]) by (vm_compute; reflexivity)
    end.
    rewrite He. in_list. }
  specialize (H Hin). discharge H. cbv zeta in H.
  destruct H as (_ & _ & Hname & Hab & _ & _ & _).
  assert (Hlen : (2 <= str_length (f_name Sample.jo_fields) <= 100)%Z)
    by (vm_compute; split; discriminate).
  destruct (Hname Hlen) as (_ & Hemail).
  assert (Hvalid : isValidEmail (f_email Sample.jo_fields) = true) by evaluate.
  destruct (Hemail Hvalid) as (_ & Hmessage).
  assert (Hmlen : (10 <= str_length (f_message Sample.jo_fields) <= 2000)%Z)
    by (vm_compute; split; discriminate).
  split_and!; [evaluate|evaluate|evaluate|exact (Hmessage Hmlen)|exact Hab|evaluate].
Defined.

(** The boundaries, one run each: the name and the message are strings
    of the given number of letters, everything else is valid. *)
Example field_boundaries_run :
  let named n :=
    status (response_of Sample.world
              (Sample.submission (Sample.letters n) "a@b.co" "Hello there, this works!" "tok")
              Sample.env ∅) in
  let messaged n :=
    status (response_of Sample.world
              (Sample.submission "Jo" "a@b.co" (Sample.letters n) "tok")
              Sample.env ∅) in
  (named 1, named 2, named 100, named 101) = (400, 200, 200, 400)%Z
  ∧ (messaged 9, messaged 10, messaged (Z.to_nat 2000), messaged (Z.to_nat 2001))
    = (400, 200, 200, 400)%Z.
Proof. cbv zeta. split; vm_compute; reflexivity. Qed.

(** A newline inside the email, as the JSON escape sequence for it. *)
Example email_with_newline_run :
  Sample.answer "{'name':'Jo','email':'jo@exam\nple.com','message':'Hello there, this works!','turnstileToken':'tok'}"
  = 400%Z
  ∧ isValidEmail (lit "jo@exam" ++ [10%N] ++ lit "ple.com") = false.
Proof. split; vm_compute; reflexivity. Qed.

(** ** The output of [escapeHtml] *)

(** C9.  For every string [s], [escapeHtml s] holds none of the
    characters less-than (60), greater-than (62), double quote (34) and
    single quote (39), and every ampersand (38) in it is the first
    character of one of the five entities the function writes. *)
Theorem escapeHtml_output_is_inert (s : list N) :
  (∀ c, c ∈ escapeHtml s → (c ≠ 60 ∧ c ≠ 62 ∧ c ≠ 34 ∧ c ≠ 39)%N)
  ∧ (∀ i, escapeHtml s !! i = Some 38%N →
          ∃ entity, entity ∈ entities ∧ entity `prefix_of` drop i (escapeHtml s)).
Proof.
  induction s as [|c s [IHchars IHamp]].
  { change (escapeHtml []) with (@nil N). split.
    - by intros c Hc%elem_of_nil.
    - intros i Hi. by rewrite lookup_nil in Hi. }
  rewrite escapeHtml_cons.
  destruct (escape_piece c) as [(Hentity & tail & Hpiece & Htail) | (Hpiece & Hc)];
    cbv zeta in *; rewrite Hpiece in *; clear Hpiece; split.
  - intros d [Hd|Hd]%elem_of_app; [|by apply IHchars].
    apply elem_of_cons in Hd as [->|Hd]; [by repeat split|].
    rewrite Forall_forall in Htail. destruct (Htail d Hd) as (?&?&?&?&?). done.
  - intros i Hi. destruct i as [|i].
    { exists (38%N :: tail). split; [done|]. by apply prefix_app_r. }
    cbn [app lookup] in Hi. change ((tail ++ escapeHtml s) !! i = Some 38%N) in Hi.
    apply lookup_app_Some in Hi as [Hi|[Hlen Hi]].
    + rewrite Forall_forall in Htail.
      destruct (Htail 38%N) as [? _]; [by eapply list_elem_of_lookup_2|done].
    + destruct (IHamp _ Hi) as (entity & ? & Hprefix).
      exists entity. split; [done|].
      change (entity `prefix_of` drop (S i) (38%N :: tail ++ escapeHtml s)).
      cbn [drop]. by rewrite drop_app_ge by lia.
  - intros d [Hd|Hd]%elem_of_app; [|by apply IHchars].
    apply list_elem_of_singleton in Hd as ->. by destruct Hc as (?&?&?&?&?).
  - intros i Hi. destruct i as [|i].
    { cbn in Hi. destruct Hc as [Hc _]. congruence. }
    exact (IHamp i Hi).
Qed.

(** ** Payloads that make [trim] throw *)

(** C10.  When the body parsed to [null], or to a value one of whose
    four fields is truthy and not a string, the handler returns the 500
    with the generic failure message (and not a 400): the [trim] call
    throws and the catch-all answers.  No verification is attempted and
    no mail is sent. *)
Theorem unusable_payload_gives_500 (w : World) (request : Request) (env : Env)
    (kv : gmap (list N) KvEntry) (raw : list N) (payload : JsValue) :
  EvJsonParse raw ∈ events_of w request env kv →
  JSON_parse w raw = Some payload →
  (payload = JsNull
   ∨ ∃ key v, key ∈ ["name"; "email"; "message"; "turnstileToken"]%string
              ∧ get_prop payload (lit key) = Some v
              ∧ truthy v = true
              ∧ ∀ s, v ≠ JsString s) →
  status (response_of w request env kv) = 500%Z
  ∧ response_body (response_of w request env kv)
    = error_body "Failed to send email. Please try again later."
  ∧ count is_siteverify (events_of w request env kv) = 0
  ∧ count is_send (events_of w request env kv) = 0.
Proof.
  intros Hin Hjson Hbad.
  destruct (parse_event_inv _ _ _ _ _ Hin) as [-> Hparse].
  assert (Hreach : reaches_fields w request env kv payload) by done.
  assert (Hnone : fields_of payload = None).
  { destruct Hbad as [->|(key & v & Hkey & Hget & Htruthy & Hstring)]; [done|].
    apply (fields_of_none _ key Hkey). unfold trimmed_field, js_or.
    rewrite Hget. cbn. rewrite Htruthy.
    destruct v; try done. by destruct (Hstring s). }
  destruct (Exit_run _ _ _ _ _ _ _ (exit_field_throws _ _ _ _ payload Hreach Hnone))
    as (-> & -> & _).
  by repeat split.
Qed.

(** The theorem at the body [null]. *)
Lemma unusable_payload_witness :
  let null_body := Sample.post "https://raduhhr.xyz" (Utf8.bytes_of "null") in
  JSON_parse Sample.world (raw_of null_body) = Some JsNull
  ∧ status (response_of Sample.world null_body Sample.env ∅) = 500%Z
  ∧ response_body (response_of Sample.world null_body Sample.env ∅)
    = error_body "Failed to send email. Please try again later.".
Proof.
  cbv zeta.
  pose proof (unusable_payload_gives_500 Sample.world
                (Sample.post "https://raduhhr.xyz" (Utf8.bytes_of "null"))
                Sample.env ∅ (lit "null") JsNull) as H.
  assert (Hin : EvJsonParse (lit "null")
                ∈ events_of Sample.world
                    (Sample.post "https://raduhhr.xyz" (Utf8.bytes_of "null"))
                    Sample.env ∅).
  { match goal with |- _ ∈ ?e =>
      assert (He : e = [EvKvGet (lit "ratelimit:203.0.113.7"); EvText;
                        EvJsonParse (lit "null")]) by (vm_compute; reflexivity)
    end. rewrite He. in_list. }
  specialize (H Hin). discharge H.
  destruct (H (or_introl eq_refl)) as (Hs & Hb & _).
  split; [vm_compute; reflexivity|]. split; [exact Hs|exact Hb].
Defined.

(** A number as the name, an array as the message: 500 as well; a
    payload that is not an object, or whose fields are falsy, gets the
    400 of the missing fields. *)
Example payload_shapes :
  Sample.answer "{'name':42,'email':'jo@example.com','message':'Hello there, this works!','turnstileToken':'tok'}" = 500%Z
  ∧ Sample.answer "{'name':'Jo','email':'jo@example.com','message':['Hello there'],'turnstileToken':'tok'}" = 500%Z
  ∧ Sample.answer "{'name':'Jo','email':'jo@example.com','message':'Hello there, this works!','turnstileToken':true}" = 500%Z
  ∧ Sample.answer "{'name':0,'email':'jo@example.com','message':'Hello there, this works!','turnstileToken':'tok'}" = 400%Z
  ∧ Sample.answer "{'name':null,'email':false}" = 400%Z
  ∧ Sample.answer "42" = 400%Z
  ∧ Sample.answer "[]" = 400%Z
  ∧ Sample.answer "null" = 500%Z.
Proof. split_and!; vm_compute; reflexivity. Qed.

(* ===================================================================== *)
(** * Further properties of the handler *)
(* ===================================================================== *)

(** ** The origin gate, the preflight and the method *)

(** X1.  A request whose [Origin] header is not empty and not on the
    allow-list is answered 403, whatever its method and body, before
    anything is asked of the outside. *)
Theorem forbidden_origin_is_refused (w : World) (request : Request) (env : Env)
    (kv : gmap (list N) KvEntry) :
  origin_of request ≠ [] →
  origin_of request ∉ ALLOWED_ORIGINS →
  status (response_of w request env kv) = 403%Z
  ∧ response_body (response_of w request env kv) = error_body "Forbidden origin"
  ∧ events_of w request env kv = []
  ∧ store_after w request env kv = kv.
Proof.
  intros Hne Hout.
  assert (Hno : ¬ origin_permitted request) by (by intros [?|?]).
  destruct (Exit_run _ _ _ _ _ _ _ (exit_forbidden_origin w request env kv Hno))
    as (-> & -> & ->).
  by repeat split.
Qed.

(** The theorem at a POST from an origin that is not on the list. *)
Lemma forbidden_origin_witness :
  status (response_of Sample.world Sample.foreign Sample.env ∅) = 403%Z
  ∧ events_of Sample.world Sample.foreign Sample.env ∅ = [].
Proof.
  destruct (forbidden_origin_is_refused Sample.world Sample.foreign Sample.env ∅)
    as (Hs & _ & He & _).
  - vm_compute. discriminate.
  - apply (bool_decide_eq_false_1 _). vm_compute. reflexivity.
  - split; [exact Hs|exact He].
Defined.

(** X2.  A preflight ([OPTIONS]) from an origin on the allow-list, or
    without origin, is answered 204 with no body and with the CORS and
    security headers, the allowed origin echoed. *)
Theorem preflight_is_204 (w : World) (request : Request) (env : Env)
    (kv : gmap (list N) KvEntry) :
  origin_permitted request →
  method request = lit "OPTIONS" →
  status (response_of w request env kv) = 204%Z
  ∧ response_body (response_of w request env kv) = None
  ∧ has_cors_headers request (response_of w request env kv)
  ∧ has_security_headers (response_of w request env kv)
  ∧ events_of w request env kv = [].
Proof.
  intros Ho Hm.
  destruct (Exit_run _ _ _ _ _ _ _ (exit_preflight w request env kv Ho Hm))
    as (Hr & -> & _).
  rewrite Hr.
  destruct (extra_headers_cors request
              {| status := 204; headers := extra_headers request;
                 response_body := None |}) as [Hcors Hsec]; [done|].
  split_and!; [reflexivity|reflexivity|exact Hcors|exact Hsec|reflexivity].
Qed.

(** The theorem at a preflight from an allowed origin. *)
Lemma preflight_witness :
  let preflight :=
    {| method := lit "OPTIONS";
       headers_get := Sample.headers_of [("Origin", "https://www.raduhhr.xyz")]%string;
       body := [] |} in
  status (response_of Sample.world preflight Sample.env ∅) = 204%Z
  ∧ headers (response_of Sample.world preflight Sample.env ∅)
    !! lit "Access-Control-Allow-Origin" = Some (lit "https://www.raduhhr.xyz").
Proof.
  cbv zeta.
  pose proof (preflight_is_204 Sample.world
                {| method := lit "OPTIONS";
                   headers_get := Sample.headers_of [("Origin", "https://www.raduhhr.xyz")]%string;
                   body := [] |} Sample.env ∅) as H.
  discharge H. destruct H as (Hs & _ & (Hecho & _) & _).
  split; [exact Hs|]. apply Hecho. evaluate.
Defined.

(** X3.  A request with any method other than [OPTIONS] and [POST], from
    an origin that is absent or allowed, is answered 405 with the CORS
    and security headers; nothing is asked of the outside and the
    namespace is left as it was. *)
Theorem other_methods_get_405 (w : World) (request : Request) (env : Env)
    (kv : gmap (list N) KvEntry) :
  origin_permitted request →
  method request ≠ lit "OPTIONS" →
  method request ≠ lit "POST" →
  status (response_of w request env kv) = 405%Z
  ∧ response_body (response_of w request env kv) = error_body "Method Not Allowed"
  ∧ has_cors_headers request (response_of w request env kv)
  ∧ has_security_headers (response_of w request env kv)
  ∧ events_of w request env kv = []
  ∧ store_after w request env kv = kv.
Proof.
  intros Ho Hopt Hpost.
  destruct (Exit_run _ _ _ _ _ _ _
              (exit_method_not_allowed w request env kv Ho Hopt Hpost))
    as (Hr & -> & ->).
  rewrite Hr.
  destruct (extra_headers_cors request (error_response request "Method Not Allowed" 405))
    as [Hcors Hsec].
  { intros key Hkey. by apply json_headers_lookup. }
  split_and!; [reflexivity|reflexivity|exact Hcors|exact Hsec|reflexivity|reflexivity].
Qed.

(** The theorem at a GET from an allowed origin. *)
Lemma other_methods_witness :
  status (response_of Sample.world Sample.get Sample.env ∅) = 405%Z
  ∧ events_of Sample.world Sample.get Sample.env ∅ = [].
Proof.
  pose proof (other_methods_get_405 Sample.world Sample.get Sample.env ∅) as H.
  discharge H. destruct H as (Hs & _ & _ & _ & He & _).
  split; [exact Hs|exact He].
Defined.

(** ** Bindings that are missing or fail *)

(** X4.  A POST that passed the origin gate while a binding is missing
    is answered with the generic 500 before KV is asked. *)
Theorem missing_binding_gives_500 (w : World) (request : Request) (env : Env)
    (kv : gmap (list N) KvEntry) :
  origin_permitted request →
  method request = lit "POST" →
  ¬ configured env →
  status (response_of w request env kv) = 500%Z
  ∧ response_body (response_of w request env kv)
    = error_body "Failed to send email. Please try again later."
  ∧ events_of w request env kv = [].
Proof.
  intros Ho Hm Hc.
  assert (Ht : reaches_try request) by done.
  destruct (Exit_run _ _ _ _ _ _ _ (exit_not_configured w request env kv Ht Hc))
    as (-> & -> & _).
  by repeat split.
Qed.

(** The theorem at an environment without the Turnstile secret. *)
Lemma missing_binding_witness :
  status (response_of Sample.world Sample.jo Sample.env_without_secret ∅) = 500%Z
  ∧ events_of Sample.world Sample.jo Sample.env_without_secret ∅ = [].
Proof.
  destruct (missing_binding_gives_500 Sample.world Sample.jo
              Sample.env_without_secret ∅) as (Hs & _ & He).
  - evaluate.
  - evaluate.
  - intros (H & _). vm_compute in H. discriminate H.
  - split; [exact Hs|exact He].
Defined.

(** X5.  When the read of the counter rejects, the handler answers the
    generic 500 at once: the body is not read, no verification is
    attempted, no mail is sent and nothing is written. *)
Theorem kv_read_failure_gives_500 (w : World) (request : Request) (env : Env)
    (kv : gmap (list N) KvEntry) :
  origin_permitted request →
  method request = lit "POST" →
  configured env →
  kv_get_rejects w = true →
  status (response_of w request env kv) = 500%Z
  ∧ response_body (response_of w request env kv)
    = error_body "Failed to send email. Please try again later."
  ∧ events_of w request env kv = [EvKvGet (rate_key request)]
  ∧ store_after w request env kv = kv.
Proof.
  intros Ho Hm Hc Hget.
  assert (Hr : reaches_rate_check request env) by done.
  destruct (Exit_run _ _ _ _ _ _ _ (exit_get_rejected w request env kv Hr Hget))
    as (-> & -> & ->).
  by repeat split.
Qed.

(** The theorem at the submission of the scenario, KV rejecting reads. *)
Lemma kv_read_failure_witness :
  status (response_of Sample.world_kv_read_down Sample.jo Sample.env ∅) = 500%Z
  ∧ events_of Sample.world_kv_read_down Sample.jo Sample.env ∅
    = [EvKvGet (lit "ratelimit:203.0.113.7")].
Proof.
  pose proof (kv_read_failure_gives_500 Sample.world_kv_read_down Sample.jo
                Sample.env ∅) as H.
  discharge H. destruct H as (Hs & _ & He & _).
  split; [exact Hs|exact He].
Defined.

(** ** The scenario of the specification *)

(** The scenario of the specification, evaluated: the submission of Jo
    from an allowed origin, the verifier answering for [raduhhr.xyz],
    the client under the limit, gets 200 with the success body; one mail
    is sent, with the fixed subject, sender, recipient and reply-to, and
    the counter of the client is written once, as 1 with a TTL of
    3600. *)
Example scenario_of_the_specification :
  let r := response_of Sample.world Sample.jo Sample.env ∅ in
  let events := events_of Sample.world Sample.jo Sample.env ∅ in
  status r = 200%Z
  ∧ response_body r = Some (litq "{'success':'Email sent successfully!'}")
  ∧ List.filter is_send events
    = [EvSesSend (sesClient_of Sample.env)
         (mail_of Sample.world Sample.jo Sample.jo_fields)]
  ∧ Subject (mail_of Sample.world Sample.jo Sample.jo_fields)
    = lit "New Contact Form Submission"
  ∧ Source (mail_of Sample.world Sample.jo Sample.jo_fields) = lit "raduhrr@gmail.com"
  ∧ ToAddresses (mail_of Sample.world Sample.jo Sample.jo_fields)
    = [lit "vladdulgher@yahoo.com"]
  ∧ ReplyToAddresses (mail_of Sample.world Sample.jo Sample.jo_fields)
    = [lit "raduhhr@yahoo.com"]
  ∧ List.filter is_put events = [EvKvPut (lit "ratelimit:203.0.113.7") (lit "1") 3600].
Proof. cbv zeta. split_and!; vm_compute; reflexivity. Qed.

(** ** The order of the effects *)

(** X6.  In every run each outside service is asked at most once: at
    most one KV read, one verification, one mail, one KV write; a write
    happens only in a run that sent its mail, and after it. *)
Theorem effects_happen_at_most_once (w : World) (request : Request) (env : Env)
    (kv : gmap (list N) KvEntry) :
  count is_get (events_of w request env kv) <= 1
  ∧ count is_text (events_of w request env kv) <= 1
  ∧ count is_parse (events_of w request env kv) <= 1
  ∧ count is_siteverify (events_of w request env kv) <= 1
  ∧ count is_send (events_of w request env kv) <= 1
  ∧ count is_put (events_of w request env kv) <= 1
  ∧ (∀ key value ttl,
       EvKvPut key value ttl ∈ events_of w request env kv →
       ∃ before client params,
         events_of w request env kv
         = before ++ [EvSesSend client params; EvKvPut key value ttl]
         ∧ ses_send w client params = true).
Proof.
  by_exit w request env kv;
    (split_and!; [cbn; lia ..|]); intros key value ttl Hin; in_log Hin;
    injection Hin as -> -> ->;
    exists (events_verified request env f), (sesClient_of env), (mail_of w request f);
    (split; [|done]); unfold events_sent, put_of; by rewrite <- app_assoc.
Qed.

(** X7.  The effects of a run come in the order of the source: the log
    of every run is an initial part of the sequence KV read, body read,
    JSON parse, verification, mail, KV write.  So the body is read only
    after the counter, the verifier is asked only after the body was
    parsed, and the mail is sent only after the verification. *)
Theorem effects_follow_the_pipeline (w : World) (request : Request) (env : Env)
    (kv : gmap (list N) KvEntry) :
  Forall2 (λ kind e, kind e = true)
    (take (length (events_of w request env kv)) pipeline)
    (events_of w request env kv).
Proof.
  by_exit w request env kv;
    unfold events_sent, events_verified, events_parsed, events_read, put_of, pipeline;
    cbn [app length take]; repeat constructor.
Qed.

(** ** The counter *)

Lemma rate_key_inj (request request' : Request) :
  rate_key request = rate_key request' → client_ip request = client_ip request'.
Proof. unfold rate_key. apply app_inv_head. Qed.

(** A run leaves every key but the one of its client as it was. *)
Lemma store_after_frame (w : World) (request : Request) (env : Env)
    (kv : gmap (list N) KvEntry) (key : list N) :
  key ≠ rate_key request → store_after w request env kv !! key = kv !! key.
Proof.
  by_exit w request env kv; intros Hkey; try reflexivity.
  by rewrite lookup_insert_ne.
Qed.

Lemma store_after_unless_ok (w : World) (request : Request) (env : Env)
    (kv : gmap (list N) KvEntry) :
  status (response_of w request env kv) ≠ 200%Z → store_after w request env kv = kv.
Proof. by_exit w request env kv; cbn [status json]; done. Qed.

Lemma ok_under_limit (w : World) (request : Request) (env : Env)
    (kv : gmap (list N) KvEntry) :
  status (response_of w request env kv) = 200%Z → (stored_count kv request < 5)%Z.
Proof.
  by_exit w request env kv; cbn [status json error_response]; intros Hs;
    try discriminate Hs.
  apply under_limit_stored. open_reach. done.
Qed.

Lemma stored_count_same_client (kv : gmap (list N) KvEntry) (request request' : Request) :
  client_ip request' = client_ip request →
  stored_count kv request' = stored_count kv request.
Proof. intros Hip. unfold stored_count, submissionCount_of, rate_key. by rewrite Hip. Qed.

Lemma stored_count_other_client (w : World) (request request' : Request) (env : Env)
    (kv : gmap (list N) KvEntry) :
  client_ip request' ≠ client_ip request →
  stored_count (store_after w request' env kv) request = stored_count kv request.
Proof.
  intros Hip. unfold stored_count, submissionCount_of.
  rewrite store_after_frame; [done|].
  intros Heq. by apply Hip, rate_key_inj.
Qed.

(** One run seen from the client of [request]: the count moves by one
    exactly when the run is an accepted one of that client, and such a
    run starts below the limit. *)
Lemma stored_count_step (w : World) (request request' : Request) (env : Env)
    (kv : gmap (list N) KvEntry) :
  let accepted := bool_decide (client_ip request' = client_ip request)
                  && (status (response_of w request' env kv) =? 200)%Z in
  stored_count (store_after w request' env kv) request
  = (stored_count kv request + if accepted then 1 else 0)%Z
  ∧ (accepted = true → (stored_count kv request < 5)%Z).
Proof.
  cbv zeta.
  destruct (decide (client_ip request' = client_ip request)) as [Hip|Hip].
  - rewrite (bool_decide_eq_true_2 _ Hip). cbn [andb].
    rewrite <- !(stored_count_same_client _ _ _ Hip).
    destruct (Z.eqb_spec (status (response_of w request' env kv)) 200) as [Hok|Hno].
    + destruct (accepted_run_counts _ _ _ _ Hok) as [-> _].
      split; [done|]. intros _. by apply (ok_under_limit w _ env).
    + rewrite (store_after_unless_ok _ _ _ _ Hno). split; [lia|done].
  - rewrite (bool_decide_eq_false_2 _ Hip). cbn [andb].
    rewrite (stored_count_other_client _ _ _ _ _ Hip). split; [lia|done].
Qed.

(** X8.  Within the safe integers the counter survives the round trip
    through the namespace: for every integer from -2^53 to 2^53,
    [parseInt] reads back the integer that [String] wrote.  So a run
    that read a count that is not negative and ends with the 200 leaves
    the count of the client exactly one higher, between 1 and 5, and
    has sent exactly one mail and written once. *)
Theorem accepted_run_raises_count_by_one (w : World) (request : Request) (env : Env)
    (kv : gmap (list N) KvEntry) :
  (0 <= stored_count kv request)%Z →
  status (response_of w request env kv) = 200%Z →
  stored_count (store_after w request env kv) request
  = (stored_count kv request + 1)%Z
  ∧ (1 <= stored_count (store_after w request env kv) request <= 5)%Z
  ∧ count is_send (events_of w request env kv) = 1
  ∧ count is_put (events_of w request env kv) = 1
  ∧ (∀ n, (- 2 ^ 53 <= n <= 2 ^ 53)%Z → parseInt (String_of_Z n) = Some n).
Proof.
  intros Hpos Hok.
  destruct (accepted_run_counts _ _ _ _ Hok) as [Hcount Hsend].
  pose proof (ok_under_limit _ _ _ _ Hok) as Hunder.
  split_and!; [done|lia|lia|done| |intros n _; apply parseInt_String_of_Z].
  revert Hok.
  by_exit w request env kv; cbn [status error_response json]; intros Hs;
    try discriminate Hs. reflexivity.
Qed.

(** The theorem at the submission of the scenario, the namespace empty:
    the count goes from 0 to 1. *)
Lemma accepted_run_witness :
  stored_count ∅ Sample.jo = 0%Z
  ∧ stored_count (store_after Sample.world Sample.jo Sample.env ∅) Sample.jo = 1%Z
  ∧ count is_put (events_of Sample.world Sample.jo Sample.env ∅) = 1.
Proof.
  assert (Hzero : stored_count ∅ Sample.jo = 0%Z) by (vm_compute; reflexivity).
  split; [exact Hzero|].
  pose proof (accepted_run_raises_count_by_one Sample.world Sample.jo Sample.env ∅) as H.
  discharge H. destruct H as (Hcount & _ & _ & Hput & _).
  rewrite Hzero in Hcount. split; [exact Hcount|exact Hput].
Defined.

(** X9.  Over any sequence of requests, of this client and of others, in
    any worlds, served one after the other on one namespace (no entry
    expiring in between): the count stored for a client moves up by
    exactly the number of its requests that were answered 200, and that
    number is at most 5 less the count at the start; a client that
    starts at 0 gets at most five 200s.  The count at the start is not
    negative, as every count the handler wrote is. *)
Theorem counter_counts_accepted (runs : list (World * Request)) (env : Env)
    (kv : gmap (list N) KvEntry) (request : Request) :
  (0 <= stored_count kv request)%Z →
  let accepted :=
    Z.of_nat (length (accepted_of (client_ip request) (fst (serve runs env kv)))) in
  stored_count (snd (serve runs env kv)) request
  = (stored_count kv request + accepted)%Z
  ∧ (accepted <= Z.max 0 (5 - stored_count kv request))%Z
  ∧ (stored_count kv request = 0%Z → (accepted <= 5)%Z).
Proof.
  intros Hpos. cbv zeta.
  enough (stored_count (snd (serve runs env kv)) request
          = (stored_count kv request
             + Z.of_nat (length (accepted_of (client_ip request)
                                   (fst (serve runs env kv)))))%Z
          ∧ (Z.of_nat (length (accepted_of (client_ip request)
                                 (fst (serve runs env kv))))
             <= Z.max 0 (5 - stored_count kv request))%Z) as [? ?] by (split_and!; lia).
  clear Hpos. revert kv. induction runs as [|[w request'] runs IH]; intros kv.
  { cbn. lia. }
  cbn [serve].
  destruct (stored_count_step w request request' env kv) as [Hstep Hunder].
  specialize (IH (store_after w request' env kv)).
  destruct (serve runs env (store_after w request' env kv)) as [rest kv'].
  cbn [fst snd] in *. unfold accepted_of in *. cbn [List.filter fst snd].
  destruct IH as [IHcount IHbound]. rewrite IHcount, Hstep.
  destruct (bool_decide (client_ip request' = client_ip request)
            && (status (response_of w request' env kv) =? 200)%Z).
  - specialize (Hunder eq_refl). cbn [length]. lia.
  - lia.
Qed.

(** The theorem at the submission of the scenario sent seven times to an
    empty namespace: five are accepted and the count ends at 5. *)
Lemma counter_counts_witness :
  let runs := repeat (Sample.world, Sample.jo) 7 in
  Z.of_nat (length (accepted_of (client_ip Sample.jo) (fst (serve runs Sample.env ∅))))
  = 5%Z
  ∧ stored_count (snd (serve runs Sample.env ∅)) Sample.jo = 5%Z.
Proof.
  cbv zeta.
  assert (Hfive : Z.of_nat (length (accepted_of (client_ip Sample.jo)
                    (fst (serve (repeat (Sample.world, Sample.jo) 7) Sample.env ∅))))
                  = 5%Z) by (vm_compute; reflexivity).
  split; [exact Hfive|].
  pose proof (counter_counts_accepted (repeat (Sample.world, Sample.jo) 7)
                Sample.env ∅ Sample.jo) as H.
  discharge H. cbv zeta in H. destruct H as (Hcount & _).
  rewrite Hcount, Hfive. reflexivity.
Defined.

(** X10.  A run reads and writes no key of the namespace but the one of
    its own client, [ratelimit:] followed by the [CF-Connecting-IP]
    header (or by [unknown]); every other entry is left as it was, so
    the count of every other client is unchanged. *)
Theorem other_clients_are_untouched (w : World) (request : Request) (env : Env)
    (kv : gmap (list N) KvEntry) :
  (∀ key, EvKvGet key ∈ events_of w request env kv → key = rate_key request)
  ∧ (∀ key value ttl,
       EvKvPut key value ttl ∈ events_of w request env kv → key = rate_key request)
  ∧ (∀ key, key ≠ rate_key request →
            store_after w request env kv !! key = kv !! key)
  ∧ (∀ request', client_ip request' ≠ client_ip request →
       submissionCount_of (store_after w request env kv) request'
       = submissionCount_of kv request'
       ∧ stored_count (store_after w request env kv) request'
         = stored_count kv request').
Proof.
  split_and!.
  - by_exit w request env kv; intros key Hin; in_log Hin; by injection Hin.
  - by_exit w request env kv; intros key value ttl Hin; in_log Hin; by injection Hin.
  - apply store_after_frame.
  - intros request' Hip.
    assert (Hkey : rate_key request' ≠ rate_key request).
    { intros Heq. by apply Hip, rate_key_inj. }
    unfold stored_count, submissionCount_of. by rewrite (store_after_frame _ _ _ _ _ Hkey).
Qed.

(** ** The outcome of the dispatch *)

(** X11.  The status of a response is one of 200, 204, 400, 403, 405,
    413, 429 and 500.  It is 200 exactly when the mail was handed to SES
    with success and the write of the counter went through, and exactly
    then the body is the success message; after any other response the
    namespace is as it was. *)
Theorem ok_means_sent_and_counted (w : World) (request : Request) (env : Env)
    (kv : gmap (list N) KvEntry) :
  status (response_of w request env kv) ∈ [200; 204; 400; 403; 405; 413; 429; 500]%Z
  ∧ (status (response_of w request env kv) = 200%Z
     ↔ (∃ client params,
          EvSesSend client params ∈ events_of w request env kv
          ∧ ses_send w client params = true)
       ∧ kv_put_rejects w = false)
  ∧ (status (response_of w request env kv) = 200%Z
     ↔ response_body (response_of w request env kv)
       = Some (litq "{'success':'Email sent successfully!'}"))
  ∧ (status (response_of w request env kv) ≠ 200%Z
     → store_after w request env kv = kv).
Proof.
  by_exit w request env kv; cbn [status response_body json error_response];
    (split_and!;
     [ repeat first [ apply list_elem_of_here | apply list_elem_of_further ]
     | split; [discriminate || idtac | intros [(client & params & Hin & Hsent) Hput];
                                        in_log Hin; try congruence;
                                        try (injection Hin as -> ->; congruence) ]
     | split; [discriminate || idtac | try discriminate]
     | try done ]).
  - intros _. split; [|done].
    exists (sesClient_of env), (mail_of w request f). split; [in_list|done].
  - reflexivity.
  - reflexivity.
Qed.

(** X12.  When SES rejects the send, the handler answers the generic
    500, and the counter of the client is not touched: the failed
    attempt does not count against the limit. *)
Theorem failed_send_is_not_counted (w : World) (request : Request) (env : Env)
    (kv : gmap (list N) KvEntry) (client : SESClientConfig) (params : SendEmailParams) :
  EvSesSend client params ∈ events_of w request env kv →
  ses_send w client params = false →
  status (response_of w request env kv) = 500%Z
  ∧ response_body (response_of w request env kv)
    = error_body "Failed to send email. Please try again later."
  ∧ count is_send (events_of w request env kv) = 1
  ∧ count is_put (events_of w request env kv) = 0
  ∧ store_after w request env kv = kv.
Proof.
  intros Hin Hsend.
  destruct (send_event_inv _ _ _ _ _ _ Hin) as (f & -> & -> & Hreach).
  destruct (Exit_run _ _ _ _ _ _ _ (exit_send_rejected _ _ _ _ f Hreach Hsend))
    as (-> & -> & ->).
  by repeat split.
Qed.

(** The theorem at the submission of the scenario, SES rejecting. *)
Lemma failed_send_witness :
  status (response_of Sample.world_ses_down Sample.jo Sample.env ∅) = 500%Z
  ∧ count is_put (events_of Sample.world_ses_down Sample.jo Sample.env ∅) = 0
  ∧ store_after Sample.world_ses_down Sample.jo Sample.env ∅ = ∅.
Proof.
  pose proof (failed_send_is_not_counted Sample.world_ses_down Sample.jo Sample.env ∅
                (sesClient_of Sample.env)
                (mail_of Sample.world_ses_down Sample.jo Sample.jo_fields)) as H.
  assert (Hin : EvSesSend (sesClient_of Sample.env)
                  (mail_of Sample.world_ses_down Sample.jo Sample.jo_fields)
                ∈ events_of Sample.world_ses_down Sample.jo Sample.env ∅).
  { match goal with |- _ ∈ ?e =>
      assert (He : e = events_sent Sample.world_ses_down Sample.jo Sample.env
                         Sample.jo_fields) by (vm_compute; reflexivity)
    end. rewrite He. in_list. }
  specialize (H Hin). discharge H. destruct H as (Hs & _ & _ & Hp & Hkv).
  split; [exact Hs|]. split; [exact Hp|exact Hkv].
Defined.

(** X13.  When the write of the counter rejects, the mail has already
    been sent: the handler answers the generic 500 although SES accepted
    the mail, and the count of the client stays as it was. *)
Theorem failed_write_after_send (w : World) (request : Request) (env : Env)
    (kv : gmap (list N) KvEntry) (key value : list N) (ttl : Z) :
  EvKvPut key value ttl ∈ events_of w request env kv →
  kv_put_rejects w = true →
  status (response_of w request env kv) = 500%Z
  ∧ response_body (response_of w request env kv)
    = error_body "Failed to send email. Please try again later."
  ∧ (∃ client params,
       EvSesSend client params ∈ events_of w request env kv
       ∧ ses_send w client params = true)
  ∧ count is_send (events_of w request env kv) = 1
  ∧ store_after w request env kv = kv.
Proof.
  by_exit w request env kv; intros Hin Hput; in_log Hin; try congruence.
  split_and!; [reflexivity|reflexivity| |reflexivity|reflexivity].
  exists (sesClient_of env), (mail_of w request f). split; [in_list|done].
Qed.

(** The theorem at the submission of the scenario, KV rejecting writes. *)
Lemma failed_write_witness :
  status (response_of Sample.world_kv_write_down Sample.jo Sample.env ∅) = 500%Z
  ∧ count is_send (events_of Sample.world_kv_write_down Sample.jo Sample.env ∅) = 1
  ∧ store_after Sample.world_kv_write_down Sample.jo Sample.env ∅ = ∅.
Proof.
  pose proof (failed_write_after_send Sample.world_kv_write_down Sample.jo Sample.env ∅
                (lit "ratelimit:203.0.113.7") (lit "1") 3600) as H.
  assert (Hin : EvKvPut (lit "ratelimit:203.0.113.7") (lit "1") 3600
                ∈ events_of Sample.world_kv_write_down Sample.jo Sample.env ∅).
  { match goal with |- _ ∈ ?e =>
      assert (He : e = events_sent Sample.world_kv_write_down Sample.jo Sample.env
                         Sample.jo_fields
                       ++ [EvKvPut (lit "ratelimit:203.0.113.7") (lit "1") 3600])
        by (vm_compute; reflexivity)
    end. rewrite He. in_list. }
  specialize (H Hin). discharge H. destruct H as (Hs & _ & _ & Hn & Hkv).
  split; [exact Hs|]. split; [exact Hn|exact Hkv].
Defined.

(** ** The verification *)



(** What a secret that passed the sanity check is. *)
Lemma missing_false (x : option (list N)) :
  missing x = false → x = Some (or_else x []) ∧ or_else x [] ≠ [].
Proof. by destruct x as [[|c s]|]. Qed.

(** X15.  Whenever the verifier is asked, the form it is sent holds the
    configured secret, then the trimmed, non-empty [turnstileToken] of
    the parsed payload as [response], and then the client address as
    [remoteip] exactly when the request has a [CF-Connecting-IP] header
    that is neither empty nor the word [unknown]. *)
Theorem verifier_is_asked_with (w : World) (request : Request) (env : Env)
    (kv : gmap (list N) KvEntry) (formData : list (list N * list N)) :
  EvSiteverify formData ∈ events_of w request env kv →
  ∃ payload token secret,
    JSON_parse w (raw_of request) = Some payload
    ∧ trimmed_field payload "turnstileToken" = Some token
    ∧ token ≠ []
    ∧ TURNSTILE_SECRET_KEY env = Some secret
    ∧ formData
      = [(lit "secret", secret); (lit "response", token)]
        ++ match headers_get request (lit "CF-Connecting-IP") with
           | Some (c :: ip) =>
               if bool_decide (c :: ip = lit "unknown") then []
               else [(lit "remoteip", c :: ip)]
           | Some [] | None => []
           end.
Proof.
  intros Hin.
  destruct (siteverify_event_inv _ _ _ _ _ Hin) as (f & -> & Hreach).
  open_reach.
  match goal with H : configured env |- _ => destruct H as (Hsecret & _) end.
  apply missing_false in Hsecret as [Hsecret _].
  match goal with H : fields_of ?p = Some f |- _ => rename H into Hf; exists p end.
  exists (f_turnstileToken f), (or_else (TURNSTILE_SECRET_KEY env) []).
  unfold fields_of in Hf.
  destruct (trimmed_field _ "name") as [name|]; [|done].
  destruct (trimmed_field _ "email") as [email|]; [|done].
  destruct (trimmed_field _ "message") as [message|]; [|done].
  destruct (trimmed_field _ "turnstileToken") as [token|] eqn:Htoken; [|done].
  cbn in Hf. injection Hf as <-. cbn [f_turnstileToken] in *.
  match goal with H : all_present _ = true |- _ => rename H into Hall end.
  unfold all_present in Hall. cbn [f_name f_email f_message f_turnstileToken] in Hall.
  split_and!; try done.
  - intros ->. by rewrite !andb_false_r in Hall.
  - unfold formData_for, formData_of, client_ip. cbn [f_turnstileToken].
    f_equal.
    destruct (headers_get request (lit "CF-Connecting-IP")) as [[|c ip]|];
      cbn [or_else nonempty andb]; try done.
    by destruct (bool_decide (c :: ip = lit "unknown")).
Qed.

(** The theorem at the submission of the scenario. *)
Lemma verifier_is_asked_witness :
  EvSiteverify [(lit "secret", lit "turnstile-secret"); (lit "response", lit "tok");
                (lit "remoteip", lit "203.0.113.7")]
  ∈ events_of Sample.world Sample.jo Sample.env ∅
  ∧ TURNSTILE_SECRET_KEY Sample.env = Some (lit "turnstile-secret").
Proof.
  assert (Hin : EvSiteverify [(lit "secret", lit "turnstile-secret");
                              (lit "response", lit "tok");
                              (lit "remoteip", lit "203.0.113.7")]
                ∈ events_of Sample.world Sample.jo Sample.env ∅).
  { match goal with |- _ ∈ ?e =>
      assert (He : e = events_sent Sample.world Sample.jo Sample.env Sample.jo_fields
                       ++ [put_of ∅ Sample.jo]) by (vm_compute; reflexivity)
    end. rewrite He. in_list. }
  split; [exact Hin|].
  destruct (verifier_is_asked_with _ _ _ _ _ Hin)
    as (payload & token & secret & _ & _ & _ & Hsecret & Hform).
  injection Hform as <- _. exact Hsecret.
Defined.

(** ** The mail *)

(** X16.  Every mail the handler sends has the fixed sender, recipient,
    reply-to and subject of the source, whatever the request holds; the
    SES client is built with the two AWS secrets of the environment, and
    with [AWS_REGION] as its region, or [eu-north-1] when that variable
    is unset or empty. *)
Theorem mail_envelope_is_fixed (w : World) (request : Request) (env : Env)
    (kv : gmap (list N) KvEntry) (client : SESClientConfig) (params : SendEmailParams) :
  EvSesSend client params ∈ events_of w request env kv →
  Source params = lit "raduhrr@gmail.com"
  ∧ ToAddresses params = [lit "vladdulgher@yahoo.com"]
  ∧ ReplyToAddresses params = [lit "raduhhr@yahoo.com"]
  ∧ Subject params = lit "New Contact Form Submission"
  ∧ AWS_ACCESS_KEY_ID env = Some (accessKeyId client)
  ∧ AWS_SECRET_ACCESS_KEY env = Some (secretAccessKey client)
  ∧ region client = match AWS_REGION env with
                    | Some (c :: r) => c :: r
                    | Some [] | None => lit "eu-north-1"
                    end.
Proof.
  intros Hin.
  destruct (send_event_inv _ _ _ _ _ _ Hin) as (f & -> & -> & Hreach).
  open_reach.
  match goal with H : configured env |- _ => destruct H as (_ & Hid & Hkey & _) end.
  apply missing_false in Hid as [Hid _]. apply missing_false in Hkey as [Hkey _].
  split_and!; try reflexivity; assumption.
Qed.

(** The theorem at the submission of the scenario. *)
Lemma mail_envelope_witness :
  let mail := mail_of Sample.world Sample.jo Sample.jo_fields in
  EvSesSend (sesClient_of Sample.env) mail
  ∈ events_of Sample.world Sample.jo Sample.env ∅
  ∧ Source mail = lit "raduhrr@gmail.com"
  ∧ ToAddresses mail = [lit "vladdulgher@yahoo.com"]
  ∧ region (sesClient_of Sample.env) = lit "eu-north-1".
Proof.
  cbv zeta.
  assert (Hin : EvSesSend (sesClient_of Sample.env)
                  (mail_of Sample.world Sample.jo Sample.jo_fields)
                ∈ events_of Sample.world Sample.jo Sample.env ∅).
  { match goal with |- _ ∈ ?e =>
      assert (He : e = events_sent Sample.world Sample.jo Sample.env Sample.jo_fields
                       ++ [put_of ∅ Sample.jo]) by (vm_compute; reflexivity)
    end. rewrite He. in_list. }
  destruct (mail_envelope_is_fixed _ _ _ _ _ _ Hin) as (Hs & Ht & _ & _ & _ & _ & Hr).
  split; [exact Hin|]. split; [exact Hs|]. split; [exact Ht|exact Hr].
Defined.



(** ** Fields that are missing *)

(** X18.  When the payload was parsed and reading its fields did not
    throw, a field that is absent, falsy ([null], [false], 0, the empty
    string) or a string of white space only makes the handler answer 400
    with the message that all fields are required; the verifier is not
    asked. *)
Theorem blank_field_is_missing (w : World) (request : Request) (env : Env)
    (kv : gmap (list N) KvEntry) (raw : list N) (payload : JsValue) (f : Fields)
    (key : string) :
  EvJsonParse raw ∈ events_of w request env kv →
  JSON_parse w raw = Some payload →
  fields_of payload = Some f →
  key ∈ field_names →
  blank_value (get_prop_optional payload (lit key)) →
  status (response_of w request env kv) = 400%Z
  ∧ response_body (response_of w request env kv) = error_body "All fields are required"
  ∧ events_of w request env kv = events_parsed request.
Proof.
  intros Hin Hjson Hf Hkey Hblank.
  destruct (parse_event_inv _ _ _ _ _ Hin) as [-> Hparse].
  assert (Hreach : reaches_fields w request env kv payload) by done.
  assert (Hmissing : all_present f = false).
  { destruct (all_present f) eqn:Hall; [|done]. exfalso.
    apply (proj1 (all_present_field f) Hall key Hkey).
    destruct (trimmed_field_Some _ _ _ (fields_of_Some _ _ Hf key Hkey))
      as [[_ ->]|(s & Hs & _ & ->)]; [done|].
    apply trim_blank. destruct Hblank as [Hfalsy|(s' & Hs' & Hblank)].
    - rewrite Hs in Hfalsy. cbn in Hfalsy. by destruct s.
    - rewrite Hs in Hs'. by injection Hs' as ->. }
  destruct (Exit_run _ _ _ _ _ _ _
              (exit_field_missing _ _ _ _ payload f Hreach Hf Hmissing))
    as (-> & -> & _).
  by repeat split.
Qed.

(** The theorem at a submission whose name is three spaces. *)
Lemma blank_field_witness :
  status (response_of Sample.world Sample.blank_name Sample.env ∅) = 400%Z
  ∧ response_body (response_of Sample.world Sample.blank_name Sample.env ∅)
    = error_body "All fields are required".
Proof.
  pose proof (blank_field_is_missing Sample.world Sample.blank_name Sample.env ∅
                (raw_of Sample.blank_name) Sample.blank_name_payload
                {| f_name := []; f_email := lit "jo@example.com";
                   f_message := lit "Hello there, this works!";
                   f_turnstileToken := lit "tok" |}
                "name") as H.
  assert (Hin : EvJsonParse (raw_of Sample.blank_name)
                ∈ events_of Sample.world Sample.blank_name Sample.env ∅).
  { match goal with |- _ ∈ ?e =>
      assert (He : e = events_parsed Sample.blank_name) by (vm_compute; reflexivity)
    end. rewrite He. in_list. }
  specialize (H Hin). discharge H.
  assert (Hblank : blank_value
                     (get_prop_optional Sample.blank_name_payload (lit "name"))).
  { right. exists (lit "   "). split; vm_compute; reflexivity. }
  destruct (H Hblank) as (Hs & Hb & _).
  split; [exact Hs|exact Hb].
Defined.

(** X19.  A body that parses to a boolean, a number, a string or an
    array, or to an object with none of the four fields, is answered 400
    with the message that all fields are required (where [null] is
    answered 500): reading a field of such a value gives [undefined]. *)
Theorem payload_without_fields_gives_400 (w : World) (request : Request) (env : Env)
    (kv : gmap (list N) KvEntry) (raw : list N) (payload : JsValue) :
  EvJsonParse raw ∈ events_of w request env kv →
  JSON_parse w raw = Some payload →
  without_fields payload →
  status (response_of w request env kv) = 400%Z
  ∧ response_body (response_of w request env kv) = error_body "All fields are required"
  ∧ events_of w request env kv = events_parsed request.
Proof.
  intros Hin Hjson Hp.
  destruct (parse_event_inv _ _ _ _ _ Hin) as [-> Hparse].
  assert (Hreach : reaches_fields w request env kv payload) by done.
  destruct (Exit_run _ _ _ _ _ _ _
              (exit_field_missing _ _ _ _ payload _ Hreach (without_fields_spec _ Hp)
                 eq_refl))
    as (-> & -> & _).
  by repeat split.
Qed.

(** The theorem at a body that is an array of two numbers. *)
Lemma payload_without_fields_witness :
  status (response_of Sample.world Sample.array_body Sample.env ∅) = 400%Z
  ∧ response_body (response_of Sample.world Sample.array_body Sample.env ∅)
    = error_body "All fields are required".
Proof.
  pose proof (payload_without_fields_gives_400 Sample.world Sample.array_body
                Sample.env ∅ (lit "[1,2]")
                (JsArray [JsNumber (S754_finite false 4503599627370496 (-52));
                          JsNumber (S754_finite false 4503599627370496 (-51))])) as H.
  assert (Hin : EvJsonParse (lit "[1,2]")
                ∈ events_of Sample.world Sample.array_body Sample.env ∅).
  { match goal with |- _ ∈ ?e =>
      assert (He : e = [EvKvGet (lit "ratelimit:203.0.113.7"); EvText;
                        EvJsonParse (lit "[1,2]")]) by (vm_compute; reflexivity)
    end. rewrite He. in_list. }
  specialize (H Hin). discharge H.
  destruct H as (Hs & Hb & _).
  split; [exact Hs|exact Hb].
Defined.

(** ** The size of the body *)

Lemma units_app (a b : list N) : units (a ++ b) = units a + units b.
Proof. unfold units. by rewrite flat_map_app, length_app. Qed.

Lemma units_one (cp : N) : 1 <= units [cp] <= 2.
Proof.
  unfold units, Utf8.utf16_units. cbn [flat_map]. rewrite app_nil_r.
  destruct (cp <? 0x10000)%N; cbn; lia.
Qed.

Lemma units_inside (cp : N) : (cp < 0x10000)%N → units [cp] = 1.
Proof.
  intros Hcp. unfold units, Utf8.utf16_units. cbn [flat_map]. rewrite app_nil_r.
  destruct (N.ltb_spec cp 0x10000); [done|lia].
Qed.

Lemma units_outside (cp : N) : (0x10000 <= cp)%N → units [cp] = 2.
Proof.
  intros Hcp. unfold units, Utf8.utf16_units. cbn [flat_map]. rewrite app_nil_r.
  destruct (N.ltb_spec cp 0x10000); [lia|done].
Qed.

Lemma units_cons (cp : N) (cps : list N) : units (cp :: cps) = units [cp] + units cps.
Proof. apply (units_app [cp]). Qed.

(** The six bits of a continuation byte are added below the code point. *)
Lemma shift_in (cp b : N) :
  N.lor (N.shiftl cp 6) (N.land b 0x3F) = (cp * 64 + b mod 64)%N.
Proof.
  change 0x3F%N with (N.ones 6). rewrite N.land_ones, N.shiftl_mul_pow2.
  change (2 ^ 6)%N with 64%N.
  assert (Hdisjoint : N.land (cp * 64) (b mod 64) = 0%N).
  2:{ by rewrite <- (N.lxor_lor _ _ Hdisjoint), (N.add_nocarry_lxor _ _ Hdisjoint). }
  apply N.bits_inj. intros n.
  rewrite N.land_spec, N.bits_0.
  destruct (N.lt_ge_cases n 6) as [Hn|Hn].
  - change 64%N with (2 ^ 6)%N at 1. by rewrite N.mul_pow2_bits_low.
  - change 64%N with (2 ^ 6)%N at 2. rewrite N.mod_pow2_bits_high by done.
    apply andb_false_r.
Qed.

Lemma continuation_from_90 (b : N) :
  (0x90 <= b)%N → (b <= 0xBF)%N → (0x10 <= b mod 64)%N.
Proof.
  intros Hlo Hhi.
  pose proof (N.div_mod b 64 ltac:(done)) as Hdiv.
  pose proof (N.mod_lt b 64 ltac:(done)) as Hmod.
  revert Hdiv Hmod. generalize (b / 64)%N, (b mod 64)%N. lia.
Qed.

(** A leading byte: it is written out as one code unit, or it opens a
    sequence. *)
Lemma lead_spec (b : N) :
  well_formed (Utf8.lead b).1
  ∧ units (Utf8.lead b).2 + open_bytes (Utf8.lead b).1 <= 1
  ∧ 1 <= 3 * units (Utf8.lead b).2 + open_bytes (Utf8.lead b).1.
Proof.
  unfold Utf8.lead.
  destruct (N.leb_spec b 0x7F) as [Hb|Hb].
  { cbn [fst snd]. split; [by left|].
    rewrite units_inside by lia. change (open_bytes Utf8.idle) with 0. lia. }
  destruct ((0xC2 <=? b) && (b <=? 0xDF))%N.
  { cbn [fst snd]. split; [right; left; cbn; lia|]. cbn. lia. }
  destruct ((0xE0 <=? b) && (b <=? 0xEF))%N.
  { cbn [fst snd]. split; [right; left; cbn; lia|]. cbn. lia. }
  destruct ((0xF0 <=? b) && (b <=? 0xF4))%N eqn:Hf.
  { cbn [fst snd]. split; [|cbn; lia].
    right; right. cbn [Utf8.bytes_needed Utf8.bytes_seen Utf8.code_point
                       Utf8.lower_boundary Utf8.upper_boundary].
    split; [done|]. left. split; [done|].
    apply andb_true_iff in Hf as [Hlo%N.leb_le Hhi%N.leb_le].
    destruct (N.eqb_spec b 0xF0) as [->|Hne].
    - right. by vm_compute.
    - left. assert (b = 0xF1 ∨ b = 0xF2 ∨ b = 0xF3 ∨ b = 0xF4)%N as Hcases by lia.
      destruct Hcases as [-> | [-> | [-> | ->]]]; by vm_compute. }
  cbn [fst snd]. split; [by left|].
  change (open_bytes Utf8.idle) with 0. change (units [0xFFFD%N]) with 1. lia.
Qed.

Lemma open_bytes_bound (d : Utf8.decoder) : well_formed d → open_bytes d <= 3.
Proof.
  unfold well_formed, open_bytes. intros Hd.
  destruct (N.eqb_spec (Utf8.bytes_needed d) 0); [lia|]. lia.
Qed.

Lemma open_bytes_busy (d : Utf8.decoder) :
  Utf8.bytes_needed d ≠ 0%N → open_bytes d = S (N.to_nat (Utf8.bytes_seen d)).
Proof. intros Hd. unfold open_bytes. by destruct (N.eqb_spec (Utf8.bytes_needed d) 0). Qed.

(** One byte: the state stays well formed, and the code units written
    are paid for by the bytes read, at most one unit a byte and at
    least one unit every three bytes. *)
Lemma feed_spec (d : Utf8.decoder) (b : N) :
  well_formed d →
  well_formed (Utf8.feed d b).1
  ∧ units (Utf8.feed d b).2 + Nat.min 1 (open_bytes (Utf8.feed d b).1)
    <= 1 + Nat.min 1 (open_bytes d)
  ∧ 1 + open_bytes d
    <= 3 * units (Utf8.feed d b).2 + open_bytes (Utf8.feed d b).1.
Proof.
  intros Hd. pose proof (open_bytes_bound d Hd) as Hopen.
  pose proof (lead_spec b) as (Hl1 & Hl2 & Hl3).
  unfold Utf8.feed.
  destruct (N.eqb_spec (Utf8.bytes_needed d) 0) as [Hidle|Hbusy].
  { assert (Hzero : open_bytes d = 0) by (unfold open_bytes; by rewrite Hidle).
    rewrite Hzero. split; [done|]. lia. }
  pose proof (open_bytes_busy d Hbusy) as Hopen'.
  destruct ((b <? Utf8.lower_boundary d) || (Utf8.upper_boundary d <? b))%N eqn:Hrange.
  { destruct (Utf8.lead b) as [d' out]. cbn [fst snd] in *.
    rewrite units_cons. change (units [0xFFFD%N]) with 1.
    split; [done|]. lia. }
  apply orb_false_iff in Hrange as [Hlo%N.ltb_ge Hhi%N.ltb_ge].
  rewrite shift_in.
  pose proof (N.mod_lt b 64 ltac:(done)) as Hmod.
  pose proof (continuation_from_90 b) as Hbits.
  revert Hmod Hbits. generalize (b mod 64)%N. intros low Hmod Hbits.
  destruct (N.eqb_spec (Utf8.bytes_seen d + 1) (Utf8.bytes_needed d)) as [Hlast|Hmore].
  - cbn [fst snd]. change (open_bytes Utf8.idle) with 0.
    pose proof (units_one (Utf8.code_point d * 64 + low)) as Hone.
    split; [by left|]. split; [lia|].
    destruct Hd as [?|[[? ?]|(Hfour & Hcp)]]; [done|lia|].
    rewrite units_outside; [lia|]. lia.
  - cbn [fst snd]. change (units []) with 0.
    rewrite !open_bytes_busy by done. cbn [Utf8.bytes_seen].
    split; [|lia].
    unfold well_formed. cbn [Utf8.bytes_needed Utf8.bytes_seen Utf8.code_point
                             Utf8.lower_boundary Utf8.upper_boundary].
    destruct Hd as [?|[[? ?]|(Hfour & Hcp)]]; [done|right; left; lia|].
    right; right. split; [done|].
    destruct Hcp as [(Hs & Hcp)|[(Hs & Hcp)|(Hs & Hcp)]].
    + right; left. split; [lia|].
      destruct Hcp as [Hcp|[Hlow Hup]]; [lia|].
      lia.
    + right; right. split; [lia|lia].
    + lia.
Qed.

Lemma run_spec (bytes : list N) (d : Utf8.decoder) :
  well_formed d →
  units (Utf8.run d bytes) <= length bytes + Nat.min 1 (open_bytes d)
  ∧ length bytes + open_bytes d <= 3 * units (Utf8.run d bytes).
Proof.
  revert d. induction bytes as [|b bytes IH]; intros d Hd.
  - pose proof (open_bytes_bound d Hd) as Hopen. cbn [Utf8.run length].
    destruct (N.eqb_spec (Utf8.bytes_needed d) 0) as [Hidle|Hbusy].
    + assert (Hzero : open_bytes d = 0) by (unfold open_bytes; by rewrite Hidle).
      rewrite Hzero. change (units []) with 0. lia.
    + rewrite (open_bytes_busy d Hbusy) in *. change (units [0xFFFD%N]) with 1. lia.
  - cbn [Utf8.run length].
    destruct (feed_spec d b Hd) as (Hd' & Hup & Hlow).
    destruct (Utf8.feed d b) as [d' out]. cbn [fst snd] in *.
    destruct (IH d' Hd') as [IHup IHlow].
    rewrite units_app. lia.
Qed.

Lemma strip_bom_length (bytes : list N) :
  length (Utf8.strip_bom bytes) <= length bytes <= length (Utf8.strip_bom bytes) + 3.
Proof.
  unfold Utf8.strip_bom. destruct bytes as [|a [|b [|c rest]]]; cbn [length]; try lia.
  destruct ((a =? 0xEF) && (b =? 0xBB) && (c =? 0xBF))%N; cbn [length]; lia.
Qed.

(** The text has at most one code unit a byte, and at least one every
    three bytes, the byte-order mark apart. *)
Lemma decode_length (bytes : list Byte.byte) :
  (str_length (Utf8.decode bytes) <= Z.of_nat (length bytes)
   <= 3 * str_length (Utf8.decode bytes) + 3)%Z.
Proof.
  unfold str_length, Utf8.decode.
  change (length (flat_map Utf8.utf16_units ?cps)) with (units cps).
  pose proof (strip_bom_length (List.map Byte.to_N bytes)) as Hbom.
  rewrite length_map in Hbom.
  destruct (run_spec (Utf8.strip_bom (List.map Byte.to_N bytes)) Utf8.idle) as [Hup Hlow].
  { by left. }
  change (open_bytes Utf8.idle) with 0 in *. lia.
Qed.

(** X20.  The size guard compares the length of the decoded text, in
    UTF-16 code units, with the limit.  The text of a body never has
    more code units than the body has bytes, and the body has at most
    three bytes per code unit, plus three for a byte-order mark; so the
    413 is given only to bodies of more than 10,000 bytes, a body of at
    most 10,000 bytes always passes the guard, and a body that is handed
    to [JSON.parse] has at most 30,003 bytes. *)
Theorem size_guard_in_bytes (w : World) (request : Request) (env : Env)
    (kv : gmap (list N) KvEntry) :
  (str_length (raw_of request) <= Z.of_nat (length (body request))
   <= 3 * str_length (raw_of request) + 3)%Z
  ∧ (status (response_of w request env kv) = 413%Z
     → (10000 < Z.of_nat (length (body request)))%Z)
  ∧ ((Z.of_nat (length (body request)) <= 10000)%Z
     → status (response_of w request env kv) ≠ 413%Z)
  ∧ (∀ raw, EvJsonParse raw ∈ events_of w request env kv
            → (Z.of_nat (length (body request)) <= 30003)%Z).
Proof.
  pose proof (decode_length (body request)) as Hlen.
  change (Utf8.decode (body request)) with (raw_of request) in Hlen.
  assert (Hlarge : status (response_of w request env kv) = 413%Z
                   → (10000 < Z.of_nat (length (body request)))%Z).
  { by_exit w request env kv; cbn [status json error_response]; intros Hs;
      try discriminate Hs. unfold MAX_BODY_BYTES in *. lia. }
  split_and!; [lia|lia|exact Hlarge|lia|].
  intros raw Hin. destruct (parse_event_inv _ _ _ _ _ Hin) as [-> Hreach].
  destruct Hreach as [_ Hsize]. unfold MAX_BODY_BYTES in Hsize. lia.
Qed.

(** ** The responses *)

(** X21.  No response carries anything but one of the fixed bodies of
    the source: whatever the outside answers or throws, the body is
    absent, the success message or one of the twelve error messages. *)
Theorem bodies_are_fixed (w : World) (request : Request) (env : Env)
    (kv : gmap (list N) KvEntry) :
  response_body (response_of w request env kv) ∈ known_bodies.
Proof.
  by_exit w request env kv; unfold known_bodies;
    repeat first [ apply list_elem_of_here | apply list_elem_of_further ].
Qed.

Lemma extra_headers_content_type (request : Request) :
  extra_headers request !! lit "Content-Type" = None.
Proof.
  unfold extra_headers, spread, buildCorsHeaders.
  destruct (nonempty (origin_of request) && has ALLOWED_ORIGINS (origin_of request)).
  - rewrite lookup_union_None. split; [by vm_compute|].
    rewrite lookup_insert_ne by discriminate. by vm_compute.
  - by vm_compute.
Qed.

(** [json] declares the content type unless [extraHeaders] names one. *)
Lemma json_content_type (obj : list N * list N) (s : Z)
    (extra : gmap (list N) (list N)) :
  extra !! lit "Content-Type" = None →
  headers (json obj s extra) !! lit "Content-Type"
  = Some (lit "application/json; charset=utf-8").
Proof.
  intros Hextra. unfold json, spread. cbn [headers].
  rewrite lookup_union, Hextra, lookup_singleton_eq. done.
Qed.

(** X22.  Every response but the 204 of the preflight is declared as
    [application/json; charset=utf-8] and its body is a JSON text that
    parses to an object with a single property whose value is a string:
    [success] for the 200, [error] for every other status.  The 204 has
    no body and no content type. *)
Theorem responses_are_json (w : World) (request : Request) (env : Env)
    (kv : gmap (list N) KvEntry) :
  let r := response_of w request env kv in
  (status r = 204%Z ∧ response_body r = None
   ∧ headers r !! lit "Content-Type" = None)
  ∨ (status r ≠ 204%Z
     ∧ headers r !! lit "Content-Type" = Some (lit "application/json; charset=utf-8")
     ∧ ∃ body key message,
         response_body r = Some body
         ∧ Json.parse body = Some (JsObject [(key, JsString message)])
         ∧ (status r = 200%Z → key = lit "success")
         ∧ (status r ≠ 200%Z → key = lit "error")).
Proof.
  cbv zeta. by_exit w request env kv.
  2:{ left. split_and!; [reflexivity|reflexivity|]. apply extra_headers_content_type. }
  all: right; (split; [discriminate|]);
       (split; [apply json_content_type;
                first [apply lookup_empty | apply extra_headers_content_type]|]);
       eexists _, _, _; (split; [reflexivity|]);
       (split; [vm_compute; reflexivity|]);
       cbn [status json error_response];
       split; intros Hs; first [discriminate Hs | by destruct Hs | reflexivity].
Qed.

(** The entry found in a map that is written out. *)
Ltac map_cases H :=
  repeat (apply lookup_insert_Some in H as [[<- <-]|[_ H]]);
  try apply lookup_singleton_Some in H as [<- <-].

Lemma extra_headers_lookup (request : Request) (key value : list N) :
  extra_headers request !! key = Some value →
  key ∈ List.map lit header_names
  ∧ (key = lit "Access-Control-Allow-Origin"
     → value = origin_of request ∧ origin_allowed request).
Proof.
  unfold extra_headers, spread, buildCorsHeaders, buildSecurityHeaders,
    origin_allowed, has.
  generalize (origin_of request). intros origin.
  rewrite lookup_union_Some_raw. intros [Hsec|[_ Hcors]].
  { map_cases Hsec; (split; [unfold header_names; in_list|discriminate]). }
  destruct (nonempty origin) eqn:Hne; cbn [andb] in Hcors.
  2:{ map_cases Hcors; (split; [unfold header_names; in_list|discriminate]). }
  destruct (bool_decide (origin ∈ ALLOWED_ORIGINS)) eqn:Hallowed.
  2:{ map_cases Hcors; (split; [unfold header_names; in_list|discriminate]). }
  apply bool_decide_eq_true in Hallowed.
  map_cases Hcors; (split; [unfold header_names; in_list|]); try discriminate.
  done.
Qed.

Lemma json_headers_Some (obj : list N * list N) (s : Z)
    (extra : gmap (list N) (list N)) (key value : list N) :
  headers (json obj s extra) !! key = Some value →
  extra !! key = Some value ∨ key = lit "Content-Type".
Proof.
  unfold json, spread. cbn [headers]. rewrite lookup_union_Some_raw.
  intros [?|[_ [<- _]%lookup_singleton_Some]]; [by left|by right].
Qed.

(** Every header of a response is one of the eleven, and an
    [Access-Control-Allow-Origin] is the allowed origin of the request. *)
Lemma response_headers_lookup (w : World) (request : Request) (env : Env)
    (kv : gmap (list N) KvEntry) (key value : list N) :
  headers (response_of w request env kv) !! key = Some value →
  key ∈ List.map lit header_names
  ∧ (key = lit "Access-Control-Allow-Origin"
     → value = origin_of request ∧ origin_allowed request).
Proof.
  by_exit w request env kv; intros Hkey;
    first [ by apply extra_headers_lookup
          | apply json_headers_Some in Hkey as [Hkey| ->];
            [ first [ by apply extra_headers_lookup | by rewrite lookup_empty in Hkey ]
            | split; [unfold header_names; in_list|discriminate] ] ].
Qed.

(** X23.  A response carries no header but the eleven the source names,
    and when it carries [Access-Control-Allow-Origin], the value is the
    [Origin] of the request and is one of the three allowed origins:
    never a wildcard, never an origin that is not on the list. *)
Theorem allow_origin_is_never_open (w : World) (request : Request) (env : Env)
    (kv : gmap (list N) KvEntry) :
  (∀ key value,
     headers (response_of w request env kv) !! key = Some value →
     key ∈ List.map lit header_names)
  ∧ (∀ value,
       headers (response_of w request env kv) !! lit "Access-Control-Allow-Origin"
       = Some value →
       value = origin_of request ∧ value ∈ ALLOWED_ORIGINS).
Proof.
  split.
  - intros key value Hkey. by destruct (response_headers_lookup _ _ _ _ _ _ Hkey).
  - intros value Hkey. destruct (response_headers_lookup _ _ _ _ _ _ Hkey) as [_ Horigin].
    destruct (Horigin eq_refl) as [-> ?]. done.
Qed.

(** X24.  The status is 403 exactly when the request has an [Origin]
    that is not empty and not on the allow-list, and the 403 always has
    the body of the forbidden origin: the 403 without a body that the
    preflight branch holds is never returned.  A request without
    [Origin] header is never refused by the gate, and its response has
    no [Access-Control-Allow-Origin]. *)
Theorem status_403_is_the_origin_gate (w : World) (request : Request) (env : Env)
    (kv : gmap (list N) KvEntry) :
  (status (response_of w request env kv) = 403%Z
   ↔ origin_of request ≠ [] ∧ origin_of request ∉ ALLOWED_ORIGINS)
  ∧ (status (response_of w request env kv) = 403%Z
     → response_body (response_of w request env kv) = error_body "Forbidden origin")
  ∧ (headers_get request (lit "Origin") = None
     → status (response_of w request env kv) ≠ 403%Z
       ∧ headers (response_of w request env kv) !! lit "Access-Control-Allow-Origin"
         = None).
Proof.
  assert (Hgate : status (response_of w request env kv) = 403%Z
                  ↔ ¬ origin_permitted request).
  { by_exit w request env kv; cbn [status json error_response];
      (split; [first [discriminate | by intros _]|]);
      intros Hno; first [reflexivity | exfalso; open_reach; done]. }
  assert (Hperm : ¬ origin_permitted request
                  ↔ origin_of request ≠ [] ∧ origin_of request ∉ ALLOWED_ORIGINS).
  { unfold origin_permitted, origin_allowed. split.
    - intros Hno. split; intros ?; apply Hno; [by left|by right].
    - intros [Hne Hout] [?|?]; done. }
  split_and!.
  - by rewrite Hgate.
  - by_exit w request env kv; cbn [status json error_response]; try discriminate.
    reflexivity.
  - intros Hnone.
    assert (Hempty : origin_of request = []) by (unfold origin_of; by rewrite Hnone).
    split.
    + rewrite Hgate, Hperm. by intros [? _].
    + destruct (headers (response_of w request env kv)
                  !! lit "Access-Control-Allow-Origin") as [value|] eqn:Hv; [|done].
      exfalso. destruct (response_headers_lookup _ _ _ _ _ _ Hv) as [_ Horigin].
      destruct (Horigin eq_refl) as [_ Hallowed].
      unfold origin_allowed in Hallowed. rewrite Hempty in Hallowed.
      revert Hallowed. apply (bool_decide_eq_false_1 _). by vm_compute.
Qed.

(** ** What [isValidEmail] accepts *)

(** X25.  [isValidEmail] accepts exactly the strings of 3 to 254
    characters that are a local part of one or more of the characters
    [a-zA-Z0-9.!#$%&'*+/=?^_`{|}~-], an at sign, and one or more labels
    joined by dots, each label of 1 to 63 letters, digits and hyphens
    with no hyphen at its start or end.  The test for CR, LF and TAB
    decides nothing: a string the pattern matches holds none of them. *)
Theorem isValidEmail_accepts_addresses (email : list N) :
  (isValidEmail email = true
   ↔ (3 <= str_length email <= 254)%Z ∧ is_address email)
  ∧ (matches pattern email = true → contains_class cr_lf_tab email = false).
Proof.
  split; [apply isValidEmail_address|].
  intros Haddress%matches_pattern. unfold contains_class.
  destruct (existsb cr_lf_tab email) eqn:E; [|done]. exfalso.
  apply existsb_exists in E as (c & Hc%list_elem_of_In & Hbad).
  destruct (address_clean _ Haddress c Hc) as (?&?&?). unfold cr_lf_tab in Hbad.
  destruct (N.eqb_spec c 13), (N.eqb_spec c 10), (N.eqb_spec c 9); done.
Qed.

(** X26.  An email that [isValidEmail] accepts holds exactly one at
    sign; all its characters are printable ASCII, none of them a space,
    a double quote, an angle bracket, a parenthesis, a comma, a colon, a
    semicolon, a bracket or a backslash; and trimming leaves it as it
    is. *)
Theorem valid_email_is_plain (email : list N) :
  isValidEmail email = true →
  length (List.filter (N.eqb 64) email) = 1
  ∧ Forall (λ c, (33 <= c <= 126)%N
                 ∧ c ∉ [34; 40; 41; 44; 58; 59; 60; 62; 91; 92; 93]%N) email
  ∧ trim email = email.
Proof.
  intros Hvalid. apply isValidEmail_iff in Hvalid as (_ & _ & Haddress%matches_pattern).
  pose proof (address_printable _ Haddress) as Hprintable.
  split_and!; [by apply address_one_at|done|].
  apply trim_id. rewrite Forall_forall in Hprintable. split.
  - intros c Hc. apply printable_is_no_space, Hprintable.
    destruct email; [done|]. injection Hc as ->. in_list.
  - intros c Hc. apply printable_is_no_space, Hprintable.
    apply last_Some in Hc as [l ->]. apply elem_of_app. right. in_list.
Qed.

(** The theorem at the email of the scenario. *)
Lemma valid_email_witness :
  isValidEmail (lit "jo@example.com") = true
  ∧ length (List.filter (N.eqb 64) (lit "jo@example.com")) = 1
  ∧ trim (lit "jo@example.com") = lit "jo@example.com".
Proof.
  assert (H : isValidEmail (lit "jo@example.com") = true) by (vm_compute; reflexivity).
  split; [exact H|].
  destruct (valid_email_is_plain _ H) as (Hat & _ & Htrim).
  split; [exact Hat|exact Htrim].
Defined.

(** ** What [escapeHtml] writes *)

(** What [escapeHtml] writes for one code unit, case by case. *)
Lemma escapeHtml_piece (c : N) (s : list N) :
  (c = 38%N ∧ escapeHtml (c :: s) = [38; 97; 109; 112; 59]%N ++ escapeHtml s)
  ∨ (c = 60%N ∧ escapeHtml (c :: s) = [38; 108; 116; 59]%N ++ escapeHtml s)
  ∨ (c = 62%N ∧ escapeHtml (c :: s) = [38; 103; 116; 59]%N ++ escapeHtml s)
  ∨ (c = 34%N ∧ escapeHtml (c :: s) = [38; 113; 117; 111; 116; 59]%N ++ escapeHtml s)
  ∨ (c = 39%N ∧ escapeHtml (c :: s) = [38; 35; 51; 57; 59]%N ++ escapeHtml s)
  ∨ (inert c ∧ html_special c = false ∧ escapeHtml (c :: s) = c :: escapeHtml s).
Proof.
  rewrite escapeHtml_cons. unfold html_special, inert.
  destruct (N.eqb_spec c 38) as [->|?]; [by left|].
  destruct (N.eqb_spec c 60) as [->|?]; [by right; left|].
  destruct (N.eqb_spec c 62) as [->|?]; [by right; right; left|].
  destruct (N.eqb_spec c 34) as [->|?]; [by right; right; right; left|].
  destruct (N.eqb_spec c 39) as [->|?]; [by right; right; right; right; left|].
  by right; right; right; right; right.
Qed.

Ltac by_piece c s :=
  destruct (escapeHtml_piece c s)
    as [[? ->]|[[? ->]|[[? ->]|[[? ->]|[[? ->]|(Hinert & Hplain & ->)]]]]]; subst.

Lemma escapeHtml_inj (s t : list N) : escapeHtml s = escapeHtml t → s = t.
Proof.
  revert t. induction s as [|c s IH]; intros [|d t] Heq.
  - reflexivity.
  - exfalso. revert Heq. change (escapeHtml []) with (@nil N). by_piece d t; discriminate.
  - exfalso. revert Heq. change (escapeHtml []) with (@nil N). by_piece c s; discriminate.
  - revert Heq. by_piece c s; try (revert Hinert; clear Hplain; intros Hc);
      by_piece d t; intros Heq;
      unfold inert in *; simplify_eq/=; try (f_equal; by apply IH); try lia.
Qed.

(** X27.  [escapeHtml] loses nothing: two texts have the same escaped
    form only if they are the same text (the five entities all start
    with the ampersand, which is itself escaped, and no entity is the
    start of another). *)
Theorem escapeHtml_is_injective (s t : list N) :
  escapeHtml s = escapeHtml t ↔ s = t.
Proof. split; [apply escapeHtml_inj|by intros ->]. Qed.

Lemma escapeHtml_plain (s : list N) :
  existsb html_special s = false → escapeHtml s = s.
Proof.
  induction s as [|c s IH]; [done|]. cbn [existsb]. intros [Hc Hs]%orb_false_iff.
  rewrite escapeHtml_cons, Hc. cbn [app]. by rewrite IH.
Qed.

Lemma escapeHtml_length (s : list N) :
  (str_length s <= str_length (escapeHtml s) <= 6 * str_length s)%Z
  ∧ (str_length (escapeHtml s) = str_length s → existsb html_special s = false).
Proof.
  unfold str_length. induction s as [|c s [IHlen IHeq]]; [done|].
  by_piece c s; cbn [length app existsb]; rewrite ?length_app;
    cbn [length]; (split; [lia|]); try lia.
  intros Heq. rewrite Hplain. apply IHeq. lia.
Qed.

(** X28.  [escapeHtml] returns a text as it is exactly when the text
    holds none of the five characters it replaces; the escaped form is
    never shorter than the text and at most six times as long, and it
    has the length of the text only when nothing was replaced. *)
Theorem escapeHtml_keeps_plain_text (s : list N) :
  (escapeHtml s = s ↔ existsb html_special s = false)
  ∧ (str_length s <= str_length (escapeHtml s) <= 6 * str_length s)%Z
  ∧ (str_length (escapeHtml s) = str_length s ↔ escapeHtml s = s).
Proof.
  destruct (escapeHtml_length s) as [Hlen Heq].
  split_and!; [split; [|apply escapeHtml_plain]|lia|lia|split].
  - intros Hfix. apply Heq. by rewrite Hfix.
  - intros Hsame. by apply escapeHtml_plain, Heq.
  - by intros ->.
Qed.

Lemma filter_escapeHtml (s : list N) : List.filter markup (escapeHtml s) = [].
Proof.
  induction s as [|c s IH]; [done|].
  by_piece c s; rewrite ?List.filter_app; cbn [List.filter app]; rewrite ?IH;
    try reflexivity.
  assert (Hc : markup c = false).
  { unfold markup. destruct Hinert as (_ & ? & ? & ? & ?).
    by destruct (N.eqb_spec c 60), (N.eqb_spec c 62), (N.eqb_spec c 34),
                (N.eqb_spec c 39). }
  by rewrite Hc.
Qed.

(** X29.  In the HTML body of every mail that is sent, the angle
    brackets and the quotes are those of the template of the source, in
    number and in order, whatever the name, the email, the message, the
    timestamp, the client address and the user agent hold: no value
    adds a tag, closes one or leaves an attribute. *)
Theorem mail_markup_is_the_template (w : World) (request : Request) (env : Env)
    (kv : gmap (list N) KvEntry) (client : SESClientConfig) (params : SendEmailParams) :
  EvSesSend client params ∈ events_of w request env kv →
  List.filter markup (Html params)
  = List.filter markup (html_body [] [] [] [] [] []).
Proof.
  intros Hin.
  destruct (send_event_inv _ _ _ _ _ _ Hin) as (f & _ & -> & _).
  unfold mail_of, params_of. cbn [Html]. unfold html_body.
  rewrite !List.filter_app, !filter_escapeHtml. reflexivity.
Qed.

(** The theorem at the submission whose message is the script tag: the
    HTML body of its mail holds the 60 markup characters of the
    template. *)
Lemma mail_markup_witness :
  let mail := mail_of Sample.world Sample.script Sample.script_fields in
  EvSesSend (sesClient_of Sample.env) mail
  ∈ events_of Sample.world Sample.script Sample.env ∅
  ∧ length (List.filter markup (Html mail)) = 60.
Proof.
  cbv zeta.
  assert (Hin : EvSesSend (sesClient_of Sample.env)
                  (mail_of Sample.world Sample.script Sample.script_fields)
                ∈ events_of Sample.world Sample.script Sample.env ∅).
  { match goal with |- _ ∈ ?e =>
      assert (He : e = events_sent Sample.world Sample.script Sample.env
                         Sample.script_fields ++ [put_of ∅ Sample.script])
        by (vm_compute; reflexivity)
    end.
    rewrite He. in_list. }
  split; [exact Hin|].
  rewrite (mail_markup_is_the_template _ _ _ _ _ _ Hin). vm_compute. reflexivity.
Defined.
